(** * Action execution framework and meeting intelligence of exchange-copilot

    A shallow embedding of [backend/actions/base.py] and of the helpers of
    [DailyBriefingAction] and [MeetingPrepAction] in
    [backend/actions/definitions.py], with the properties the specification
    states about them.

    Layout: [Py] (the fragment of Python's data model the code relies on),
    [Base] (base.py), [Definitions] (definitions.py; the delegate finder of
    the briefing both on the dictionaries it receives and on the records it
    reads of them), [Trace] and [Stated] (what the properties speak about),
    then the proofs. *)

From Stdlib Require Import ZArith String Ascii DecimalString Sorted OrderedTypeEx.
From stdpp Require Import gmap strings list.

Open Scope string_scope.
Set Warnings "-register-all".

(* ===================================================================== *)
(** * Python values                                                       *)
(* ===================================================================== *)

Module Py.

(** A character is a code point below 256; a [string] is a Python [str]
    over these code points. *)
Definition code (c : ascii) : N := N_of_ascii c.

Definition in_range (lo hi : N) (c : ascii) : bool :=
  ((lo <=? code c) && (code c <=? hi))%N.

(** [str.lower()] on one character: A-Z, and the upper-case letters of the
    Latin-1 supplement (all of U+00C0..U+00DE but the multiplication sign). *)
Definition lower_char (c : ascii) : ascii :=
  if in_range 65 90 c || (in_range 192 222 c && negb (code c =? 215)%N)
  then ascii_of_N (code c + 32)
  else c.

Fixpoint lower (s : string) : string :=
  match s with
  | EmptyString => EmptyString
  | String c s' => String (lower_char c) (lower s')
  end.

(** The class [[a-z]] of the [re] module. *)
Definition is_az (c : ascii) : bool := in_range 97 122 c.

(** The class [\w] of the [re] module on [str] patterns: the characters for
    which [str.isalnum()] holds, and the underscore. *)
Definition is_word (c : ascii) : bool :=
  in_range 48 57 c || in_range 65 90 c || (code c =? 95)%N || in_range 97 122 c
  || (code c =? 170)%N || in_range 178 179 c || (code c =? 181)%N
  || in_range 185 186 c || in_range 188 190 c || in_range 192 214 c
  || in_range 216 246 c || in_range 248 255 c.

(** [str.isprintable()] on one character. *)
Definition is_printable (c : ascii) : bool :=
  negb (in_range 0 31 c || in_range 127 160 c || (code c =? 173)%N).

(** [needle in haystack] on two [str]. *)
Fixpoint contains (needle haystack : string) : bool :=
  String.prefix needle haystack ||
  match haystack with
  | EmptyString => false
  | String _ h' => contains needle h'
  end.

(** The values that travel through the framework: what [json.loads] can
    produce without fractional numbers, dictionaries being keyed by [str]
    and keeping insertion order. *)
Inductive value : Type :=
| VNone
| VBool (b : bool)
| VInt (n : Z)
| VStr (s : string)
| VList (l : list value)
| VDict (d : list (string * value)).

Definition dict : Type := list (string * value).

(** Truth value testing ([if x:], [not x], [x and y]). *)
Definition truthy (v : value) : bool :=
  match v with
  | VNone => false
  | VBool b => b
  | VInt n => negb (n =? 0)%Z
  | VStr s => negb (String.eqb s "")
  | VList l => match l with [] => false | _ => true end
  | VDict d => match d with [] => false | _ => true end
  end.

(** [isinstance(v, str)] and [isinstance(v, dict)]. *)
Definition is_str (v : value) : bool :=
  match v with VStr _ => true | _ => false end.

Definition is_dict (v : value) : bool :=
  match v with VDict _ => true | _ => false end.

(** [type(v).__name__]. *)
Definition type_name (v : value) : string :=
  match v with
  | VNone => "NoneType"
  | VBool _ => "bool"
  | VInt _ => "int"
  | VStr _ => "str"
  | VList _ => "list"
  | VDict _ => "dict"
  end.

Definition hex_digit (n : N) : ascii :=
  if (n <? 10)%N then ascii_of_N (48 + n) else ascii_of_N (87 + n).

(** One character of [repr(s)], [quote] being the quote chosen for [s]. *)
Definition repr_char (quote : ascii) (c : ascii) : string :=
  if Ascii.eqb c quote || Ascii.eqb c "\"%char then String "\"%char (String c "")
  else if (code c =? 9)%N then "\t"
  else if (code c =? 10)%N then "\n"
  else if (code c =? 13)%N then "\r"
  else if is_printable c then String c ""
  else String "\"%char (String "x"%char
         (String (hex_digit (code c / 16)) (String (hex_digit (code c mod 16)) ""))).

Fixpoint repr_chars (quote : ascii) (s : string) : string :=
  match s with
  | EmptyString => EmptyString
  | String c s' => repr_char quote c ++ repr_chars quote s'
  end.

Definition dquote : ascii := ascii_of_N 34.
Definition squote : ascii := ascii_of_N 39.

(** [repr(s)] for a [str]: single quotes, unless the text has a single quote
    and no double quote. *)
Definition repr_str (s : string) : string :=
  let quote :=
    if contains (String squote "") s && negb (contains (String dquote "") s)
    then dquote else squote in
  String quote (repr_chars quote s ++ String quote "").

Definition repr_int (n : Z) : string := NilZero.string_of_int (Z.to_int n).

(** [', '.join(parts)]. *)
Fixpoint join (sep : string) (parts : list string) : string :=
  match parts with
  | [] => ""
  | [p] => p
  | p :: rest => p ++ sep ++ join sep rest
  end.

(** [repr(v)]. *)
Fixpoint repr (v : value) : string :=
  match v with
  | VNone => "None"
  | VBool true => "True"
  | VBool false => "False"
  | VInt n => repr_int n
  | VStr s => repr_str s
  | VList l => "[" ++ join ", " (List.map repr l) ++ "]"
  | VDict d =>
      "{" ++ join ", " (List.map (fun kv => repr_str (fst kv) ++ ": " ++ repr (snd kv)) d)
          ++ "}"
  end.

(** [str(v)], also what an f-string substitutes for [{v}]. *)
Definition str (v : value) : string :=
  match v with
  | VStr s => s
  | _ => repr v
  end.

(** Exceptions: the class name, [str(e)], and whether the class derives
    from [Exception]. [KeyboardInterrupt] and [SystemExit] derive from
    [BaseException] alone: an [except Exception] clause lets them through. *)
Record exn : Type :=
  BaseExn { exn_class : string; exn_str : string; is_exception : bool }.

(** An instance of a subclass of [Exception]. *)
Abbreviation Exn c s := (BaseExn c s true).

(** The result of evaluating an expression or a call: a value, or a raised
    exception. *)
Inductive outcome (A : Type) : Type :=
| Returned (a : A)
| Raised (e : exn).
Arguments Returned {A} a.
Arguments Raised {A} e.

(** Evaluation in sequence: what follows a raise is not evaluated. *)
Definition outcome_bind {A B : Type} (f : A -> outcome B) (o : outcome A) : outcome B :=
  match o with
  | Returned a => f a
  | Raised e => Raised e
  end.
#[global] Instance outcome_mbind : MBind outcome := @outcome_bind.
#[global] Instance outcome_mret : MRet outcome := @Returned.

(** A [for] loop over [xs] whose body updates [s] and may raise. *)
Fixpoint for_each {S A : Type} (body : S -> A -> outcome S) (s : S) (xs : list A)
  : outcome S :=
  match xs with
  | [] => Returned s
  | x :: xs' =>
      match body s x with
      | Returned s' => for_each body s' xs'
      | Raised e => Raised e
      end
  end.

Definition AttributeError (v : value) (attr : string) : exn :=
  Exn "AttributeError"
      ("'" ++ type_name v ++ "' object has no attribute '" ++ attr ++ "'").

Definition not_subscriptable (v : value) : exn :=
  Exn "TypeError" ("'" ++ type_name v ++ "' object is not subscriptable").

Fixpoint lookup_key (key : string) (d : dict) : option value :=
  match d with
  | [] => None
  | (k, v) :: d' => if String.eqb k key then Some v else lookup_key key d'
  end.

(** [v.get(key, default)]: only a dictionary has the method. *)
Definition get (v : value) (key : string) (default : value) : outcome value :=
  match v with
  | VDict d => Returned (from_option id default (lookup_key key d))
  | _ => Raised (AttributeError v "get")
  end.

(** [v[key]] for a [str] key. *)
Definition getitem (v : value) (key : string) : outcome value :=
  match v with
  | VDict d =>
      match lookup_key key d with
      | Some x => Returned x
      | None => Raised (Exn "KeyError" (repr_str key))
      end
  | VStr _ => Raised (Exn "TypeError" "string indices must be integers, not 'str'")
  | VList _ => Raised (Exn "TypeError" "list indices must be integers or slices, not str")
  | _ => Raised (not_subscriptable v)
  end.

(** [v[0]]. *)
Definition first (v : value) : outcome value :=
  match v with
  | VList (x :: _) => Returned x
  | VList [] => Raised (Exn "IndexError" "list index out of range")
  | VStr (String c _) => Returned (VStr (String c ""))
  | VStr EmptyString => Raised (Exn "IndexError" "string index out of range")
  | VDict _ => Raised (Exn "KeyError" "0")
  | _ => Raised (not_subscriptable v)
  end.

(** [sorted(l, key=key, reverse=True)] for keys that are natural numbers.
    The sort is stable, also under [reverse=True]: an element goes before
    the first one whose key is not above its own, so among equal keys the
    order of [l] is kept. *)
Fixpoint insert_reverse {A : Type} (key : A -> nat) (x : A) (sorted : list A)
  : list A :=
  match sorted with
  | [] => [x]
  | y :: rest =>
      if (key x <? key y)%nat then y :: insert_reverse key x rest
      else x :: y :: rest
  end.

Definition sorted_reverse {A : Type} (key : A -> nat) (l : list A) : list A :=
  foldr (insert_reverse key) [] l.

(** [v == s] for a [str] constant [s]: only an equal [str] compares equal. *)
Definition eq_str (v : value) (s : string) : bool :=
  match v with
  | VStr s' => String.eqb s' s
  | _ => false
  end.

Fixpoint chars (s : string) : list value :=
  match s with
  | EmptyString => []
  | String c s' => VStr (String c "") :: chars s'
  end.

(** [for x in v]: the items the loop sees; a dictionary gives its keys. *)
Definition iter (v : value) : outcome (list value) :=
  match v with
  | VList l => Returned l
  | VStr s => Returned (chars s)
  | VDict d => Returned (List.map (fun kv => VStr (fst kv)) d)
  | _ => Raised (Exn "TypeError" ("'" ++ type_name v ++ "' object is not iterable"))
  end.

(** [s.replace(old, new)] for a non-empty [old]: the occurrences of [old]
    are taken from left to right, without overlap; [skip] counts the
    characters of an occurrence still to be passed over. *)
Fixpoint replace_from (skip : nat) (old new s : string) : string :=
  match s with
  | EmptyString => EmptyString
  | String c s' =>
      match skip with
      | S k => replace_from k old new s'
      | O =>
          if String.prefix old s
          then new ++ replace_from (String.length old - 1) old new s'
          else String c (replace_from 0 old new s')
      end
  end.

(** With an empty [old], [new] goes before every character and at the end. *)
Fixpoint interleave (new s : string) : string :=
  match s with
  | EmptyString => new
  | String c s' => new ++ String c (interleave new s')
  end.

Definition replace (old new s : string) : string :=
  if String.eqb old "" then interleave new s else replace_from 0 old new s.

(** [v.lower()]: only a [str] has the method. *)
Definition method_lower (v : value) : outcome string :=
  match v with
  | VStr s => Returned (lower s)
  | _ => Raised (AttributeError v "lower")
  end.

(** [v.replace(old, new)]: only a [str] has the method. *)
Definition method_replace (v : value) (old new : string) : outcome value :=
  match v with
  | VStr s => Returned (VStr (replace old new s))
  | _ => Raised (AttributeError v "replace")
  end.

(** [d[key] = v] on a dictionary: a key that is there keeps its place. *)
Fixpoint assign {V : Type} (key : string) (v : V) (d : list (string * V))
  : list (string * V) :=
  match d with
  | [] => [(key, v)]
  | (k, x) :: d' =>
      if String.eqb k key then (k, v) :: d' else (k, x) :: assign key v d'
  end.

(** [d.get(key)] on a dictionary of any values. *)
Fixpoint dict_lookup {V : Type} (key : string) (d : list (string * V)) : option V :=
  match d with
  | [] => None
  | (k, x) :: d' => if String.eqb k key then Some x else dict_lookup key d'
  end.

End Py.

(* ===================================================================== *)
(** * backend/actions/base.py                                             *)
(* ===================================================================== *)

Module Base.
Import Py.

(** [class ActionStatus(Enum)]. *)
Inductive ActionStatus : Type :=
| PENDING | RUNNING | SUCCESS | PARTIAL | FAILED | SKIPPED.

#[global] Instance ActionStatus_eq_dec : EqDecision ActionStatus.
Proof. solve_decision. Defined.

(** [status.value]. *)
Definition status_value (s : ActionStatus) : string :=
  match s with
  | PENDING => "pending"
  | RUNNING => "running"
  | SUCCESS => "success"
  | PARTIAL => "partial"
  | FAILED => "failed"
  | SKIPPED => "skipped"
  end.

(** What the code reads from outside the process: the decoder of the [json]
    module, the monotonic clock, the wall clock and the identifier source.
    [json_loads s] is [inr v] when [s] decodes to [v] and [inl e] when
    [json.loads(s)] raises [e]: a [JSONDecodeError] on a text that is not
    JSON, and on some texts another error ([RecursionError] on deep nesting,
    [ValueError] on a very long integer). The three other fields give the
    value of the n-th read. Clock readings are integers (one unit of
    [time.perf_counter()] scaled to a whole number). *)
Record Host : Type := {
  json_loads : string -> exn + value;
  perf_counter : nat -> Z;
  utcnow_isoformat : nat -> string;
  uuid4_prefix : nat -> string;
}.

Definition JSONDecodeError (msg : string) : exn := Exn "JSONDecodeError" msg.

(** What [except json.JSONDecodeError] catches. *)
Definition is_JSONDecodeError (e : exn) : bool :=
  String.eqb (exn_class e) "JSONDecodeError".

(** [except Exception as e: ... = str(e)]: what the clause stores, nothing
    when the clause does not catch [e]. *)
Definition caught_str (e : exn) : option string :=
  if is_exception e then Some (exn_str e) else None.

(** [@dataclass class ToolCall]. *)
Module ToolCall.
Record t : Type := Build {
  tool_name : string;
  arguments : dict;
  result : value;
  error : option string;
  duration_ms : Z;
  timestamp : string;
}.

Definition opt_str (o : option string) : value :=
  match o with Some s => VStr s | None => VNone end.

(** [ToolCall.to_dict]: a [str] result that starts with an opening brace
    goes through [json.loads], outside of any [try]. *)
Definition to_dict (h : Host) (self : t) : outcome value :=
  let finish (r : value) :=
    Returned (VDict [("tool_name", VStr (tool_name self));
                     ("arguments", VDict (arguments self));
                     ("result", r);
                     ("error", opt_str (error self));
                     ("duration_ms", VInt (duration_ms self));
                     ("timestamp", VStr (timestamp self))]) in
  match result self with
  | VStr s =>
      if String.prefix "{" s then
        match json_loads h s with
        | inr v => finish v
        | inl e => Raised e
        end
      else finish (VStr s)
  | r => finish r
  end.
End ToolCall.

(** [[f(x) for x in xs]] where [f] may raise: the first exception ends the
    comprehension. *)
Fixpoint comprehension {A B : Type} (f : A -> outcome B) (xs : list A)
  : outcome (list B) :=
  match xs with
  | [] => Returned []
  | x :: xs' =>
      match f x with
      | Raised e => Raised e
      | Returned y =>
          match comprehension f xs' with
          | Raised e => Raised e
          | Returned ys => Returned (y :: ys)
          end
      end
  end.

(** [@dataclass class ActionResult]. *)
Module ActionResult.
Record t : Type := Build {
  action_name : string;
  status : ActionStatus;
  output : value;
  error : option string;
  tool_calls : list ToolCall.t;
  duration_ms : Z;
  execution_id : string;
  timestamp : string;
}.

Definition tools_used (self : t) : list string :=
  List.map ToolCall.tool_name (tool_calls self).

Definition to_dict (h : Host) (self : t) : outcome value :=
  match comprehension (ToolCall.to_dict h) (tool_calls self) with
  | Raised e => Raised e
  | Returned tcs =>
      Returned (VDict [("execution_id", VStr (execution_id self));
                       ("action_name", VStr (action_name self));
                       ("status", VStr (status_value (status self)));
                       ("output", output self);
                       ("error", ToolCall.opt_str (error self));
                       ("tool_calls", VList tcs);
                       ("tools_used", VList (List.map VStr (tools_used self)));
                       ("duration_ms", VInt (duration_ms self));
                       ("timestamp", VStr (timestamp self))])
  end.
End ActionResult.

(** [@dataclass class ActionContext]; [variables] is the scratchpad. *)
Module ActionContext.
Record t : Type := Build {
  user_query : string;
  model_name : string;
  provider : string;
  session_id : string;
  variables : gmap string value;
}.

Definition set (key : string) (v : value) (self : t) : t :=
  Build (user_query self) (model_name self) (provider self) (session_id self)
        (<[key := v]> (variables self)).

Definition get (key : string) (default : value) (self : t) : value :=
  from_option id default (variables self !! key).
End ActionContext.

(** A tool of the capability map: called with keyword arguments, it returns
    a value or raises. *)
Inductive tool_outcome : Type :=
| Returns (v : value)
| Raises (e : exn).

Definition tool : Type := dict -> tool_outcome.

(** The one context object of a run; an action holds a reference to it. *)
Inductive context_ref : Type := TheContext.

(** The attributes of an [Action] instance. *)
Record Action : Type := {
  name : string;
  _tools : list (string * tool);
  _tool_calls : list ToolCall.t;
  _start_time : Z;
  _context : option context_ref;
}.

(** The objects a run works on: the action instance, the context object it
    was given, and how many times each outside source has been read. *)
Record Machine : Type := {
  self : Action;
  context : ActionContext.t;
  perf_reads : nat;
  utcnow_reads : nat;
  uuid_reads : nat;
}.

Definition with_self (f : Action -> Action) (m : Machine) : Machine :=
  {| self := f (self m); context := context m; perf_reads := perf_reads m;
     utcnow_reads := utcnow_reads m; uuid_reads := uuid_reads m |}.

Definition with_context (f : ActionContext.t -> ActionContext.t) (m : Machine)
  : Machine :=
  {| self := self m; context := f (context m); perf_reads := perf_reads m;
     utcnow_reads := utcnow_reads m; uuid_reads := uuid_reads m |}.

(** [time.perf_counter()]. *)
Definition read_perf (h : Host) (m : Machine) : Z * Machine :=
  (perf_counter h (perf_reads m),
   {| self := self m; context := context m; perf_reads := S (perf_reads m);
      utcnow_reads := utcnow_reads m; uuid_reads := uuid_reads m |}).

(** [datetime.utcnow().isoformat()]. *)
Definition read_utcnow (h : Host) (m : Machine) : string * Machine :=
  (utcnow_isoformat h (utcnow_reads m),
   {| self := self m; context := context m; perf_reads := perf_reads m;
      utcnow_reads := S (utcnow_reads m); uuid_reads := uuid_reads m |}).

(** [str(uuid.uuid4())[:8]]. *)
Definition read_uuid (h : Host) (m : Machine) : string * Machine :=
  (uuid4_prefix h (uuid_reads m),
   {| self := self m; context := context m; perf_reads := perf_reads m;
      utcnow_reads := utcnow_reads m; uuid_reads := S (uuid_reads m) |}).

Fixpoint find_tool (tool_name : string) (tools : list (string * tool))
  : option tool :=
  match tools with
  | [] => None
  | (k, f) :: tools' => if String.eqb k tool_name then Some f else find_tool tool_name tools'
  end.

Definition set_tool_calls (tcs : list ToolCall.t) (a : Action) : Action :=
  {| name := name a; _tools := _tools a; _tool_calls := tcs;
     _start_time := _start_time a; _context := _context a |}.

(** [self._tool_calls.append(tool_call)]. *)
Definition append_tool_call (tc : ToolCall.t) (m : Machine) : Machine :=
  with_self (fun a => set_tool_calls (_tool_calls a ++ [tc])%list a) m.

Definition UnknownTool (tool_name : string) (tools : list (string * tool)) : exn :=
  Exn "ValueError"
      ("Unknown tool: " ++ tool_name ++ ". Available: "
         ++ repr (VList (List.map (fun kf => VStr (fst kf)) tools))).

(** [Action.call_tool]. The membership test comes first; the [finally]
    clause runs on every exit of the [try]. The inner [try] catches the
    [JSONDecodeError] of the decoder and nothing else: another error of
    [json.loads] reaches the outer [except Exception], which stores its text
    in the record, the result being stored already, and raises it again. An
    exception of the tool that is not an [Exception] passes the outer clause
    and leaves the error of the record empty. *)
Definition call_tool (h : Host) (tool_name : string) (kwargs : dict) (m : Machine)
  : outcome value * Machine :=
  match find_tool tool_name (_tools (self m)) with
  | None => (Raised (UnknownTool tool_name (_tools (self m))), m)
  | Some f =>
      let '(start, m) := read_perf h m in
      let '(ts, m) := read_utcnow h m in
      let finally (res : value) (err : option string) (m : Machine) : Machine :=
        let '(stop, m) := read_perf h m in
        append_tool_call
          (ToolCall.Build tool_name kwargs res err ((stop - start) * 1000) ts) m in
      match f kwargs with
      | Returns result =>
          match result with
          | VStr s =>
              match json_loads h s with
              | inr v => (Returned v, finally result None m)
              | inl e =>
                  if is_JSONDecodeError e then (Returned result, finally result None m)
                  else (Raised e, finally result (caught_str e) m)
              end
          | _ => (Returned result, finally result None m)
          end
      | Raises e => (Raised e, finally VNone (caught_str e) m)
      end
  end.

(** [Action.complete]. *)
Definition complete (h : Host) (output : value) (status : ActionStatus) (m : Machine)
  : ActionResult.t * Machine :=
  let '(now, m) := read_perf h m in
  let duration := ((now - _start_time (self m)) * 1000)%Z in
  let '(id, m) := read_uuid h m in
  let '(ts, m) := read_utcnow h m in
  (ActionResult.Build (name (self m)) status output None (_tool_calls (self m))
                      duration id ts, m).

(** [Action.fail]. *)
Definition fail (h : Host) (error : string) (m : Machine) : ActionResult.t * Machine :=
  let '(now, m) := read_perf h m in
  let duration := ((now - _start_time (self m)) * 1000)%Z in
  let '(id, m) := read_uuid h m in
  let '(ts, m) := read_utcnow h m in
  (ActionResult.Build (name (self m)) FAILED VNone (Some error) (_tool_calls (self m))
                      duration id ts, m).

(** The body of an [execute] method: what it may do between its entry and
    its [return], each step handing its result to the rest of the body.
    [Raise] is an exception raised by the method's own statements. [Try] is
    a [try] statement: [body] runs; an exception [e] of it that the
    [except] clauses catch ([catches e]) is handled by [handler e], any
    other goes on; what the statement yields goes to the rest of the body. *)
Inductive prog (A : Type) : Type :=
| Ret (a : A)
| Raise (e : exn)
| CallTool (tool_name : string) (kwargs : dict) (k : value -> prog A)
| ContextGet (key : string) (default : value) (k : value -> prog A)
| ContextSet (key : string) (v : value) (k : prog A)
| Complete (output : value) (status : ActionStatus) (k : ActionResult.t -> prog A)
| Fail (error : string) (k : ActionResult.t -> prog A)
| Try (B : Type) (body : prog B) (catches : exn -> bool) (handler : exn -> prog B)
      (k : B -> prog A).
Arguments Ret {A} a.
Arguments Raise {A} e.
Arguments CallTool {A} tool_name kwargs k.
Arguments ContextGet {A} key default k.
Arguments ContextSet {A} key v k.
Arguments Complete {A} output status k.
Arguments Fail {A} error k.
Arguments Try {A B} body catches handler k.

Fixpoint bind {A B : Type} (p : prog A) (f : A -> prog B) : prog B :=
  match p with
  | Ret a => f a
  | Raise e => Raise e
  | CallTool n kw k => CallTool n kw (fun v => bind (k v) f)
  | ContextGet key d k => ContextGet key d (fun v => bind (k v) f)
  | ContextSet key v k => ContextSet key v (bind k f)
  | Complete o s k => Complete o s (fun r => bind (k r) f)
  | Fail e k => Fail e (fun r => bind (k r) f)
  | Try body catches handler k => Try body catches handler (fun b => bind (k b) f)
  end.

#[global] Instance prog_ret : MRet prog := fun _ a => Ret a.
#[global] Instance prog_bind : MBind prog := fun _ _ f p => bind p f.

(** The statements of a method body. *)
Definition self_call_tool (tool_name : string) (kwargs : dict) : prog value :=
  CallTool tool_name kwargs Ret.
Definition context_get (key : string) (default : value) : prog value :=
  ContextGet key default Ret.
Definition context_set (key : string) (v : value) : prog unit :=
  ContextSet key v (Ret tt).
Definition self_complete (output : value) (status : ActionStatus) : prog ActionResult.t :=
  Complete output status Ret.
Definition self_fail (error : string) : prog ActionResult.t :=
  Fail error Ret.
Definition try_except {B : Type} (body : prog B) (catches : exn -> bool)
           (handler : exn -> prog B) : prog B :=
  Try body catches handler Ret.

(** An expression that may raise. *)
Definition eval {A : Type} (o : outcome A) : prog A :=
  match o with
  | Returned a => Ret a
  | Raised e => Raise e
  end.

(** Running a method body on the machine. *)
Fixpoint exec (h : Host) {A : Type} (p : prog A) (m : Machine) : outcome A * Machine :=
  match p with
  | Ret a => (Returned a, m)
  | Raise e => (Raised e, m)
  | CallTool n kw k =>
      match call_tool h n kw m with
      | (Returned v, m') => exec h (k v) m'
      | (Raised e, m') => (Raised e, m')
      end
  | ContextGet key d k => exec h (k (ActionContext.get key d (context m))) m
  | ContextSet key v k => exec h k (with_context (ActionContext.set key v) m)
  | Complete o s k => let '(r, m') := complete h o s m in exec h (k r) m'
  | Fail e k => let '(r, m') := fail h e m in exec h (k r) m'
  | Try body catches handler k =>
      match exec h body m with
      | (Returned b, m') => exec h (k b) m'
      | (Raised e, m') =>
          if catches e then
            match exec h (handler e) m' with
            | (Returned b, m'') => exec h (k b) m''
            | (Raised e', m'') => (Raised e', m'')
            end
          else (Raised e, m')
      end
  end.

(** The three assignments that open [Action.run]. *)
Definition enter (h : Host) (m : Machine) : Machine :=
  let m := with_self (set_tool_calls []) m in
  let '(start, m) := read_perf h m in
  with_self (fun a => {| name := name a; _tools := _tools a;
                         _tool_calls := _tool_calls a;
                         _start_time := start;
                         _context := Some TheContext |}) m.

(** What [execute] hands back: a result, or, its signature not being
    enforced, any other object (the [None] of a forgotten [return]). *)
Class Handed (A : Type) : Type := handed : A -> ActionResult.t + value.
#[global] Instance handed_result : Handed ActionResult.t := inl.
#[global] Instance handed_value : Handed value := inr.

(** [Action.run], [execute] being the body of the subclass's method. Inside
    the [try], the log line reads [result.status.value]: on an object that
    is not a result this raises [AttributeError], which the clause catches
    like an exception of [execute]. The clause is [except Exception as e:
    return self.fail(str(e))]: an exception that is not an [Exception]
    leaves [run]. *)
Definition run (h : Host) {A : Type} `{Handed A} (execute : prog A) (m : Machine)
  : outcome ActionResult.t * Machine :=
  match exec h execute (enter h m) with
  | (Returned a, m') =>
      match handed a with
      | inl result => (Returned result, m')
      | inr v =>
          let '(r, m'') := fail h (exn_str (AttributeError v "status")) m' in
          (Returned r, m'')
      end
  | (Raised e, m') =>
      if is_exception e
      then let '(r, m'') := fail h (exn_str e) m' in (Returned r, m'')
      else (Raised e, m')
  end.

(** [Action.__init__], and a machine about to run the fresh instance. *)
Definition new_action (name : string) (tool_registry : list (string * tool)) : Action :=
  {| name := name; _tools := tool_registry; _tool_calls := [];
     _start_time := 0; _context := None |}.

Definition boot (a : Action) (c : ActionContext.t) : Machine :=
  {| self := a; context := c; perf_reads := 0; utcnow_reads := 0; uuid_reads := 0 |}.

(** An [Action] subclass: its class attributes and the body of [execute]. *)
Record ActionClass : Type := {
  cls_name : string;
  cls_description : string;
  cls_tags : list string;
  cls_execute : prog ActionResult.t;
}.

(** [class ActionRegistry]. *)
Module ActionRegistry.
Record t : Type := Build {
  _actions : list (string * ActionClass);
  _tools : list (string * tool);
}.

(** [ActionRegistry.__init__]. *)
Definition init : t := Build [] [].

Definition register (action_class : ActionClass) (self : t) : t :=
  Build (assign (cls_name action_class) action_class (_actions self)) (_tools self).

Definition set_tools (tools : list (string * tool)) (self : t) : t :=
  Build (_actions self) tools.

Definition get (name : string) (self : t) : option ActionClass :=
  dict_lookup name (_actions self).

(** One dictionary per registered class, in the order of [_actions]. *)
Definition list_actions (self : t) : list value :=
  List.map (fun kv =>
              let ac := snd kv in
              VDict [("name", VStr (cls_name ac));
                     ("description", VStr (cls_description ac));
                     ("tags", VList (List.map VStr (cls_tags ac)))])
           (_actions self).

Definition find_by_tag (tag : string) (self : t) : list ActionClass :=
  List.filter (fun ac => bool_decide (tag ∈ cls_tags ac))
              (List.map snd (_actions self)).

End ActionRegistry.

End Base.

(* ===================================================================== *)
(** * backend/actions/definitions.py                                      *)
(* ===================================================================== *)

Module Definitions.
Import Py Base.

(** ** [class MeetingPrepAction(Action)] *)
Module MeetingPrepAction.
Definition name : string := "meeting_prep".

(** The first part of [execute] either finds the meeting or returns early
    through [self.fail]: [inl] is the early [return]. *)
Definition find_meeting (meeting_id : value) : prog (ActionResult.t + value) :=
  if negb (truthy meeting_id) then
    today ← self_call_tool "get_todays_meetings" [];
    today_meetings ← eval (get today "meetings" VNone);
    if truthy today_meetings then
      ms ← eval (getitem today "meetings");
      meeting ← eval (first ms);
      mret (inr meeting)
    else
      calendar ← self_call_tool "get_calendar" [("days", VInt 7)];
      calendar_meetings ← eval (get calendar "meetings" VNone);
      if truthy calendar_meetings then
        ms ← eval (getitem calendar "meetings");
        meeting ← eval (first ms);
        mret (inr meeting)
      else
        r ← self_fail "No upcoming meetings found";
        mret (inl r)
  else
    meetings ← self_call_tool "search_meetings"
                 [("query", meeting_id); ("limit", VInt 1)];
    results ← eval (get meetings "results" VNone);
    if negb (truthy results) then
      r ← self_fail ("Meeting not found: " ++ str meeting_id);
      mret (inl r)
    else
      rs ← eval (getitem meetings "results");
      meeting ← eval (first rs);
      mret (inr meeting).

Definition execute : prog ActionResult.t :=
  meeting_id ← context_get "meeting_id" VNone;
  found ← find_meeting meeting_id;
  match found with
  | inl r => mret r
  | inr meeting =>
      _ ← context_set "meeting" meeting;
      subject ← eval (get meeting "subject" (VStr ""));
      related_emails ← self_call_tool "search_emails"
                         [("query", subject); ("limit", VInt 5)];
      organizer_name ← eval (get meeting "organizer" (VStr ""));
      organizer ← (if truthy organizer_name
                   then self_call_tool "find_colleague" [("name", organizer_name)]
                   else mret VNone);
      related ← eval (get related_emails "results" (VList []));
      self_complete
        (VDict [("meeting", meeting);
                ("related_emails", related);
                ("organizer_info", organizer);
                ("prep_notes", VStr ("Meeting: " ++ str subject))])
        SUCCESS
  end.
End MeetingPrepAction.

(** ** [class DailySummaryAction(Action)] *)
Module DailySummaryAction.
Definition name : string := "daily_summary".
Definition description : string := "Generate a daily summary of emails and meetings".
Definition tags : list string := ["email"; "calendar"; "summary"].

(** [[e for e in emails if e.get("importance") == "High"]]. *)
Fixpoint high_priority (emails : list value) : outcome (list value) :=
  match emails with
  | [] => Returned []
  | e :: emails' =>
      match get e "importance" VNone with
      | Raised x => Raised x
      | Returned importance =>
          match high_priority emails' with
          | Raised x => Raised x
          | Returned rest =>
              Returned (if eq_str importance "High" then e :: rest else rest)
          end
      end
  end.

Definition execute : prog ActionResult.t :=
  me ← self_call_tool "whoami" [];
  _ ← context_set "user" me;
  meetings ← self_call_tool "get_todays_meetings" [];
  _ ← context_set "meetings" meetings;
  inbox ← self_call_tool "get_inbox" [("limit", VInt 20); ("unread_only", VBool true)];
  _ ← context_set "inbox" inbox;
  user ← eval (get me "name" VNone);
  date ← eval (get meetings "date" (VStr "today"));
  meetings_today ← eval (get meetings "count" (VInt 0));
  unread_emails ← eval (get inbox "unread_total" (VInt 0));
  emails ← eval (get inbox "emails" (VList []));
  items ← eval (iter emails);
  high ← eval (high_priority items);
  todays ← eval (get meetings "meetings" VNone);
  next_meeting ← (if truthy todays
                  then ms ← eval (get meetings "meetings" (VList [VDict []]));
                       eval (first ms)
                  else mret VNone);
  self_complete
    (VDict [("user", user);
            ("date", date);
            ("meetings_today", meetings_today);
            ("unread_emails", unread_emails);
            ("high_priority_emails", VList high);
            ("next_meeting", next_meeting)])
    SUCCESS.
End DailySummaryAction.

(** ** [class EmailThreadAction(Action)] *)
Module EmailThreadAction.
Definition name : string := "get_email_thread".
Definition description : string := "Get full email thread for a given email".
Definition tags : list string := ["email"; "search"].

Definition prefixes : list string := ["Re: "; "RE: "; "Fwd: "; "FWD: "; "Fw: "].

(** The loop [for prefix in [...]: clean_subject = clean_subject.replace(prefix, "")]. *)
Fixpoint strip_prefixes (prefixes : list string) (clean_subject : value)
  : outcome value :=
  match prefixes with
  | [] => Returned clean_subject
  | prefix :: prefixes' =>
      match method_replace clean_subject prefix "" with
      | Raised x => Raised x
      | Returned cleaned => strip_prefixes prefixes' cleaned
      end
  end.

Definition execute : prog ActionResult.t :=
  email_id ← context_get "email_id" VNone;
  if negb (truthy email_id) then self_fail "email_id required in context"
  else
    email ← self_call_tool "read_email" [("email_id", email_id)];
    error ← eval (get email "error" VNone);
    if truthy error then self_fail ("Email not found: " ++ str email_id)
    else
      _ ← context_set "original_email" email;
      subject ← eval (get email "subject" (VStr ""));
      clean_subject ← eval (strip_prefixes prefixes subject);
      related ← self_call_tool "search_emails"
                  [("query", clean_subject); ("limit", VInt 10)];
      thread_count ← eval (get related "count" (VInt 1));
      messages ← eval (get related "results" (VList []));
      self_complete
        (VDict [("original", email);
                ("subject", subject);
                ("thread_count", thread_count);
                ("messages", messages)])
        SUCCESS.
End EmailThreadAction.

(** ** [class ColleagueLookupAction(Action)] *)
Module ColleagueLookupAction.
Definition name : string := "colleague_lookup".
Definition description : string := "Look up a colleague with recent interactions".
Definition tags : list string := ["lookup"; "email"; "calendar"].

Definition execute : prog ActionResult.t :=
  name ← context_get "colleague_name" VNone;
  if negb (truthy name) then self_fail "colleague_name required in context"
  else
    colleague ← self_call_tool "find_colleague" [("name", name)];
    error ← eval (get colleague "error" VNone);
    missing ← (if truthy error then mret true
               else found ← eval (get colleague "name" VNone);
                    mret (negb (truthy found)));
    if missing : bool then self_fail ("Colleague not found: " ++ str name)
    else
      _ ← context_set "colleague" colleague;
      emails ← self_call_tool "search_emails" [("query", name); ("limit", VInt 10)];
      meetings ← self_call_tool "search_meetings" [("query", name); ("limit", VInt 5)];
      recent_emails ← eval (get emails "results" (VList []));
      shared_meetings ← eval (get meetings "results" (VList []));
      self_complete
        (VDict [("colleague", colleague);
                ("recent_emails", recent_emails);
                ("shared_meetings", shared_meetings)])
        SUCCESS.
End ColleagueLookupAction.

(** ** [class InboxTriageAction(Action)] *)
Module InboxTriageAction.
Definition name : string := "inbox_triage".
Definition description : string := "Triage unread inbox by priority".
Definition tags : list string := ["email"; "summary"].

(** The loop over the emails, [high_priority] and [other] being its state. *)
Fixpoint categorize (emails : list value) (high_priority other : list value)
  : outcome (list value * list value) :=
  match emails with
  | [] => Returned (high_priority, other)
  | email :: emails' =>
      match get email "importance" VNone with
      | Raised x => Raised x
      | Returned importance =>
          if eq_str importance "High"
          then categorize emails' (high_priority ++ [email])%list other
          else categorize emails' high_priority (other ++ [email])%list
      end
  end.

Definition execute : prog ActionResult.t :=
  me ← self_call_tool "whoami" [];
  my_dept ← eval (get me "department" (VStr ""));
  inbox ← self_call_tool "get_inbox" [("limit", VInt 50); ("unread_only", VBool true)];
  emails ← eval (get inbox "emails" (VList []));
  items ← eval (iter emails);
  '(high_priority, other) ← eval (categorize items [] []);
  total_unread ← eval (get inbox "unread_total" (VInt 0));
  self_complete
    (VDict [("total_unread", total_unread);
            ("high_priority", VList high_priority);
            ("high_priority_count", VInt (Z.of_nat (length high_priority)));
            ("other", VList other);
            ("recommendation",
             VStr (if truthy (VList high_priority)
                   then "You have " ++ repr_int (Z.of_nat (length high_priority))
                        ++ " high-priority emails to address first."
                   else "No urgent emails at this time."))])
    SUCCESS.
End InboxTriageAction.

(** The classes as the registry sees them. *)
Definition DailySummary : ActionClass :=
  {| cls_name := DailySummaryAction.name;
     cls_description := DailySummaryAction.description;
     cls_tags := DailySummaryAction.tags;
     cls_execute := DailySummaryAction.execute |}.

Definition EmailThread : ActionClass :=
  {| cls_name := EmailThreadAction.name;
     cls_description := EmailThreadAction.description;
     cls_tags := EmailThreadAction.tags;
     cls_execute := EmailThreadAction.execute |}.

Definition MeetingPrep : ActionClass :=
  {| cls_name := MeetingPrepAction.name;
     cls_description := "Prepare background info for a meeting";
     cls_tags := ["calendar"; "email"; "lookup"];
     cls_execute := MeetingPrepAction.execute |}.

Definition ColleagueLookup : ActionClass :=
  {| cls_name := ColleagueLookupAction.name;
     cls_description := ColleagueLookupAction.description;
     cls_tags := ColleagueLookupAction.tags;
     cls_execute := ColleagueLookupAction.execute |}.

Definition InboxTriage : ActionClass :=
  {| cls_name := InboxTriageAction.name;
     cls_description := InboxTriageAction.description;
     cls_tags := InboxTriageAction.tags;
     cls_execute := InboxTriageAction.execute |}.

(** ** The records [DailyBriefingAction] reads

    The helpers of the briefing receive meetings and emails as dictionaries
    and read them through [d.get(key, default)]. They are modelled twice.
    [DailyBriefingAction.Dicts] has them on the dictionaries themselves,
    whatever these hold, with the exceptions the code raises on an entry of
    another type than the one it expects (a null subject, an attendee
    without name). The records below are what the helpers read of a
    dictionary that they can read: one field per key, [None] standing for
    an absent key, every text a [str]; on these the helpers cannot raise. *)

(** An attendee that can be read: a dictionary with a [str] under ["name"],
    or anything but a dictionary, which the code turns into text with
    [str(a)]. *)
Inductive Attendee : Type :=
| AttendeeDict (name : string) (email : option string)
| AttendeeStr (text : string).

(** The ["from"] entry of an email: a dictionary, of which the code reads
    the name (a [str], [None] standing also for a value that counts as
    false) and the address (any value, which it copies), or anything else,
    turned into text with [str(sender)]. *)
Inductive Sender : Type :=
| SenderDict (name : option string) (email : option value)
| SenderStr (text : string).

(** A meeting whose title, body and times are texts. For a time, [None]
    stands also for a null and for an empty text, which the test on times
    does not tell from an absent key. *)
Module Meeting.
Record t : Type := Build {
  subject : option string;
  body : option string;
  start : option string;
  end_ : option string;
  attendees : list Attendee;
}.
End Meeting.

(** An email whose subject and body texts are texts. *)
Module Email.
Record t : Type := Build {
  subject : option string;
  bodyPreview : option string;
  body : option string;
  from : option Sender;
}.
End Email.

(** An entry of [contributor_scores], and of the returned list once its
    topics are a list. *)
Module Contributor.
Record entry : Type := Entry {
  e_name : string;
  e_email : value;
  e_score : nat;
  e_topics : gset string;
}.
Record t : Type := Build {
  name : string;
  email : value;
  score : nat;
  topics : list string;
}.
End Contributor.

Module Conflict.
Record t : Type := Build {
  meeting1 : string;
  meeting2 : string;
  time1 : string;
  time2 : string;
  alternatives1 : list Contributor.t;
  alternatives2 : list Contributor.t;
}.
End Conflict.

(** An entry under [key] when there is a value. *)
Definition opt_entry (key : string) (v : option value) : dict :=
  match v with Some x => [(key, x)] | None => [] end.


Definition sender_dict (s : Sender) : value :=
  match s with
  | SenderDict name email => VDict (opt_entry "name" (VStr <$> name) ++ opt_entry "email" email)
  | SenderStr text => VStr text
  end.

Definition email_dict (e : Email.t) : value :=
  VDict (opt_entry "subject" (VStr <$> Email.subject e)
         ++ opt_entry "bodyPreview" (VStr <$> Email.bodyPreview e)
         ++ opt_entry "body" (VStr <$> Email.body e)
         ++ opt_entry "from" (sender_dict <$> Email.from e)).


(** The order in which [list(s)] enumerates a [set] of [str]: it depends on
    the hash seed of the process, so all that is known is that every element
    comes once. *)
Record SetOrder : Type := {
  set_list : gset string -> list string;
  set_list_perm : forall X : gset string, set_list X ≡ₚ elements X;
}.

(** ** [re.findall(r'\b[a-z]{3,}\b', text)] *)

Definition is_word_opt (c : option ascii) : bool :=
  match c with Some c => is_word c | None => false end.

(** [\b] between [prev] and [next], [None] being an end of the text. *)
Definition boundary (prev next : option ascii) : bool :=
  xorb (is_word_opt prev) (is_word_opt next).

(** The longest prefix of characters of a class, and what follows it. *)
Fixpoint span (P : ascii -> bool) (s : list ascii) : list ascii * list ascii :=
  match s with
  | c :: s' =>
      if P c then let '(run, rest) := span P s' in (c :: run, rest)
      else ([], s)
  | [] => ([], [])
  end.

(** Greedy [[a-z]*]. *)
Definition span_az (s : list ascii) : list ascii * list ascii := span is_az s.

(** The engine gives back one character at a time, down to three, until
    the closing [\b] holds. *)
Fixpoint backtrack (n : nat) (run rest : list ascii)
  : option (list ascii * list ascii) :=
  if (n <? 3)%nat then None
  else if boundary (last (take n run)) (head (drop n run ++ rest)%list)
       then Some (take n run, (drop n run ++ rest)%list)
       else match n with
            | O => None
            | S n' => backtrack n' run rest
            end.

(** A match starting right here, [prev] being the character before. *)
Definition match_here (prev : option ascii) (s : list ascii)
  : option (list ascii * list ascii) :=
  if boundary prev (head s) then
    let '(run, rest) := span_az s in backtrack (length run) run rest
  else None.

(** The scan of [findall]: after a match it resumes where the match ended,
    otherwise one character further. *)
Fixpoint scan (fuel : nat) (prev : option ascii) (s : list ascii) : list string :=
  match fuel with
  | O => []
  | S fuel' =>
      match match_here prev s with
      | Some (w, rest) => string_of_list_ascii w :: scan fuel' (last w) rest
      | None =>
          match s with
          | [] => []
          | c :: s' => scan fuel' (Some c) s'
          end
      end
  end.

Definition findall_words (text : string) : list string :=
  let s := list_ascii_of_string text in
  scan (S (length s)) None s.

(** ** [class DailyBriefingAction(Action)] *)
Module DailyBriefingAction.
Definition name : string := "daily_briefing".

Definition stopwords : gset string :=
  list_to_set
    ["the"; "a"; "an"; "and"; "or"; "but"; "in"; "on"; "at"; "to"; "for";
     "of"; "with"; "by"; "from"; "as"; "is"; "was"; "are"; "were"; "been";
     "be"; "have"; "has"; "had"; "do"; "does"; "did"; "will"; "would";
     "could"; "should"; "may"; "might"; "must"; "shall"; "can"; "need";
     "meeting"; "call"; "sync"; "discussion"; "review"; "update"; "weekly";
     "monthly"; "daily"; "team"; "group"; "re"; "fwd"; "fw"].

(** The filter-and-dedupe loop, [keywords] and [seen] being its state. *)
Fixpoint dedupe_loop (words : list string) (keywords : list string)
         (seen : gset string) : list string :=
  match words with
  | [] => keywords
  | word :: words' =>
      if bool_decide (word ∉ stopwords) && bool_decide (word ∉ seen)
      then dedupe_loop words' (keywords ++ [word])%list ({[word]} ∪ seen)
      else dedupe_loop words' keywords seen
  end.

Definition _extract_keywords (subject body : string) : list string :=
  let text := lower (subject ++ " " ++ body) in
  let words := findall_words text in
  take 10 (dedupe_loop words [] ∅).

(** [name = a.get("name", a) if isinstance(a, dict) else str(a)]. *)
Definition attendee_name (a : Attendee) : string :=
  match a with
  | AttendeeDict name _ => name
  | AttendeeStr text => text
  end.

Definition exclude_names (exclude : list Attendee) : gset string :=
  foldl (fun names a => {[lower (attendee_name a)]} ∪ names) ∅ exclude.

Definition email_text (email : Email.t) : string :=
  let email_subject := lower (default "" (Email.subject email)) in
  let email_body :=
    lower (default (default "" (Email.body email)) (Email.bodyPreview email)) in
  email_subject ++ " " ++ email_body.

(** [[kw for kw in keywords if kw in email_text]]. *)
Definition matched (keywords : list string) (email : Email.t) : list string :=
  List.filter (fun kw => contains kw (email_text email)) keywords.

Definition sender_name (email : Email.t) : string :=
  match default (SenderDict None None) (Email.from email) with
  | SenderDict name _ => default "" name
  | SenderStr text => text
  end.

Definition sender_email (email : Email.t) : value :=
  match default (SenderDict None None) (Email.from email) with
  | SenderDict _ addr => default (VStr "") addr
  | SenderStr _ => VStr ""
  end.

(** The update of [contributor_scores[key]], the entry being created at
    the end of the dictionary when the key is new. *)
Fixpoint credit (key : string) (addr : value) (n : nat) (kws : list string)
         (scores : list (string * Contributor.entry))
  : list (string * Contributor.entry) :=
  match scores with
  | [] => [(key, Contributor.Entry key addr (0 + n) (∅ ∪ list_to_set kws))]
  | (k, e) :: scores' =>
      if String.eqb k key
      then (k, Contributor.Entry (Contributor.e_name e) (Contributor.e_email e)
                 (Contributor.e_score e + n)
                 (Contributor.e_topics e ∪ list_to_set kws)) :: scores'
      else (k, e) :: credit key addr n kws scores'
  end.

(** One turn of the loop over the emails. *)
Definition score_email (keywords : list string) (excluded : gset string)
           (scores : list (string * Contributor.entry)) (email : Email.t)
  : list (string * Contributor.entry) :=
  let keyword_matches := length (matched keywords email) in
  if (keyword_matches =? 0)%nat then scores
  else
    let name := sender_name email in
    if negb (String.eqb name "") && bool_decide (lower name ∉ excluded)
    then credit name (sender_email email) keyword_matches (matched keywords email) scores
    else scores.

Definition report (so : SetOrder) (e : Contributor.entry) : Contributor.t :=
  Contributor.Build (Contributor.e_name e) (Contributor.e_email e)
                    (Contributor.e_score e)
                    (take 3 (set_list so (Contributor.e_topics e))).

(** The loop over the emails and what follows it, the keywords and the
    excluded names being known. *)
Definition rank_contributors (so : SetOrder) (keywords : list string)
           (excluded : gset string) (emails : list Email.t) : list Contributor.t :=
  let contributor_scores := foldl (score_email keywords excluded) [] emails in
  let alternatives :=
    take 3 (sorted_reverse Contributor.e_score (List.map snd contributor_scores)) in
  List.map (report so) alternatives.

Definition _find_alternative_contributors (so : SetOrder) (meeting : Meeting.t)
           (emails : list Email.t) (exclude : list Attendee)
  : list Contributor.t :=
  let subject := default "" (Meeting.subject meeting) in
  let body := default "" (Meeting.body meeting) in
  let keywords := _extract_keywords subject body in
  let excluded := exclude_names exclude in
  rank_contributors so keywords excluded emails.

(** ** The delegate finder on the dictionaries it receives *)

Module Dicts.

(** [self._extract_keywords(subject, body)] on any two objects: the
    f-string substitutes [str] of each, so a null subject gives the text
    [None]. *)
Definition _extract_keywords (subject body : value) : list string :=
  _extract_keywords (str subject) (str body).

(** [name = a.get("name", a) if isinstance(a, dict) else str(a)], then
    [name.lower()]: a dictionary without ["name"] stands for its own name,
    and has no [lower]. *)
Definition lowered_name (a : value) : outcome string :=
  method_lower (match a with
                | VDict d => from_option id a (lookup_key "name" d)
                | _ => VStr (str a)
                end).

(** The loop over [exclude], under [if exclude:]. *)
Definition exclude_names (exclude : value) : outcome (gset string) :=
  if truthy exclude then
    attendees ← iter exclude;
    for_each (fun names a => name ← lowered_name a; mret ({[name]} ∪ names))
             ∅ attendees
  else mret ∅.

(** One turn of the loop over the emails. The sender is read only when a
    keyword matched; [key = sender_name] is a [str] once [lower] went
    through. *)
Definition score_email (keywords : list string) (excluded : gset string)
           (scores : list (string * Contributor.entry)) (email : value)
  : outcome (list (string * Contributor.entry)) :=
  subject ← get email "subject" (VStr "");
  email_subject ← method_lower subject;
  body ← get email "body" (VStr "");
  preview ← get email "bodyPreview" body;
  email_body ← method_lower preview;
  let email_text := email_subject ++ " " ++ email_body in
  let matches := List.filter (fun kw => contains kw email_text) keywords in
  let keyword_matches := length matches in
  if (keyword_matches =? 0)%nat then mret scores
  else
    sender ← get email "from" (VDict []);
    let sender_name :=
      match sender with
      | VDict d => from_option id (VStr "") (lookup_key "name" d)
      | _ => VStr (str sender)
      end in
    let sender_email :=
      match sender with
      | VDict d => from_option id (VStr "") (lookup_key "email" d)
      | _ => VStr ""
      end in
    if truthy sender_name then
      lowered ← method_lower sender_name;
      if bool_decide (lowered ∉ excluded)
      then mret (credit (str sender_name) sender_email keyword_matches matches scores)
      else mret scores
    else mret scores.

Definition _find_alternative_contributors (so : SetOrder)
           (meeting emails exclude : value) : outcome (list Contributor.t) :=
  subject ← get meeting "subject" (VStr "");
  body ← get meeting "body" (VStr "");
  let keywords := _extract_keywords subject body in
  excluded ← exclude_names exclude;
  corpus ← iter emails;
  contributor_scores ← for_each (score_email keywords excluded) [] corpus;
  let alternatives :=
    take 3 (sorted_reverse Contributor.e_score (List.map snd contributor_scores)) in
  mret (List.map (report so) alternatives).

End Dicts.

(** ** Conflicts *)



End DailyBriefingAction.

End Definitions.

(* ===================================================================== *)
(** * What a run did: the tool events of an execution                     *)
(* ===================================================================== *)

Module Trace.
Import Py Base.

(** What happened at one step of a method body that matters to its trace:
    a call returned, the tool raised, the tool returned and the decoding of
    its result raised, the tool was not in the capability map, or a
    statement of the body itself raised. *)
Inductive event : Type :=
| ToolReturned (tool_name : string)
| ToolRaised (tool_name : string)
| DecodeRaised (tool_name : string)
| ToolUnknown (tool_name : string)
| OwnRaise.

(** The events of running [p] from [m], along the path [exec] takes. *)
Fixpoint events (h : Host) {A : Type} (p : prog A) (m : Machine) : list event :=
  match p with
  | Ret _ => []
  | Raise _ => [OwnRaise]
  | CallTool n kw k =>
      match call_tool h n kw m with
      | (Returned v, m') => ToolReturned n :: events h (k v) m'
      | (Raised _, _) =>
          match find_tool n (_tools (self m)) with
          | Some f =>
              match f kw with
              | Raises _ => [ToolRaised n]
              | Returns _ => [DecodeRaised n]
              end
          | None => [ToolUnknown n]
          end
      end
  | ContextGet key d k => events h (k (ActionContext.get key d (context m))) m
  | ContextSet key v k => events h k (with_context (ActionContext.set key v) m)
  | Complete o s k => let '(r, m') := complete h o s m in events h (k r) m'
  | Fail e k => let '(r, m') := fail h e m in events h (k r) m'
  | Try body catches handler k =>
      (events h body m
       ++ match exec h body m with
          | (Returned b, m') => events h (k b) m'
          | (Raised e, m') =>
              if catches e then
                (events h (handler e) m'
                 ++ match exec h (handler e) m' with
                    | (Returned b, m'') => events h (k b) m''
                    | (Raised _, _) => []
                    end)%list
              else []
          end)%list
  end.

Definition is_returned (ev : event) : bool :=
  match ev with ToolReturned _ => true | _ => false end.

Definition is_raised (ev : event) : bool :=
  match ev with ToolRaised _ => true | _ => false end.

(** A call that was recorded and raised: the tool raised, or the decoding of
    what it returned did. *)
Definition is_failed_call (ev : event) : bool :=
  match ev with ToolRaised _ | DecodeRaised _ => true | _ => false end.

(** The number of successful tool calls. *)
Definition successes (evs : list event) : nat := length (List.filter is_returned evs).

(** Whether some tool call raised. *)
Definition tool_failed (evs : list event) : bool := existsb is_raised evs.

(** The number of recorded calls that raised. *)
Definition failed_calls (evs : list event) : nat :=
  length (List.filter is_failed_call evs).

(** The tools that were really invoked, in order. *)
Fixpoint invoked (evs : list event) : list string :=
  match evs with
  | [] => []
  | ToolReturned n :: evs' => n :: invoked evs'
  | ToolRaised n :: evs' => n :: invoked evs'
  | DecodeRaised n :: evs' => n :: invoked evs'
  | _ :: evs' => invoked evs'
  end.

(** The results an action run can hand out through the framework: built by
    [complete], built by [fail], or built by the [except] clause of [run]
    from the exception [execute] raised. *)
Inductive produced (h : Host) : ActionResult.t -> Prop :=
| by_complete (output : value) (status : ActionStatus) (m : Machine) :
    produced h (fst (complete h output status m))
| by_fail (error : string) (m : Machine) :
    produced h (fst (fail h error m))
| by_except (execute : prog ActionResult.t) (m m1 : Machine) (e : exn) :
    exec h execute (enter h m) = (Raised e, m1) ->
    is_exception e = true ->
    produced h (fst (fail h (exn_str e) m1)).

(** The results that come out of the failure paths alone. *)
Inductive produced_failing (h : Host) : ActionResult.t -> string -> Machine -> Prop :=
| failing_by_fail (error : string) (m : Machine) :
    produced_failing h (fst (fail h error m)) error m
| failing_by_except (execute : prog ActionResult.t) (m m1 : Machine) (e : exn) :
    exec h execute (enter h m) = (Raised e, m1) ->
    is_exception e = true ->
    produced_failing h (fst (fail h (exn_str e) m1)) (exn_str e) m1.

(** A host for the scenarios of this file: a clock that advances by one unit
    per reading, fixed stamps, and the answers of [json.loads] on the texts
    the scenarios hand to it. *)
Definition scenario_host : Host :=
  {| json_loads := fun s =>
       if String.eqb s "{oops"
       then inl (JSONDecodeError
                   "Expecting property name enclosed in double quotes: line 1 column 2 (char 1)")
       else inl (JSONDecodeError "Expecting value: line 1 column 1 (char 0)");
     perf_counter := fun n => Z.of_nat n;
     utcnow_isoformat := fun _ => "2024-01-01T09:00:00";
     uuid4_prefix := fun _ => "0a1b2c3d" |}.

Definition scenario_context : ActionContext.t :=
  ActionContext.Build "prepare my next meeting" "model" "provider" "5e55104d" ∅.

(** A calendar without meetings: both listing tools succeed and report none. *)
Definition empty_calendar_tools : list (string * tool) :=
  [("get_todays_meetings", fun _ => Returns (VDict [("meetings", VList [])]));
   ("get_calendar", fun _ => Returns (VDict [("meetings", VList [])]))].

(** A calendar tool that is out of order. *)
Definition failing_calendar_tools : list (string * tool) :=
  [("get_todays_meetings", fun _ => Raises (Exn "ConnectionError" "mail server unreachable"))].

(** One meeting today; the directory answers with text that opens like a
    JSON object and is not one. *)
Definition garbled_directory_tools : list (string * tool) :=
  [("get_todays_meetings",
    fun _ => Returns (VDict [("meetings",
               VList [VDict [("subject", VStr "Roadmap"); ("organizer", VStr "Ana")]])]));
   ("search_emails", fun _ => Returns (VDict [("results", VList [])]));
   ("find_colleague", fun _ => Returns (VStr "{oops"))].

Definition meeting_prep (tools : list (string * tool)) : Machine :=
  boot (new_action Definitions.MeetingPrepAction.name tools) scenario_context.

(** A mail server that times out: [TimeoutError()] has an empty [str]. *)
Definition timing_out_tools : list (string * tool) :=
  [("get_todays_meetings", fun _ => Raises (Exn "TimeoutError" ""))].

(** A mail server whose call is interrupted from the keyboard:
    [KeyboardInterrupt] is not an [Exception]. *)
Definition interrupted_tools : list (string * tool) :=
  [("get_todays_meetings", fun _ => Raises (BaseExn "KeyboardInterrupt" "" false))].

(** A calendar that answers with an integer of five thousand digits, which
    [json.loads] refuses with [ValueError]; the scenario stands for it with
    the text [huge]. *)
Definition digits_limit : string :=
  "Exceeds the limit (4300 digits) for integer string conversion: "
  ++ "value has 5000 digits; use sys.set_int_max_str_digits() to increase the limit".

Definition huge_answer_host : Host :=
  {| json_loads := fun s =>
       if String.eqb s "huge"
       then inl (Exn "ValueError" digits_limit)
       else inl (JSONDecodeError "Expecting value: line 1 column 1 (char 0)");
     perf_counter := fun n => Z.of_nat n;
     utcnow_isoformat := fun _ => "2024-01-01T09:00:00";
     uuid4_prefix := fun _ => "0a1b2c3d" |}.

Definition huge_answer_tools : list (string * tool) :=
  [("get_todays_meetings", fun _ => Returns (VStr "huge"))].

(** A body without [try] statement, as every [execute] of definitions.py. *)
Fixpoint straight {A : Type} (p : prog A) : Prop :=
  match p with
  | Ret _ => True
  | Raise _ => True
  | CallTool _ _ k => forall v, straight (k v)
  | ContextGet _ _ k => forall v, straight (k v)
  | ContextSet _ _ k => straight k
  | Complete _ _ k => forall r, straight (k r)
  | Fail _ k => forall r, straight (k r)
  | Try _ _ _ _ => False
  end.

(** Whether the last event is a recorded call that raised. *)
Definition ended_by_call (evs : list event) : bool :=
  match last evs with
  | Some ev => is_failed_call ev
  | None => false
  end.

(** An [execute] that shields its first call: what the calendar raises is
    caught and replaced by [None]; then the inbox is read and the body
    raises an error of its own. *)
Definition shielded_execute : prog ActionResult.t :=
  _ ← try_except (self_call_tool "get_todays_meetings" []) is_exception
                 (fun _ => mret VNone);
  _ ← self_call_tool "get_inbox" [];
  Raise (Exn "RuntimeError" "nothing to report").

Definition shielded_tools : list (string * tool) :=
  [("get_todays_meetings", fun _ => Raises (Exn "ConnectionError" "mail server unreachable"));
   ("get_inbox", fun _ => Returns (VDict [("emails", VList [])]))].

(** An [execute] whose last statement is not a [return]: it hands back
    [None]. *)
Definition forgetful_execute : prog value :=
  _ ← self_call_tool "get_todays_meetings" [];
  mret VNone.

(** ** The properties as the specification words them *)

(** Whatever [execute] raises, [run] does not raise: it returns a Failed
    result with the message of the exception and the trace so far. *)
Definition run_never_raises_as_stated (h : Host) : Prop :=
  forall (execute : prog ActionResult.t) (m m1 : Machine) (e : exn),
    exec h execute (enter h m) = (Raised e, m1) ->
    exists (r : ActionResult.t) (m' : Machine),
      run h execute m = (Returned r, m') /\
      ActionResult.status r = FAILED /\
      ActionResult.error r = Some (exn_str e) /\
      ActionResult.tool_calls r = _tool_calls (self m1).

(** Failed implies an error and no output, Success implies no error, and a
    Failed result has a non-empty message. *)
Definition result_invariant_as_stated (h : Host) : Prop :=
  forall r : ActionResult.t,
    produced h r ->
    (ActionResult.status r = FAILED ->
     is_Some (ActionResult.error r) /\ ActionResult.output r = VNone) /\
    (ActionResult.status r = SUCCESS -> ActionResult.error r = None) /\
    (ActionResult.status r = FAILED ->
     exists msg, ActionResult.error r = Some msg /\ msg <> "").

(** When every tool call succeeds, [run] never returns Failed. *)
Definition never_failed_as_stated (h : Host) : Prop :=
  forall (execute : prog ActionResult.t) (m m' : Machine) (r : ActionResult.t),
    tool_failed (events h execute (enter h m)) = false ->
    run h execute m = (Returned r, m') ->
    ActionResult.status r <> FAILED.

(** When [execute] raises after N successful tool calls, the trace of the
    result has N entries. *)
Definition trace_length_as_stated (h : Host) : Prop :=
  forall (execute : prog ActionResult.t) (m m1 m' : Machine) (e : exn)
         (r : ActionResult.t),
    exec h execute (enter h m) = (Raised e, m1) ->
    run h execute m = (Returned r, m') ->
    length (ActionResult.tool_calls r) = successes (events h execute (enter h m)).

End Trace.

(* ===================================================================== *)
(** * The briefing helpers as the specification describes them           *)
(* ===================================================================== *)

Module Stated.
Import Py Definitions Definitions.DailyBriefingAction.

(** ** Keyword extraction *)

Definition flush (cur : list ascii) : list (list ascii) :=
  match cur with [] => [] | _ => [cur] end.

(** The maximal runs of characters of a class, [cur] being the run that is
    being read. *)
Fixpoint runs (P : ascii -> bool) (cur : list ascii) (s : list ascii)
  : list (list ascii) :=
  match s with
  | [] => flush cur
  | c :: s' =>
      if P c then runs P (cur ++ [c])%list s'
      else (flush cur ++ runs P [] s')%list
  end.

(** "Runs of 3 or more alphabetic characters" of a lowercased text. *)
Definition alphabetic_runs (text : string) : list string :=
  string_of_list_ascii
    <$> List.filter (fun w => (3 <=? length w)%nat)
          (runs is_az [] (list_ascii_of_string text)).

(** A whole word made of three or more letters a-z. *)
Definition plain_word (w : list ascii) : bool :=
  (3 <=? length w)%nat && forallb is_az w.

(** The words of a text, a word being a maximal run of word characters
    (letters, digits, underscore), that are plain. *)
Definition whole_words (text : string) : list string :=
  string_of_list_ascii
    <$> List.filter plain_word (runs is_word [] (list_ascii_of_string text)).

(** Deduplication that keeps first occurrences, in order. *)
Fixpoint first_occurrences (l : list string) : list string :=
  match l with
  | [] => []
  | x :: l' => x :: List.filter (fun y => negb (String.eqb y x)) (first_occurrences l')
  end.

Definition not_stopword (w : string) : bool := bool_decide (w ∉ stopwords).

(** The algorithm of the specification, word for word. *)
Definition extract_as_stated (subject body : string) : list string :=
  take 10 (first_occurrences
             (List.filter not_stopword (alphabetic_runs (lower (subject ++ " " ++ body))))).

(** The same with whole words in place of runs of letters. *)
Definition extract_whole_words (subject body : string) : list string :=
  take 10 (first_occurrences
             (List.filter not_stopword (whole_words (lower (subject ++ " " ++ body))))).

(** What follows a maximal run does not start with a character of the
    class. *)
Definition stops (P : ascii -> bool) (rest : list ascii) : Prop :=
  from_option P false (head rest) = false.

(** The plain words among the words of a text. *)
Definition keep (ws : list (list ascii)) : list string :=
  string_of_list_ascii <$> List.filter plain_word ws.

(** Not yet among the keywords. *)
Definition unseen (kws : list string) (w : string) : bool := bool_decide (w ∉ kws).

(** The extractor computes what the specification's algorithm computes. *)
Definition keywords_as_stated : Prop :=
  forall subject body : string,
    _extract_keywords subject body = extract_as_stated subject body.

(** The scenario of the specification. *)
Definition spark_keywords : list string :=
  _extract_keywords "Re: Q3 Spark Pipeline Sync"
                    "Discuss Spark optimization for the pipeline".

Definition spark_scenario_as_stated : Prop :=
  ("re" ∉ spark_keywords) /\ ("sync" ∉ spark_keywords) /\
  ("discuss" ∉ spark_keywords) /\
  (["spark"; "pipeline"; "optimization"] `sublist_of` spark_keywords).

(** ** Conflicts *)








(** ** Delegates *)

(** An email counts for its sender: it matches a keyword, it has a sender
    name, and that name is not excluded. *)
Definition qualifies (keywords : list string) (excluded : gset string)
           (email : Email.t) : bool :=
  negb (length (matched keywords email) =? 0)%nat
  && negb (String.eqb (sender_name email) "")
  && bool_decide (lower (sender_name email) ∉ excluded).

Definition sent_by (name : string) (email : Email.t) : bool :=
  String.eqb (sender_name email) name.

(** The senders of the emails that count, in first-seen order. *)
Definition senders (keywords : list string) (excluded : gset string)
           (emails : list Email.t) : list string :=
  first_occurrences (sender_name <$> List.filter (qualifies keywords excluded) emails).

(** The sum of the match counts of the emails of a sender that count. *)
Definition score_of (keywords : list string) (excluded : gset string)
           (emails : list Email.t) (name : string) : nat :=
  sum_list_with (fun e => length (matched keywords e))
                (List.filter (sent_by name)
                   (List.filter (qualifies keywords excluded) emails)).

(** The keywords matched by the emails of a sender that count. *)
Definition topics_of (keywords : list string) (excluded : gset string)
           (emails : list Email.t) (name : string) : gset string :=
  list_to_set (List.filter (sent_by name)
                 (List.filter (qualifies keywords excluded) emails)
               ≫= matched keywords).

(** The address of the first email of a sender that counts. *)
Definition address_of (keywords : list string) (excluded : gset string)
           (emails : list Email.t) (name : string) : value :=
  default (VStr "") (sender_email
                <$> head (List.filter (sent_by name)
                            (List.filter (qualifies keywords excluded) emails))).

(** The emails of one sender that count. *)
Definition by_sender (keywords : list string) (excluded : gset string)
           (emails : list Email.t) (name : string) : list Email.t :=
  List.filter (sent_by name) (List.filter (qualifies keywords excluded) emails).

(** The entry the table holds for a sender, and the table: one entry per
    sender, in first-seen order. *)
Definition entry_of (keywords : list string) (excluded : gset string)
           (emails : list Email.t) (name : string) : Contributor.entry :=
  Contributor.Entry name (address_of keywords excluded emails name)
                    (score_of keywords excluded emails name)
                    (topics_of keywords excluded emails name).

Definition table_of (keywords : list string) (excluded : gset string)
           (emails : list Email.t) : list (string * Contributor.entry) :=
  (fun name => (name, entry_of keywords excluded emails name))
    <$> senders keywords excluded emails.


(** A meeting, its attendees, and the recent emails of the examples. *)
Definition mail (subject sender : string) : Email.t :=
  Email.Build (Some subject) None None
              (Some (SenderDict (Some sender) (Some (VStr (sender ++ "@corp.example"))))).


Definition recent_emails : list Email.t :=
  [mail "Lunch on Friday" "Dan";
   mail "Spark cluster sizing" "Cy";
   mail "Pipeline failures" "ana";
   mail "Nightly spark pipeline" "Eve";
   mail "Pipeline optimization notes" "Bob";
   mail "spark" "Fay";
   mail "Spark and pipeline" "Gil";
   mail "nightly run" "Cy"].

(** What the loop reads of a sender: the name when it is a [str] (a name
    that counts as false is as good as none), the address as it is. A name
    of another type that counts as true has no [lower]. *)
Definition read_sender (sender : value) : outcome Sender :=
  match sender with
  | VDict d =>
      match lookup_key "name" d with
      | None => Returned (SenderDict None (lookup_key "email" d))
      | Some (VStr s) => Returned (SenderDict (Some s) (lookup_key "email" d))
      | Some v =>
          if truthy v then Raised (AttributeError v "lower")
          else Returned (SenderDict None (lookup_key "email" d))
      end
  | _ => Returned (SenderStr (str sender))
  end.

(** A text, as the receiver of [lower]. *)
Definition text_of (v : value) : outcome string :=
  match v with
  | VStr s => Returned s
  | _ => Raised (AttributeError v "lower")
  end.

(** What one turn of the loop reads of an email: its subject, the text of
    its body (the preview if there is one), and, when a keyword matches,
    its sender. *)
Definition read_email (keywords : list string) (email : value) : outcome Email.t :=
  subject ← get email "subject" (VStr "");
  subject_text ← text_of subject;
  body ← get email "body" (VStr "");
  preview ← get email "bodyPreview" body;
  body_text ← text_of preview;
  let texts := Email.Build (Some subject_text) (Some body_text) None None in
  if (length (matched keywords texts) =? 0)%nat then mret texts
  else
    sender ← get email "from" (VDict []);
    from ← read_sender sender;
    mret (Email.Build (Some subject_text) (Some body_text) None (Some from)).

(** The emails of a corpus as the loop reads them, in order, up to the
    first one it cannot read. *)
Definition read_emails (keywords : list string) (emails : value)
  : outcome (list Email.t) :=
  corpus ← iter emails;
  Base.comprehension (read_email keywords) corpus.

(** The keywords of a meeting given as a dictionary. *)
Definition keywords_of (meeting : dict) : list string :=
  Dicts._extract_keywords (from_option id (VStr "") (lookup_key "subject" meeting))
                          (from_option id (VStr "") (lookup_key "body" meeting)).


(** An order of set enumeration, for the examples. *)
Definition sorted_set_order : SetOrder :=
  {| set_list := elements; set_list_perm := fun X => reflexivity (elements X) |}.

End Stated.

(* ===================================================================== *)
(** * Further notions and examples                                    *)
(* ===================================================================== *)

Module Further.
Import Py Base Trace Definitions Definitions.DailyBriefingAction Stated.
Open Scope list_scope.

(** ** The tool invoker and the trace *)

(** What [call_tool] hands back for a result of the tool: the decoded
    document when the result is a [str] that [json.loads] accepts, the
    result itself otherwise. *)
Definition decoded (h : Host) (result : value) : value :=
  match result with
  | VStr s => match json_loads h s with inr v => v | inl _ => result end
  | _ => result
  end.

(** The error of [json.loads] on a result of the tool that [call_tool] does
    not catch, when there is one: any but [JSONDecodeError]. *)
Definition decode_error (h : Host) (result : value) : option exn :=
  match result with
  | VStr s =>
      match json_loads h s with
      | inl e => if is_JSONDecodeError e then None else Some e
      | inr _ => None
      end
  | _ => None
  end.

(** A clock that does not run backwards. *)
Definition monotone (h : Host) : Prop :=
  forall i j : nat, i <= j -> (perf_counter h i <= perf_counter h j)%Z.

(** The records of the trace have a duration that is not negative. *)
Definition durations_ok (tcs : list ToolCall.t) : Prop :=
  Forall (fun tc => (0 <= ToolCall.duration_ms tc)%Z) tcs.

(** What running a piece of a body leaves alone, and what it adds: the
    records [new] at the end of the trace. *)
Definition extends (h : Host) (m m' : Machine) (new : list ToolCall.t) : Prop :=
  _tool_calls (self m') = _tool_calls (self m) ++ new /\
  _tools (self m') = _tools (self m) /\
  Base.name (self m') = Base.name (self m) /\
  _start_time (self m') = _start_time (self m) /\
  _context (self m') = _context (self m) /\
  perf_reads m <= perf_reads m' /\
  (monotone h -> durations_ok new).

(** A tool table for the examples: the directory answers with text that
    opens like a JSON object and is not one, the mail search is out of
    order. *)
Definition mixed_tools : list (string * tool) :=
  [("find_colleague", fun _ => Returns (VStr "{oops"));
   ("search_emails", fun _ => Raises (Exn "ConnectionError" "mail server unreachable"))].

(** Whether [to_dict] sends the result of a record through [json.loads]. *)
Definition brace_text (result : value) : bool :=
  match result with
  | VStr s => String.prefix "{" s
  | _ => false
  end.

(** ** The registry *)

(** The registry after the classes of [acs] were registered in this order. *)
Definition registered (acs : list ActionClass) : ActionRegistry.t :=
  foldl (fun reg ac => ActionRegistry.register ac reg) ActionRegistry.init acs.

(** The last class of [acs] that carries a name. *)
Definition last_named (name : string) (acs : list ActionClass) : option ActionClass :=
  last (List.filter (fun ac => String.eqb (cls_name ac) name) acs).

(** The entry [list_actions] shows for a class. *)
Definition metadata (ac : ActionClass) : value :=
  VDict [("name", VStr (cls_name ac));
         ("description", VStr (cls_description ac));
         ("tags", VList (List.map VStr (cls_tags ac)))].

(** Two classes under one name, for the examples. *)
Definition summary_v1 : ActionClass :=
  {| cls_name := "daily_summary"; cls_description := "first version";
     cls_tags := ["email"]; cls_execute := self_fail "not implemented" |}.

(** ** The calls of a body *)

(** What a caller sees of an outcome: the value, or nothing when it raised. *)
Definition returned {A : Type} (o : outcome A) : option A :=
  match o with
  | Returned a => Some a
  | Raised _ => None
  end.

(** A result that holds the trace and the name the instance has now: the
    result [complete] or [fail] has just built. *)
Definition snapshot (r : ActionResult.t) (m : Machine) : Prop :=
  ActionResult.tool_calls r = _tool_calls (self m) /\
  ActionResult.action_name r = Base.name (self m).

(** A piece of a body all of whose executions, from a machine that meets
    [Pre], relate the tools they invoke, what they return and the machine
    they leave by [Q]. *)
Definition holds {A : Type} (p : prog A) (Pre : Machine -> Prop)
           (Q : list string -> option A -> Machine -> Prop) : Prop :=
  forall (h : Host) (m : Machine),
    Pre m -> Q (invoked (events h p m)) (returned (exec h p m).1) (exec h p m).2.

Definition anywhere : Machine -> Prop := fun _ => True.

(** The result [r] was just built, with the status [s]. *)
Definition built (r : ActionResult.t) (s : ActionStatus) : Machine -> Prop :=
  fun m => snapshot r m /\ ActionResult.status r = s.

(** The calls of a workflow: they follow one of [paths] as far as they go,
    and a result is a snapshot; a Success has made the calls of one of
    [successes]. *)
Definition workflow (paths successes : list (list string))
  : list string -> option ActionResult.t -> Machine -> Prop :=
  fun l o m =>
    Exists (fun path => l `prefix_of` path) paths /\
    forall r, o = Some r ->
              snapshot r m /\ (ActionResult.status r = SUCCESS -> l ∈ successes).

(** A mailbox, a calendar and a directory for the examples. *)
Definition office_tools : list (string * tool) :=
  [("whoami",
    fun _ => Returns (VDict [("name", VStr "Ana"); ("department", VStr "Data")]));
   ("get_todays_meetings",
    fun _ => Returns (VDict [("date", VStr "2024-01-01"); ("count", VInt 0);
                             ("meetings", VList [])]));
   ("get_calendar",
    fun _ => Returns (VDict [("meetings",
               VList [VDict [("subject", VStr "Roadmap"); ("organizer", VStr "")]])]));
   ("get_inbox",
    fun _ => Returns (VDict [("unread_total", VInt 2);
                             ("emails", VList [VDict [("importance", VStr "High")];
                                               VDict [("importance", VStr "Normal")]])]));
   ("read_email", fun _ => Returns (VDict [("subject", VStr "Re: Roadmap")]));
   ("search_emails", fun _ => Returns (VDict [("count", VInt 0); ("results", VList [])]));
   ("find_colleague", fun _ => Returns (VDict [("name", VStr "Ana")]));
   ("search_meetings", fun _ => Returns (VDict [("results", VList [])]))].

(** A machine about to run a fresh instance of the class named [name]. *)
Definition office (name : string) (c : ActionContext.t) : Machine :=
  boot (new_action name office_tools) c.

(** ** The inbox and the subject of a thread *)

(** [d.get(key)] on the entries of a dictionary. *)
Definition entry (key : string) (d : dict) : value :=
  from_option id VNone (lookup_key key d).

(** [e.get("importance") == "High"] on an email that has a [get]. *)
Definition is_high (e : value) : bool :=
  match get e "importance" VNone with
  | Returned importance => eq_str importance "High"
  | Raised _ => false
  end.

(** Two texts that agree as far as both go: one is the start of the other. *)
Fixpoint agree (q p : string) : bool :=
  match q, p with
  | String a q', String b p' => Ascii.eqb a b && agree q' p'
  | _, _ => true
  end.

(** [q] starts at no position of [p], whatever follows [p]. *)
Fixpoint apart (q p : string) : bool :=
  match p with
  | EmptyString => true
  | String _ p' => negb (agree q p) && apart q p'
  end.

(** A mailbox whose email has a null subject, and a run that asks for it. *)
Definition null_subject_tools : list (string * tool) :=
  [("read_email", fun _ => Returns (VDict [("id", VStr "e-1"); ("subject", VNone)]))].

Definition thread_request : Machine :=
  boot (new_action EmailThreadAction.name null_subject_tools)
       (ActionContext.set "email_id" (VStr "e-1") scenario_context).

(** A mailbox, a calendar and a directory that find nothing. *)
Definition blank_tools : list (string * tool) :=
  [("read_email", fun _ => Returns (VDict [("error", VStr "Email not found")]));
   ("find_colleague", fun _ => Returns (VDict [("name", VStr "")]));
   ("get_todays_meetings", fun _ => Returns (VDict [("meetings", VList [])]));
   ("get_calendar", fun _ => Returns (VDict []));
   ("search_meetings", fun _ => Returns (VDict [("results", VList [])]))].

(** A machine about to run a fresh instance of the class named [name], the
    context holding [v] under [key]. *)
Definition request (name key : string) (v : value) : Machine :=
  boot (new_action name blank_tools) (ActionContext.set key v scenario_context).

(** A directory that answers in plain text; the calendar and the mailbox
    work. *)
Definition plain_text_tools : list (string * tool) :=
  [("whoami", fun _ => Returns (VStr "service unavailable"));
   ("get_todays_meetings", fun _ => Returns (VDict [("meetings", VList [])]));
   ("get_inbox", fun _ => Returns (VDict [("emails", VList [])]))].

(** ** Meetings *)


End Further.

(* ===================================================================== *)
(** * Proofs: the execution framework                                     *)
(* ===================================================================== *)

Import Py Base Trace.
Open Scope list_scope.

Section Framework.
Variable h : Host.

(** ** The tool invoker *)

Lemma find_tool_absent (tool_name : string) (tools : list (string * tool)) :
  tool_name ∉ tools.*1 <-> find_tool tool_name tools = None.
Proof.
  induction tools as [|[k f] tools IH]; simpl.
  - split; [done | intros _; apply not_elem_of_nil].
  - rewrite not_elem_of_cons, IH.
    destruct (String.eqb_spec k tool_name) as [->|Hne]; split.
    + intros [? _]; done.
    + discriminate.
    + intros [_ ?]; done.
    + intros ?; split; [congruence | done].
Qed.

Lemma call_tool_known (n : string) (kw : dict) (m : Machine) (f : tool) :
  find_tool n (_tools (self m)) = Some f ->
  exists tc : ToolCall.t,
    ToolCall.tool_name tc = n /\
    ToolCall.arguments tc = kw /\
    _tool_calls (self (call_tool h n kw m).2) = (_tool_calls (self m) ++ [tc])%list /\
    _tools (self (call_tool h n kw m).2) = _tools (self m) /\
    match f kw with
    | Returns v =>
        ToolCall.result tc = v /\
        ((ToolCall.error tc = None /\
          exists ret, (call_tool h n kw m).1 = Returned ret) \/
         (exists e, ToolCall.error tc = caught_str e /\
                    (call_tool h n kw m).1 = Raised e))
    | Raises e =>
        ToolCall.error tc = caught_str e /\ (call_tool h n kw m).1 = Raised e
    end.
Proof.
  intros Hf. unfold call_tool. rewrite Hf. simpl.
  destruct (f kw) as [v|e]; simpl.
  - destruct v as [| | |s| |]; simpl; try (eexists; repeat split; eauto; fail).
    destruct (json_loads h s) as [e|v]; simpl.
    + destruct (is_JSONDecodeError e); simpl; eexists; repeat split; eauto.
    + eexists; repeat split; eauto.
  - eexists; repeat split; eauto.
Qed.

(** ** The trace of an execution *)

Lemma invoked_app (evs1 evs2 : list event) :
  invoked (evs1 ++ evs2) = invoked evs1 ++ invoked evs2.
Proof.
  induction evs1 as [|ev evs1 IH]; [done|].
  destruct ev; simpl; by rewrite ?IH.
Qed.

Lemma successes_app (evs1 evs2 : list event) :
  successes (evs1 ++ evs2) = successes evs1 + successes evs2.
Proof. unfold successes. by rewrite List.filter_app, length_app. Qed.

Lemma failed_calls_app (evs1 evs2 : list event) :
  failed_calls (evs1 ++ evs2) = failed_calls evs1 + failed_calls evs2.
Proof. unfold failed_calls. by rewrite List.filter_app, length_app. Qed.

Lemma exec_trace {A : Type} (p : prog A) :
  forall m : Machine,
    ToolCall.tool_name <$> _tool_calls (self (exec h p m).2)
    = (ToolCall.tool_name <$> _tool_calls (self m)) ++ invoked (events h p m).
Proof.
  induction p as [A a|A e|A n kw k IH|A key d k IH|A key v k IH|A o s k IH|A e k IH
                 |A B body IHb c hd IHh k IHk]; intros m; simpl.
  - by rewrite app_nil_r.
  - by rewrite app_nil_r.
  - destruct (find_tool n (_tools (self m))) as [f|] eqn:Hf.
    + destruct (call_tool_known n kw m f Hf) as (tc & Hn & _ & Htr & _ & Hout).
      destruct (call_tool h n kw m) as [[v|e] m'] eqn:Hc; simpl in *.
      * rewrite IH, Htr, fmap_app. simpl. rewrite Hn, <- app_assoc. done.
      * rewrite Htr, fmap_app. simpl. destruct (f kw); simpl; by rewrite Hn.
    + unfold call_tool. rewrite Hf. simpl. by rewrite app_nil_r.
  - apply IH.
  - apply (IH (with_context (ActionContext.set key v) m)).
  - apply (IH _ (complete h o s m).2).
  - apply (IH _ (fail h e m).2).
  - rewrite invoked_app, app_assoc, <- IHb.
    destruct (exec h body m) as [[b|e] m1]; simpl.
    + apply IHk.
    + destruct (c e); simpl; [|by rewrite app_nil_r].
      rewrite invoked_app, app_assoc, <- IHh.
      destruct (exec h (hd e) m1) as [[b|e'] m2]; simpl.
      * apply IHk.
      * by rewrite app_nil_r.
Qed.

(** Every recorded call is a success or a call that raised. *)
Lemma exec_trace_length {A : Type} (p : prog A) :
  forall m : Machine,
    length (_tool_calls (self (exec h p m).2))
    = length (_tool_calls (self m)) + successes (events h p m)
      + failed_calls (events h p m).
Proof.
  induction p as [A a|A e|A n kw k IH|A key d k IH|A key v k IH|A o s k IH|A e k IH
                 |A B body IHb c hd IHh k IHk]; intros m; simpl.
  - unfold successes, failed_calls; simpl; lia.
  - unfold successes, failed_calls; simpl; lia.
  - destruct (find_tool n (_tools (self m))) as [f|] eqn:Hf.
    + destruct (call_tool_known n kw m f Hf) as (tc & Hn & _ & Htr & _ & Hout).
      destruct (call_tool h n kw m) as [[v|e] m'] eqn:Hc; simpl in *.
      * rewrite IH, Htr, length_app. unfold successes, failed_calls. simpl. lia.
      * rewrite Htr, length_app.
        destruct (f kw); unfold successes, failed_calls; simpl; lia.
    + unfold call_tool. rewrite Hf. simpl. unfold successes, failed_calls; simpl; lia.
  - apply IH.
  - apply (IH (with_context (ActionContext.set key v) m)).
  - apply (IH _ (complete h o s m).2).
  - apply (IH _ (fail h e m).2).
  - rewrite successes_app, failed_calls_app.
    pose proof (IHb m) as Hb.
    destruct (exec h body m) as [[b|e] m1]; simpl in *.
    + rewrite IHk. lia.
    + destruct (c e); simpl.
      * rewrite successes_app, failed_calls_app.
        pose proof (IHh e m1) as Hh.
        destruct (exec h (hd e) m1) as [[b|e'] m2]; simpl in *.
        -- rewrite IHk. lia.
        -- unfold successes, failed_calls in *; simpl; lia.
      * unfold successes, failed_calls in *; simpl; lia.
Qed.

(** In a body without [try], a call that raises ends the execution: at most
    one recorded call raised, and it is the last event. *)
Lemma straight_failed_calls {A : Type} (p : prog A) :
  straight p ->
  forall m : Machine,
    failed_calls (events h p m) = (if ended_by_call (events h p m) then 1 else 0).
Proof.
  induction p as [A a|A e|A n kw k IH|A key d k IH|A key v k IH|A o s k IH|A e k IH
                 |A B body IHb c hd IHh k IHk]; simpl; intros Hs m; try done.
  - destruct (call_tool h n kw m) as [[v|e] m'] eqn:Hc; simpl.
    + specialize (IH v (Hs v) m'). unfold failed_calls, ended_by_call in *. simpl.
      destruct (events h (k v) m') as [|ev evs]; [done|].
      change (last (ToolReturned n :: ev :: evs)) with (last (ev :: evs)). exact IH.
    + destruct (find_tool n (_tools (self m))) as [f|]; [destruct (f kw)|]; done.
  - by apply IH.
  - by apply IH.
  - by apply (IH _ (Hs _) (complete h o s m).2).
  - by apply (IH _ (Hs _) (fail h e m).2).
Qed.

Lemma straight_bind {A B : Type} (p : prog A) (f : A -> prog B) :
  straight p -> (forall a, straight (f a)) -> straight (bind p f).
Proof.
  induction p as [A a|A e|A n kw k IH|A key d k IH|A key v k IH|A o s k IH|A e k IH
                 |A C body IHb c hd IHh k IHk]; simpl; intros Hp Hf; auto.
Qed.

Lemma straight_eval {A : Type} (o : outcome A) : straight (eval o).
Proof. by destruct o. Qed.

Lemma fail_fields (error : string) (m : Machine) :
  ActionResult.status (fail h error m).1 = FAILED /\
  ActionResult.error (fail h error m).1 = Some error /\
  ActionResult.output (fail h error m).1 = VNone /\
  ActionResult.tool_calls (fail h error m).1 = _tool_calls (self m) /\
  ActionResult.action_name (fail h error m).1 = name (self m).
Proof. done. Qed.

Lemma complete_fields (output : value) (status : ActionStatus) (m : Machine) :
  ActionResult.status (complete h output status m).1 = status /\
  ActionResult.error (complete h output status m).1 = None /\
  ActionResult.output (complete h output status m).1 = output /\
  ActionResult.tool_calls (complete h output status m).1 = _tool_calls (self m) /\
  ActionResult.action_name (complete h output status m).1 = name (self m).
Proof. done. Qed.

Lemma enter_trace (m : Machine) : _tool_calls (self (enter h m)) = [].
Proof. done. Qed.

(** ** The four exits of [run] *)

Lemma run_handed {A : Type} `{Handed A} (execute : prog A) (m m1 : Machine)
      (a : A) (r : ActionResult.t) :
  exec h execute (enter h m) = (Returned a, m1) ->
  handed a = inl r ->
  run h execute m = (Returned r, m1).
Proof. intros He Ha. unfold run. by rewrite He, Ha. Qed.

Lemma run_not_handed {A : Type} `{Handed A} (execute : prog A) (m m1 : Machine)
      (a : A) (v : value) :
  exec h execute (enter h m) = (Returned a, m1) ->
  handed a = inr v ->
  run h execute m
  = (Returned (fail h (exn_str (AttributeError v "status")) m1).1,
     (fail h (exn_str (AttributeError v "status")) m1).2).
Proof. intros He Ha. unfold run. by rewrite He, Ha. Qed.

Lemma run_returned (execute : prog ActionResult.t) (m m1 : Machine)
      (r : ActionResult.t) :
  exec h execute (enter h m) = (Returned r, m1) ->
  run h execute m = (Returned r, m1).
Proof. intros He. by apply run_handed with r. Qed.

Lemma run_raised {A : Type} `{Handed A} (execute : prog A) (m m1 : Machine) (e : exn) :
  exec h execute (enter h m) = (Raised e, m1) ->
  is_exception e = true ->
  run h execute m = (Returned (fail h (exn_str e) m1).1, (fail h (exn_str e) m1).2).
Proof. intros He Hc. unfold run. by rewrite He, Hc. Qed.

Lemma run_passes {A : Type} `{Handed A} (execute : prog A) (m m1 : Machine) (e : exn) :
  exec h execute (enter h m) = (Raised e, m1) ->
  is_exception e = false ->
  run h execute m = (Raised e, m1).
Proof. intros He Hc. unfold run. by rewrite He, Hc. Qed.

(** When [run] returned although [execute] raised, the exception was an
    [Exception] and the result is the one of the [except] clause. *)
Lemma run_caught {A : Type} `{Handed A} (execute : prog A) (m m1 m' : Machine)
      (e : exn) (r : ActionResult.t) :
  exec h execute (enter h m) = (Raised e, m1) ->
  run h execute m = (Returned r, m') ->
  is_exception e = true /\
  r = (fail h (exn_str e) m1).1 /\ m' = (fail h (exn_str e) m1).2.
Proof.
  intros He Hrun. destruct (is_exception e) eqn:Hc.
  - rewrite (run_raised _ _ _ _ He Hc) in Hrun. by injection Hrun as <- <-.
  - rewrite (run_passes _ _ _ _ He Hc) in Hrun. discriminate Hrun.
Qed.

End Framework.

Section FrameworkLemmas.
Variable h : Host.

(** An execution that raised stopped at its last event, which is a raise of
    the body, an unknown tool, or a recorded call that raised. *)
Lemma exec_raised_last {A : Type} (p : prog A) :
  forall (m : Machine) (e : exn),
    (exec h p m).1 = Raised e ->
    exists ev, last (events h p m) = Some ev /\ is_returned ev = false.
Proof.
  induction p as [A a|A e0|A n kw k IH|A key d k IH|A key v k IH|A o s k IH|A e0 k IH
                 |A B body IHb c hd IHh k IHk]; intros m e; simpl.
  - discriminate.
  - intros _. by exists OwnRaise.
  - destruct (call_tool h n kw m) as [[v|e'] m'] eqn:Hc; simpl.
    + intros He. destruct (IH v m' e He) as (ev & Hl & Hev).
      exists ev. split; [|done].
      destruct (events h (k v) m') as [|ev0 evs]; [done|].
      by rewrite last_cons, Hl.
    + intros _.
      destruct (find_tool n (_tools (self m))) as [f|]; [destruct (f kw)|];
        eexists; split; done.
  - apply IH.
  - apply (IH (with_context (ActionContext.set key v) m)).
  - apply (IH _ (complete h o s m).2).
  - apply (IH _ (fail h e0 m).2).
  - pose proof (IHb m) as Hb.
    destruct (exec h body m) as [[b|e1] m1]; simpl in *.
    + intros He. destruct (IHk b m1 e He) as (ev & Hl & Hev).
      exists ev. by rewrite last_app, Hl.
    + destruct (c e1); simpl.
      * pose proof (IHh e1 m1) as Hh.
        destruct (exec h (hd e1) m1) as [[b|e2] m2]; simpl in *.
        -- intros He. destruct (IHk b m2 e He) as (ev & Hl & Hev).
           exists ev. by rewrite !last_app, Hl.
        -- intros _. destruct (Hh e2 eq_refl) as (ev & Hl & Hev).
           exists ev. by rewrite last_app, app_nil_r, Hl.
      * intros _. destruct (Hb e1 eq_refl) as (ev & Hl & Hev).
        exists ev. by rewrite app_nil_r.
Qed.

Lemma tool_failed_last (evs : list event) (ev : event) :
  tool_failed evs = false -> last evs = Some ev -> is_raised ev = false.
Proof.
  induction evs as [|ev0 evs IH]; [done|].
  simpl. intros [H0 Hrest]%orb_false_iff.
  destruct evs as [|ev1 evs'].
  - simpl. by intros [= <-].
  - rewrite last_cons. destruct (last (ev1 :: evs')) eqn:Hl.
    + intros [= <-]. by apply IH.
    + by intros [= <-].
Qed.

Lemma comprehension_raises {A B : Type} (f : A -> outcome B) (xs : list A)
      (x : A) (e : exn) :
  x ∈ xs -> f x = Raised e -> exists e', comprehension f xs = Raised e'.
Proof.
  intros Hin Hx. induction Hin as [x xs|x y xs Hin IH]; simpl.
  - rewrite Hx. eauto.
  - destruct (f y); [|eauto]. destruct IH as [e' ->]; eauto.
Qed.

Lemma to_dict_raises (tc : ToolCall.t) (s : string) (e : exn) :
  ToolCall.result tc = VStr s ->
  String.prefix "{" s = true ->
  json_loads h s = inl e ->
  ToolCall.to_dict h tc = Raised e.
Proof. intros Hr Hp Hj. unfold ToolCall.to_dict. by rewrite Hr, Hp, Hj. Qed.

End FrameworkLemmas.

Lemma prefix_app (p q rest : string) :
  String.prefix (p ++ q)%string (p ++ q ++ rest)%string = true.
Proof.
  induction p as [|c p IH]; simpl.
  - induction q as [|c q IH]; simpl.
    + by destruct rest.
    + destruct (Ascii.ascii_dec c c); [exact IH | done].
  - destruct (Ascii.ascii_dec c c); [exact IH | done].
Qed.

(** Every [execute] of definitions.py that is modelled here is a body
    without [try] statement. *)
Ltac straight_step :=
  lazymatch goal with
  | |- straight (bind _ _) => apply straight_bind; [|intros ?]
  | |- straight (mbind _ _) => apply straight_bind; [|intros ?]
  | |- straight (eval _) => apply straight_eval
  | |- straight (if ?b then _ else _) => destruct b
  | |- straight (match ?x with _ => _ end) => destruct x
  | |- straight _ => first [exact I | intros ?; exact I | simpl; intros; exact I]
  end.

Lemma straight_executes :
  straight Definitions.MeetingPrepAction.execute /\
  straight Definitions.DailySummaryAction.execute /\
  straight Definitions.EmailThreadAction.execute /\
  straight Definitions.ColleagueLookupAction.execute /\
  straight Definitions.InboxTriageAction.execute.
Proof.
  repeat split.
  - unfold Definitions.MeetingPrepAction.execute, Definitions.MeetingPrepAction.find_meeting.
    repeat straight_step.
  - unfold Definitions.DailySummaryAction.execute. repeat straight_step.
  - unfold Definitions.EmailThreadAction.execute. repeat straight_step.
  - unfold Definitions.ColleagueLookupAction.execute. repeat straight_step.
  - unfold Definitions.InboxTriageAction.execute. repeat straight_step.
Qed.

(** ** The claims about the framework *)

(** C1, as worded, fails: a tool interrupted from the keyboard raises
    [KeyboardInterrupt], which is no [Exception]; the [except Exception]
    clauses of [call_tool] and of [run] let it through, and [run] of
    [MeetingPrepAction] raises it. *)
Lemma C1_counterexample : ~ run_never_raises_as_stated scenario_host.
Proof.
  intros Hnever.
  destruct (Hnever Definitions.MeetingPrepAction.execute
              (meeting_prep interrupted_tools)
              (exec scenario_host Definitions.MeetingPrepAction.execute
                 (enter scenario_host (meeting_prep interrupted_tools))).2
              (BaseExn "KeyboardInterrupt" "" false) eq_refl)
    as (r & m' & Hrun & _).
  vm_compute in Hrun. discriminate Hrun.
Qed.

(** C1, amended. For every machine (execution context included) and every
    action: when [execute] raises an exception [e] that is an instance of
    [Exception], [run] does not raise: it returns a Failed result whose
    error is [str(e)], without output, whose trace is the list of tool calls
    recorded up to the raise, one record per tool that was invoked, in
    order. An exception that is not an [Exception] ([KeyboardInterrupt],
    [SystemExit]) leaves [run] as [execute] raised it. A result that
    [execute] returns is returned as it is; an object that is not a result
    makes [run] return Failed with the [AttributeError] of its [status].
    So whatever [run] raises is no [Exception] and was raised by
    [execute]. *)
Theorem C1_run_catches_exceptions (h : Host) {A : Type} `{Handed A}
        (execute : prog A) (m : Machine) :
  (forall (e : exn) (m1 : Machine),
      exec h execute (enter h m) = (Raised e, m1) ->
      is_exception e = true ->
      exists (r : ActionResult.t) (m' : Machine),
        run h execute m = (Returned r, m') /\
        ActionResult.status r = FAILED /\
        ActionResult.error r = Some (exn_str e) /\
        ActionResult.output r = VNone /\
        ActionResult.tool_calls r = _tool_calls (self m1) /\
        ToolCall.tool_name <$> ActionResult.tool_calls r
        = invoked (events h execute (enter h m))) /\
  (forall (e : exn) (m1 : Machine),
      exec h execute (enter h m) = (Raised e, m1) ->
      is_exception e = false ->
      run h execute m = (Raised e, m1)) /\
  (forall (a : A) (m1 : Machine) (r : ActionResult.t),
      exec h execute (enter h m) = (Returned a, m1) ->
      handed a = inl r ->
      run h execute m = (Returned r, m1)) /\
  (forall (a : A) (m1 : Machine) (v : value),
      exec h execute (enter h m) = (Returned a, m1) ->
      handed a = inr v ->
      exists (r : ActionResult.t) (m' : Machine),
        run h execute m = (Returned r, m') /\
        ActionResult.status r = FAILED /\
        ActionResult.error r
        = Some ("'" ++ type_name v ++ "' object has no attribute 'status'")%string /\
        ActionResult.tool_calls r = _tool_calls (self m1)) /\
  (forall (e : exn) (m' : Machine),
      run h execute m = (Raised e, m') ->
      is_exception e = false /\ exec h execute (enter h m) = (Raised e, m')).
Proof.
  repeat split.
  - intros e m1 He Hc.
    exists (fail h (exn_str e) m1).1, (fail h (exn_str e) m1).2.
    split; [by apply run_raised|]. repeat split.
    pose proof (exec_trace h execute (enter h m)) as Ht.
    rewrite He in Ht. simpl in Ht. exact Ht.
  - intros e m1. apply run_passes.
  - intros a m1 r. apply run_handed.
  - intros a m1 v He Ha.
    exists (fail h (exn_str (AttributeError v "status")) m1).1,
           (fail h (exn_str (AttributeError v "status")) m1).2.
    split; [by apply run_not_handed with a|]. done.
  - unfold run in H0.
    destruct (exec h execute (enter h m)) as [[a|e0] m1].
    + destruct (handed a); discriminate H0.
    + destruct (is_exception e0) eqn:Hc; [discriminate H0|]. congruence.
  - unfold run in H0.
    destruct (exec h execute (enter h m)) as [[a|e0] m1].
    + destruct (handed a); discriminate H0.
    + destruct (is_exception e0) eqn:Hc; [discriminate H0|]. congruence.
Qed.

Lemma C1_run_catches_exceptions_witness :
  (exists (r : ActionResult.t) (m' : Machine),
      run scenario_host Definitions.MeetingPrepAction.execute
          (meeting_prep failing_calendar_tools) = (Returned r, m') /\
      ActionResult.status r = FAILED /\
      ActionResult.error r = Some "mail server unreachable" /\
      ActionResult.tool_calls r <> []) /\
  (run scenario_host Definitions.MeetingPrepAction.execute
       (meeting_prep interrupted_tools)).1
  = Raised (BaseExn "KeyboardInterrupt" "" false) /\
  (exists (r : ActionResult.t) (m' : Machine),
      run scenario_host forgetful_execute (meeting_prep empty_calendar_tools)
      = (Returned r, m') /\
      ActionResult.error r = Some "'NoneType' object has no attribute 'status'").
Proof.
  split; [|split].
  - destruct (C1_run_catches_exceptions scenario_host
                Definitions.MeetingPrepAction.execute
                (meeting_prep failing_calendar_tools)) as (Hcaught & _).
    destruct (Hcaught (Exn "ConnectionError" "mail server unreachable")
                (exec scenario_host Definitions.MeetingPrepAction.execute
                   (enter scenario_host (meeting_prep failing_calendar_tools))).2
                eq_refl eq_refl) as (r & m' & Hrun & Hs & He & _ & _ & Hnames).
    exists r, m'. repeat split; [exact Hrun | exact Hs | exact He |].
    intros Hnil. rewrite Hnil in Hnames. discriminate Hnames.
  - destruct (C1_run_catches_exceptions scenario_host
                Definitions.MeetingPrepAction.execute
                (meeting_prep interrupted_tools)) as (_ & Hpasses & _).
    rewrite (Hpasses (BaseExn "KeyboardInterrupt" "" false)
               (exec scenario_host Definitions.MeetingPrepAction.execute
                  (enter scenario_host (meeting_prep interrupted_tools))).2
               eq_refl eq_refl).
    reflexivity.
  - destruct (C1_run_catches_exceptions scenario_host forgetful_execute
                (meeting_prep empty_calendar_tools)) as (_ & _ & _ & Hother & _).
    destruct (Hother VNone
                (exec scenario_host forgetful_execute
                   (enter scenario_host (meeting_prep empty_calendar_tools))).2
                VNone eq_refl eq_refl) as (r & m' & Hrun & _ & He & _).
    exists r, m'. split; [exact Hrun | exact He].
Defined.

(** C2, as worded, fails: [run] on an action whose tool raises an exception
    with an empty [str] (here [TimeoutError()]) yields a Failed result whose
    error is the empty text. ([complete] called with status Failed breaks
    the first part as well: that result has no error and keeps its output.) *)
Lemma C2_counterexample : ~ result_invariant_as_stated scenario_host.
Proof.
  intros Hinv.
  assert (Hp : produced scenario_host
                 (fail scenario_host (exn_str (Exn "TimeoutError" ""))
                    (exec scenario_host Definitions.MeetingPrepAction.execute
                       (enter scenario_host (meeting_prep timing_out_tools))).2).1).
  { apply (by_except scenario_host Definitions.MeetingPrepAction.execute
             (meeting_prep timing_out_tools)); reflexivity. }
  destruct (Hinv _ Hp) as (_ & _ & Hmsg).
  destruct Hmsg as (msg & Herr & Hne); [reflexivity|].
  simpl in Herr. injection Herr as <-. by apply Hne.
Qed.

(** C2, amended. Among the results built by [complete], by [fail] or by the
    [except] clause of [run]: Success implies that the error is absent, and
    a present error implies status Failed and an absent output. A result
    built by [fail] or by the [except] clause is Failed, has no output,
    carries the trace collected so far, and its error is exactly the message
    it was given ([str(e)] in the [except] clause), so it is non-empty
    exactly when that message is. A result built by [complete] has the
    status the caller passed, the output it was given, the trace collected
    so far, and no error. *)
Theorem C2_result_invariant (h : Host) :
  (forall r : ActionResult.t,
      produced h r ->
      (ActionResult.status r = SUCCESS -> ActionResult.error r = None) /\
      (is_Some (ActionResult.error r) ->
       ActionResult.status r = FAILED /\ ActionResult.output r = VNone)) /\
  (forall (r : ActionResult.t) (msg : string) (m : Machine),
      produced_failing h r msg m ->
      ActionResult.status r = FAILED /\
      ActionResult.error r = Some msg /\
      ActionResult.output r = VNone /\
      ActionResult.tool_calls r = _tool_calls (self m) /\
      (msg <> "" <-> exists text, ActionResult.error r = Some text /\ text <> "")) /\
  (forall (output : value) (status : ActionStatus) (m : Machine),
      ActionResult.status (complete h output status m).1 = status /\
      ActionResult.output (complete h output status m).1 = output /\
      ActionResult.error (complete h output status m).1 = None /\
      ActionResult.tool_calls (complete h output status m).1 = _tool_calls (self m)).
Proof.
  split; [|split].
  - intros r Hp. destruct Hp as [o s m|msg m|p m m1 e He Hc]; simpl.
    + split; [done|]. intros [x Hx]. discriminate Hx.
    + split; [discriminate|done].
    + split; [discriminate|done].
  - intros r msg m Hp.
    assert (Hr : r = (fail h msg m).1) by (destruct Hp; reflexivity).
    subst r. destruct (fail_fields h msg m) as (Hs & He & Ho & Ht & _).
    repeat split; try assumption.
    + intros Hne. exists msg. by rewrite He.
    + intros (text & Htext & Hne). rewrite He in Htext. by injection Htext as ->.
  - intros o s m. by destruct (complete_fields h o s m) as (? & ? & ? & ? & _).
Qed.

Lemma C2_result_invariant_witness :
  let r := (fail scenario_host "No upcoming meetings found"
              (meeting_prep empty_calendar_tools)).1 in
  ActionResult.status r = FAILED /\
  ActionResult.error r = Some "No upcoming meetings found" /\
  ActionResult.output r = VNone /\
  ActionResult.tool_calls r = [] /\
  ActionResult.status
    (complete scenario_host (VInt 1) FAILED (meeting_prep empty_calendar_tools)).1
  = FAILED.
Proof.
  destruct (C2_result_invariant scenario_host) as (Hall & Hfail & Hcomplete).
  destruct (Hfail _ _ _ (failing_by_fail scenario_host "No upcoming meetings found"
                           (meeting_prep empty_calendar_tools)))
    as (Hs & He & Ho & Ht & _).
  destruct (Hcomplete (VInt 1) FAILED (meeting_prep empty_calendar_tools))
    as (Hcs & _).
  destruct (Hall _ (by_fail scenario_host "No upcoming meetings found"
                      (meeting_prep empty_calendar_tools))) as (_ & Hpresent).
  destruct (Hpresent (ex_intro _ _ eq_refl)) as (_ & _).
  repeat split; assumption.
Defined.

(** C3, as worded, fails: [MeetingPrepAction] run on a calendar without
    meetings makes two tool calls, both succeed, and [execute] returns
    [self.fail("No upcoming meetings found")]. *)
Lemma C3_counterexample : ~ never_failed_as_stated scenario_host.
Proof.
  intros Hnever.
  destruct (run scenario_host Definitions.MeetingPrepAction.execute
              (meeting_prep empty_calendar_tools)) as [[r|e] m'] eqn:Hrun.
  - apply (Hnever _ _ _ _ (eq_refl : tool_failed
             (events scenario_host Definitions.MeetingPrepAction.execute
                (enter scenario_host (meeting_prep empty_calendar_tools))) = false)
             Hrun).
    vm_compute in Hrun. injection Hrun as <- _. reflexivity.
  - vm_compute in Hrun. discriminate Hrun.
Qed.

(** C3, amended. When no tool raises during an execution, [run] returns a
    Failed result only in these ways: [execute] itself returned that Failed
    result (a failure the action decided on and reported through [fail]);
    [execute] returned an object that is not a result, and the result is
    the one the [except] clause builds from the [AttributeError] of its
    [status]; or [execute] raised an [Exception] that no tool raised, and
    the result is the one the [except] clause builds from it: the exception
    of one of its own statements, of the lookup of an unknown tool, or of
    the decoding of what a tool returned (an error of [json.loads] other
    than [JSONDecodeError], which [call_tool] does not catch). *)
Theorem C3_failed_only_by_own_failure (h : Host) {A : Type} `{Handed A}
        (execute : prog A) (m m' : Machine) (r : ActionResult.t) :
  tool_failed (events h execute (enter h m)) = false ->
  run h execute m = (Returned r, m') ->
  ActionResult.status r = FAILED ->
  (exists (a : A) (m1 : Machine),
      exec h execute (enter h m) = (Returned a, m1) /\ handed a = inl r) \/
  (exists (a : A) (v : value) (m1 : Machine),
      exec h execute (enter h m) = (Returned a, m1) /\ handed a = inr v /\
      r = (fail h (exn_str (AttributeError v "status")) m1).1) \/
  (exists (e : exn) (m1 : Machine) (ev : event),
      exec h execute (enter h m) = (Raised e, m1) /\
      is_exception e = true /\
      r = (fail h (exn_str e) m1).1 /\
      last (events h execute (enter h m)) = Some ev /\
      (ev = OwnRaise \/ (exists n, ev = ToolUnknown n) \/
       (exists n, ev = DecodeRaised n))).
Proof.
  intros Hok Hrun Hfailed.
  destruct (exec h execute (enter h m)) as [[a|e] m1] eqn:He.
  - destruct (handed a) as [r0|v] eqn:Ha.
    + left. exists a, m1. rewrite (run_handed h _ _ _ _ _ He Ha) in Hrun. split; congruence.
    + right; left. exists a, v, m1.
      rewrite (run_not_handed h _ _ _ _ _ He Ha) in Hrun. by injection Hrun as <- <-.
  - right; right.
    destruct (run_caught h _ _ _ _ _ _ He Hrun) as (Hc & -> & ->).
    destruct (exec_raised_last h execute (enter h m) e) as (ev & Hlast & Hnr).
    { by rewrite He. }
    pose proof (tool_failed_last _ _ Hok Hlast) as Hnf.
    exists e, m1, ev. repeat split; try done.
    destruct ev; try discriminate; eauto.
Qed.

Lemma C3_failed_only_by_own_failure_witness :
  (exists (r : ActionResult.t) (m1 : Machine),
      exec scenario_host Definitions.MeetingPrepAction.execute
           (enter scenario_host (meeting_prep empty_calendar_tools))
      = (Returned r, m1) /\
      ActionResult.error r = Some "No upcoming meetings found") /\
  (exists (e : exn) (m1 : Machine),
      exec huge_answer_host Definitions.MeetingPrepAction.execute
           (enter huge_answer_host (meeting_prep huge_answer_tools))
      = (Raised e, m1) /\
      exn_class e = "ValueError" /\
      last (events huge_answer_host Definitions.MeetingPrepAction.execute
              (enter huge_answer_host (meeting_prep huge_answer_tools)))
      = Some (DecodeRaised "get_todays_meetings")).
Proof.
  split.
  - destruct (run scenario_host Definitions.MeetingPrepAction.execute
                (meeting_prep empty_calendar_tools)) as [[r|e] m'] eqn:Hrun.
    + assert (Hfailed : ActionResult.status r = FAILED
                        /\ ActionResult.error r = Some "No upcoming meetings found").
      { vm_compute in Hrun. injection Hrun as <- _. split; reflexivity. }
      destruct Hfailed as [Hfailed Herror].
      destruct (C3_failed_only_by_own_failure scenario_host
                  Definitions.MeetingPrepAction.execute
                  (meeting_prep empty_calendar_tools) m' r eq_refl Hrun Hfailed)
        as [(a & m1 & Hret & Ha)|[(a & v & m1 & _ & Ha & _)|(e & m1 & ev & Hraise & _)]].
      * injection Ha as ->. exists r, m1. split; assumption.
      * discriminate Ha.
      * vm_compute in Hraise. discriminate Hraise.
    + vm_compute in Hrun. discriminate Hrun.
  - destruct (run huge_answer_host Definitions.MeetingPrepAction.execute
                (meeting_prep huge_answer_tools)) as [[r|e] m'] eqn:Hrun.
    + assert (Hfailed : ActionResult.status r = FAILED).
      { vm_compute in Hrun. injection Hrun as <- _. reflexivity. }
      destruct (C3_failed_only_by_own_failure huge_answer_host
                  Definitions.MeetingPrepAction.execute
                  (meeting_prep huge_answer_tools) m' r eq_refl Hrun Hfailed)
        as [(a & m1 & Hret & _)|[(a & v & m1 & Hret & _)
                                |(e & m1 & ev & Hraise & _ & _ & Hlast & _)]].
      * vm_compute in Hret. discriminate Hret.
      * vm_compute in Hret. discriminate Hret.
      * exists e, m1. split; [exact Hraise|].
        vm_compute in Hraise. injection Hraise as <- _. split; reflexivity.
    + vm_compute in Hrun. discriminate Hrun.
Defined.

(** C4, as worded, fails: with a calendar tool that raises, [execute] of
    [MeetingPrepAction] raises after zero successful tool calls, and the
    trace of the Failed result has one entry, the record of the call that
    raised. *)
Lemma C4_counterexample : ~ trace_length_as_stated scenario_host.
Proof.
  intros Hlen.
  destruct (run scenario_host Definitions.MeetingPrepAction.execute
              (meeting_prep failing_calendar_tools)) as [[r|e] m'] eqn:Hrun.
  - pose proof (Hlen Definitions.MeetingPrepAction.execute
                  (meeting_prep failing_calendar_tools)
                  (exec scenario_host Definitions.MeetingPrepAction.execute
                     (enter scenario_host (meeting_prep failing_calendar_tools))).2
                  m' (Exn "ConnectionError" "mail server unreachable") r
                  eq_refl Hrun) as Hn.
    vm_compute in Hrun. injection Hrun as <- _. vm_compute in Hn. discriminate Hn.
  - vm_compute in Hrun. discriminate Hrun.
Qed.

(** C4, amended. When [execute] raises an [Exception] after exactly N
    successful tool calls, the result of [run] is Failed and its trace has
    N + F entries, F being the number of recorded calls that raised during
    the execution (the tool raised, or the decoding of what it returned
    did): the invoker records such a call before it raises again, whether
    or not [execute] catches the exception. The trace names the invoked
    tools in call order. In an [execute] without [try] statement, as all of
    definitions.py are, F is 1 when the exception came out of a recorded
    call and 0 when it was raised by a statement of [execute] or by the
    lookup of an unknown tool. *)
Theorem C4_trace_length (h : Host) {A : Type} `{Handed A} (execute : prog A)
        (m m1 : Machine) (e : exn) :
  exec h execute (enter h m) = (Raised e, m1) ->
  is_exception e = true ->
  exists (r : ActionResult.t) (m' : Machine),
    run h execute m = (Returned r, m') /\
    ActionResult.status r = FAILED /\
    length (ActionResult.tool_calls r)
    = successes (events h execute (enter h m))
      + failed_calls (events h execute (enter h m)) /\
    ToolCall.tool_name <$> ActionResult.tool_calls r
    = invoked (events h execute (enter h m)) /\
    (straight execute ->
     failed_calls (events h execute (enter h m))
     = if ended_by_call (events h execute (enter h m)) then 1 else 0).
Proof.
  intros He Hc.
  exists (fail h (exn_str e) m1).1, (fail h (exn_str e) m1).2.
  split; [by apply run_raised|]. split; [done|].
  pose proof (exec_trace_length h execute (enter h m)) as Hl.
  pose proof (exec_trace h execute (enter h m)) as Ht.
  rewrite He in Hl, Ht. simpl in Hl, Ht.
  split; [exact Hl|]. split; [exact Ht|].
  intros Hs. by apply straight_failed_calls.
Qed.

Lemma C4_trace_length_witness :
  (exists (r : ActionResult.t) (m' : Machine),
      run scenario_host Definitions.MeetingPrepAction.execute
          (meeting_prep failing_calendar_tools) = (Returned r, m') /\
      ActionResult.status r = FAILED /\
      length (ActionResult.tool_calls r) = 0 + 1 /\
      failed_calls (events scenario_host Definitions.MeetingPrepAction.execute
                      (enter scenario_host (meeting_prep failing_calendar_tools))) = 1) /\
  (exists (r : ActionResult.t) (m' : Machine),
      run scenario_host shielded_execute (meeting_prep shielded_tools)
      = (Returned r, m') /\
      ActionResult.error r = Some "nothing to report" /\
      successes (events scenario_host shielded_execute
                   (enter scenario_host (meeting_prep shielded_tools))) = 1 /\
      length (ActionResult.tool_calls r) = 1 + 1).
Proof.
  split.
  - destruct (C4_trace_length scenario_host Definitions.MeetingPrepAction.execute
                (meeting_prep failing_calendar_tools)
                (exec scenario_host Definitions.MeetingPrepAction.execute
                   (enter scenario_host (meeting_prep failing_calendar_tools))).2
                (Exn "ConnectionError" "mail server unreachable") eq_refl eq_refl)
      as (r & m' & Hrun & Hs & Hlen & _ & Hstraight).
    exists r, m'. split; [exact Hrun|]. split; [exact Hs|]. split; [exact Hlen|].
    exact (Hstraight (proj1 straight_executes)).
  - destruct (C4_trace_length scenario_host shielded_execute
                (meeting_prep shielded_tools)
                (exec scenario_host shielded_execute
                   (enter scenario_host (meeting_prep shielded_tools))).2
                (Exn "RuntimeError" "nothing to report") eq_refl eq_refl)
      as (r & m' & Hrun & Hs & Hlen & _).
    exists r, m'. split; [exact Hrun|].
    split; [|split; [reflexivity | exact Hlen]].
    destruct (run_caught scenario_host shielded_execute
                (meeting_prep shielded_tools) _ m' _ r eq_refl Hrun) as (_ & -> & _).
    reflexivity.
Defined.

(** C5. For every capability map and every tool name absent from it,
    [call_tool] raises the unknown-tool error ([ValueError] with the message
    "Unknown tool: ...") and leaves the machine as it was: no record is
    appended to the trace, the clock is not read, and, in an [execute] that
    makes the call, no tool is invoked by it. *)
Theorem C5_unknown_tool (h : Host) (tool_name : string) (kwargs : dict) (m : Machine) :
  tool_name ∉ (_tools (self m)).*1 ->
  call_tool h tool_name kwargs m
  = (Raised (UnknownTool tool_name (_tools (self m))), m) /\
  exn_class (UnknownTool tool_name (_tools (self m))) = "ValueError" /\
  String.prefix ("Unknown tool: " ++ tool_name)%string
                (exn_str (UnknownTool tool_name (_tools (self m)))) = true /\
  _tool_calls (self (call_tool h tool_name kwargs m).2) = _tool_calls (self m) /\
  perf_reads (call_tool h tool_name kwargs m).2 = perf_reads m /\
  forall k : value -> prog ActionResult.t,
    exec h (CallTool tool_name kwargs k) m
    = (Raised (UnknownTool tool_name (_tools (self m))), m) /\
    invoked (events h (CallTool tool_name kwargs k) m) = [].
Proof.
  intros Habsent. apply find_tool_absent in Habsent.
  assert (Hcall : call_tool h tool_name kwargs m
                  = (Raised (UnknownTool tool_name (_tools (self m))), m)).
  { unfold call_tool. by rewrite Habsent. }
  repeat split.
  - exact Hcall.
  - apply prefix_app.
  - by rewrite Hcall.
  - by rewrite Hcall.
  - simpl. by rewrite Hcall.
  - simpl. by rewrite Hcall, Habsent.
Qed.

Lemma C5_unknown_tool_witness :
  call_tool scenario_host "get_calendar" [("days", VInt 7)]
            (meeting_prep failing_calendar_tools)
  = (Raised (Exn "ValueError"
               "Unknown tool: get_calendar. Available: ['get_todays_meetings']"),
     meeting_prep failing_calendar_tools).
Proof.
  destruct (C5_unknown_tool scenario_host "get_calendar" [("days", VInt 7)]
              (meeting_prep failing_calendar_tools)) as (Hcall & _).
  - vm_compute. intros Hin. apply list_elem_of_In in Hin.
    destruct Hin as [Heq|[]]. discriminate Heq.
  - exact Hcall.
Defined.

(** C10. [ToolCall.to_dict] is not total: for every record whose result is a
    [str] that starts with an opening brace and that [json.loads] rejects,
    it raises the decoder's error, whatever the record's own error field
    says; so [ActionResult.to_dict] raises on every result whose trace holds
    such a record, and there is a run ([MeetingPrepAction], the directory
    answering with such a text) whose result is Success, all of whose tool
    calls succeeded, and whose serialization raises. *)
Theorem C10_to_dict_not_total :
  (forall (h : Host) (tc : ToolCall.t) (s : string) (e : exn),
      ToolCall.result tc = VStr s ->
      String.prefix "{" s = true ->
      json_loads h s = inl e ->
      ToolCall.to_dict h tc = Raised e) /\
  (forall (h : Host) (r : ActionResult.t) (tc : ToolCall.t) (s : string) (e0 : exn),
      tc ∈ ActionResult.tool_calls r ->
      ToolCall.result tc = VStr s ->
      String.prefix "{" s = true ->
      json_loads h s = inl e0 ->
      exists e, ActionResult.to_dict h r = Raised e) /\
  (exists (r : ActionResult.t) (m' : Machine) (e : exn),
      run scenario_host Definitions.MeetingPrepAction.execute
          (meeting_prep garbled_directory_tools) = (Returned r, m') /\
      ActionResult.status r = SUCCESS /\
      Forall (fun tc => ToolCall.error tc = None) (ActionResult.tool_calls r) /\
      ActionResult.to_dict scenario_host r = Raised e).
Proof.
  split; [|split].
  - intros h tc s e. apply to_dict_raises.
  - intros h r tc s e0 Hin Hr Hp Hj.
    destruct (comprehension_raises (ToolCall.to_dict h) (ActionResult.tool_calls r)
                tc e0 Hin) as [e He].
    { by apply to_dict_raises with s. }
    exists e. unfold ActionResult.to_dict. by rewrite He.
  - destruct (run scenario_host Definitions.MeetingPrepAction.execute
                (meeting_prep garbled_directory_tools)) as [[r|e] m'] eqn:Hrun.
    + vm_compute in Hrun. injection Hrun as <- <-.
      eexists _, _, _. split; [reflexivity|]. split; [reflexivity|].
      split; [repeat constructor | vm_compute; reflexivity].
    + vm_compute in Hrun. discriminate Hrun.
Qed.

Lemma C10_to_dict_not_total_witness :
  ToolCall.to_dict scenario_host
    (ToolCall.Build "find_colleague" [("name", VStr "Ana")] (VStr "{oops") None 1000
                    "2024-01-01T09:00:00")
  = Raised (JSONDecodeError
      "Expecting property name enclosed in double quotes: line 1 column 2 (char 1)").
Proof.
  destruct C10_to_dict_not_total as (Hrec & _ & _).
  apply (Hrec scenario_host _ "{oops"); reflexivity.
Defined.

(* ===================================================================== *)
(** * Proofs: conflicts                                                   *)
(* ===================================================================== *)

Import Definitions Definitions.DailyBriefingAction Stated.




















(* ===================================================================== *)
(** * Proofs: the scenario of the keyword extractor                       *)
(* ===================================================================== *)

(** Closed decidable facts, by evaluation of their decision procedure. *)
Ltac by_evaluation := apply (bool_decide_unpack _); vm_compute; exact I.

Lemma spark_keywords_value :
  spark_keywords = ["spark"; "pipeline"; "discuss"; "optimization"].
Proof. vm_compute. reflexivity. Qed.

(** C8, as worded, fails: "discuss" is a keyword of the scenario. *)
Lemma C8_counterexample : ~ spark_scenario_as_stated.
Proof.
  intros (_ & _ & Hdiscuss & _). apply Hdiscuss.
  rewrite spark_keywords_value. by_evaluation.
Qed.

(** C8, amended. In the scenario the extractor returns spark, pipeline,
    discuss, optimization, in this order: "re" and "sync" are left out, and
    "discuss" is kept, the stopword set holding "discussion" and not
    "discuss"; spark, pipeline, optimization come in first-seen order. *)
Theorem C8_spark_scenario :
  spark_keywords = ["spark"; "pipeline"; "discuss"; "optimization"] /\
  ("re" ∉ spark_keywords) /\ ("sync" ∉ spark_keywords) /\
  ("discuss" ∈ spark_keywords) /\
  ("discuss" ∉ stopwords) /\ ("discussion" ∈ stopwords) /\ ("sync" ∈ stopwords) /\
  (["spark"; "pipeline"; "optimization"] `sublist_of` spark_keywords).
Proof.
  rewrite spark_keywords_value.
  split; [reflexivity|].
  split; [by_evaluation|]. split; [by_evaluation|]. split; [by_evaluation|].
  split; [by_evaluation|]. split; [by_evaluation|]. split; [by_evaluation|].
  apply sublist_skip, sublist_skip, sublist_cons, sublist_skip, sublist_nil.
Qed.

(* ===================================================================== *)
(** * Proofs: the keyword extractor                                       *)
(* ===================================================================== *)

(** ** The regular expression finds the plain whole words *)

Lemma is_az_word (c : ascii) : is_az c = true -> is_word c = true.
Proof.
  unfold is_az, is_word. intros ->. rewrite orb_true_r. reflexivity.
Qed.

Lemma span_spec (P : ascii -> bool) (s : list ascii) :
  s = (span P s).1 ++ (span P s).2 /\
  forallb P (span P s).1 = true /\
  stops P (span P s).2.
Proof.
  induction s as [|c s IH]; simpl; [done|].
  destruct (P c) eqn:Hc; simpl.
  - destruct (span P s) as [run rest]. simpl in *.
    destruct IH as (Hs & Hall & Hstop). rewrite Hc. split; [by f_equal|done].
  - unfold stops. simpl. done.
Qed.

Lemma span_stops (P : ascii -> bool) (s : list ascii) :
  stops P s -> span P s = ([], s).
Proof.
  destruct s as [|c s]; [done|]. unfold stops. simpl. by intros ->.
Qed.

Lemma span_all (P : ascii -> bool) (w rest : list ascii) :
  forallb P w = true -> stops P rest -> span P (w ++ rest) = (w, rest).
Proof.
  intros Hall Hstop. induction w as [|c w IH]; simpl.
  - by apply span_stops.
  - simpl in Hall. apply andb_true_iff in Hall as [-> Hall].
    by rewrite (IH Hall).
Qed.

Lemma runs_all (P : ascii -> bool) (w : list ascii) :
  forall cur rest, forallb P w = true -> runs P cur (w ++ rest) = runs P (cur ++ w) rest.
Proof.
  induction w as [|c w IH]; intros cur rest Hall; simpl.
  - by rewrite app_nil_r.
  - simpl in Hall. apply andb_true_iff in Hall as [-> Hall].
    rewrite IH by done. by rewrite <- app_assoc.
Qed.

Lemma runs_skip (P : ascii -> bool) (s : list ascii) :
  stops P s -> runs P [] s = runs P [] (tail s).
Proof.
  destruct s as [|c s]; [done|]. unfold stops. simpl. by intros ->.
Qed.

Lemma runs_word (P : ascii -> bool) (w rest : list ascii) :
  w <> [] -> forallb P w = true -> stops P rest ->
  runs P [] (w ++ rest) = w :: runs P [] rest.
Proof.
  intros Hne Hall Hstop. rewrite runs_all by done. simpl.
  destruct rest as [|x rest]; simpl.
  - by destruct w.
  - unfold stops in Hstop. simpl in Hstop. rewrite Hstop.
    by destruct w.
Qed.

Lemma stops_word_az (s : list ascii) : stops is_word s -> stops is_az s.
Proof.
  destruct s as [|c s]; [done|]. unfold stops. simpl.
  destruct (is_az c) eqn:Hc; [|done]. by rewrite (is_az_word c Hc).
Qed.

Lemma forallb_az_word (w : list ascii) :
  forallb is_az w = true -> forallb is_word w = true.
Proof.
  induction w as [|c w IH]; [done|]. simpl.
  intros [Hc Hw]%andb_true_iff. by rewrite (is_az_word c Hc), IH.
Qed.

Lemma last_forallb (P : ascii -> bool) (l : list ascii) :
  l <> [] -> forallb P l = true -> from_option P false (last l) = true.
Proof.
  induction l as [|x l IH]; [done|]. intros _ [Hx Hl]%andb_true_iff.
  destruct l as [|y l]; [done|]. rewrite last_cons.
  specialize (IH ltac:(done) Hl).
  destruct (last (y :: l)); done.
Qed.

Lemma backtrack_unfold (n : nat) (run rest : list ascii) :
  backtrack n run rest
  = if (n <? 3)%nat then None
    else if boundary (last (take n run)) (head (drop n run ++ rest))
         then Some (take n run, drop n run ++ rest)
         else match n with
              | O => None
              | S n' => backtrack n' run rest
              end.
Proof. destruct n; reflexivity. Qed.

Lemma backtrack_short (n : nat) (run rest : list ascii) :
  n < 3 -> backtrack n run rest = None.
Proof.
  intros Hn. rewrite backtrack_unfold.
  destruct (Nat.ltb_spec n 3); [done|lia].
Qed.

(** No closing [\b] inside a word: giving characters back does not help. *)
Lemma backtrack_inside (run rest : list ascii) :
  forallb is_az run = true ->
  is_word_opt (head rest) = true ->
  forall n, n <= length run -> backtrack n run rest = None.
Proof.
  intros Haz Hnext n. induction n as [|n IH]; intros Hn.
  - by apply backtrack_short; lia.
  - rewrite backtrack_unfold.
    destruct (Nat.ltb_spec (S n) 3) as [|Hge]; [done|].
    assert (Hlast : is_word_opt (last (take (S n) run)) = true).
    { assert (Hne : take (S n) run <> []) by (destruct run; [simpl in Hn; lia | done]).
      assert (Hall : forallb is_word (take (S n) run) = true).
      { apply forallb_az_word. apply forallb_forall. intros x Hx.
        rewrite forallb_forall in Haz. apply Haz.
        apply list_elem_of_In. apply list_elem_of_In in Hx.
        by apply (subseteq_take (S n) run). }
      pose proof (last_forallb is_word _ Hne Hall) as Hl.
      destruct (last (take (S n) run)); done. }
    assert (Hhead : is_word_opt (head (drop (S n) run ++ rest)) = true).
    { destruct (drop (S n) run) as [|x d] eqn:Hd; [done|]. simpl.
      apply is_az_word. rewrite forallb_forall in Haz. apply Haz.
      apply list_elem_of_In. apply (subseteq_drop (S n) run). rewrite Hd. by left. }
    unfold boundary. rewrite Hlast, Hhead. simpl. apply IH. lia.
Qed.

Lemma match_here_stops (prev : option ascii) (s : list ascii) :
  stops is_word s -> match_here prev s = None.
Proof.
  intros Hstop. unfold match_here, span_az.
  rewrite (span_stops is_az s (stops_word_az s Hstop)). simpl.
  by destruct (boundary prev (head s)).
Qed.

Lemma match_here_inside (prev : option ascii) (s : list ascii) :
  is_word_opt prev = true -> is_word_opt (head s) = true -> match_here prev s = None.
Proof. intros Hp Hs. unfold match_here, boundary. by rewrite Hp, Hs. Qed.

Lemma match_here_plain (prev : option ascii) (w rest : list ascii) :
  is_word_opt prev = false -> plain_word w = true -> stops is_word rest ->
  match_here prev (w ++ rest) = Some (w, rest).
Proof.
  intros Hp [Hlen Haz]%andb_true_iff Hstop.
  apply Nat.leb_le in Hlen.
  assert (Hne : w <> []) by (destruct w; [simpl in Hlen; lia | done]).
  pose proof (last_forallb is_word w Hne (forallb_az_word w Haz)) as Hlast.
  unfold match_here, span_az.
  rewrite (span_all is_az w rest Haz (stops_word_az rest Hstop)).
  assert (Hb : boundary prev (head (w ++ rest)) = true).
  { unfold boundary. rewrite Hp. destruct w as [|c w]; [done|]. simpl.
    simpl in Haz. apply andb_true_iff in Haz as [Hc _]. by apply is_az_word. }
  rewrite Hb, backtrack_unfold.
  destruct (Nat.ltb_spec (length w) 3); [lia|].
  rewrite firstn_all, drop_all. simpl.
  unfold boundary. unfold stops in Hstop.
  destruct (last w) as [x|]; [|done]. simpl in Hlast. simpl. rewrite Hlast.
  destruct (head rest) as [y|]; simpl in *; by rewrite ?Hstop.
Qed.

Lemma match_here_not_plain (prev : option ascii) (w rest : list ascii) :
  plain_word w = false -> forallb is_word w = true -> stops is_word rest ->
  match_here prev (w ++ rest) = None.
Proof.
  intros Hplain Hword Hstop. unfold match_here, span_az.
  destruct (boundary prev (head (w ++ rest))); [|done].
  destruct (span_spec is_az (w ++ rest)) as (Hs & Haz & Hstop').
  destruct (span is_az (w ++ rest)) as [run rest'] eqn:Hspan. simpl in *.
  destruct (is_word_opt (head rest')) eqn:Hnext.
  - by apply backtrack_inside.
  - assert (Hw : span is_word (w ++ rest) = (w, rest)) by by apply span_all.
    assert (Hr : span is_word (run ++ rest') = (run, rest')).
    { apply span_all; [by apply forallb_az_word|].
      unfold stops. by destruct (head rest'). }
    rewrite <- Hs, Hw in Hr. injection Hr as <- <-.
    unfold plain_word in Hplain. rewrite Haz, andb_true_r in Hplain.
    apply Nat.leb_gt in Hplain. by apply backtrack_short.
Qed.

Lemma scan_spec (fuel : nat) :
  forall (s : list ascii) (prev : option ascii),
    length s < fuel ->
    scan fuel prev s
    = keep (runs is_word [] (if is_word_opt prev then (span is_word s).2 else s)).
Proof.
  induction fuel as [|fuel IH]; intros s prev Hfuel; [lia|].
  simpl.
  destruct s as [|c s].
  - rewrite match_here_stops by done. by destruct (is_word_opt prev).
  - simpl in Hfuel. destruct (is_word c) eqn:Hc.
    + destruct (is_word_opt prev) eqn:Hp.
      * rewrite match_here_inside by done.
        rewrite IH by lia. simpl. rewrite Hc.
        by destruct (span is_word s).
      * destruct (span_spec is_word s) as (Hs & Hall & Hstop).
        destruct (span is_word s) as [w rest] eqn:Hspan. simpl in Hs, Hall, Hstop.
        assert (Hlen : length s = length w + length rest)
          by (rewrite Hs at 1; apply length_app).
        rewrite Hs. change (c :: w ++ rest) with ((c :: w) ++ rest).
        assert (Hcw : forallb is_word (c :: w) = true) by (simpl; by rewrite Hc).
        rewrite (runs_word is_word (c :: w) rest ltac:(done) Hcw Hstop).
        unfold keep. simpl List.filter.
        destruct (plain_word (c :: w)) eqn:Hplain.
        -- rewrite (match_here_plain prev (c :: w) rest Hp Hplain Hstop).
           rewrite IH by lia.
           pose proof (last_forallb is_word (c :: w) ltac:(done) Hcw) as Hlast.
           destruct (last (c :: w)) as [x|]; [|done]. simpl in Hlast.
           simpl is_word_opt. rewrite Hlast, (span_stops is_word rest Hstop).
           reflexivity.
        -- rewrite (match_here_not_plain prev (c :: w) rest Hplain Hcw Hstop).
           change ((c :: w) ++ rest) with (c :: (w ++ rest)). rewrite <- Hs.
           rewrite IH by lia. simpl is_word_opt. rewrite Hc, Hspan. reflexivity.
    + assert (Hstop : stops is_word (c :: s)) by exact Hc.
      rewrite (match_here_stops prev (c :: s) Hstop).
      rewrite IH by lia. simpl is_word_opt. rewrite Hc.
      rewrite (span_stops is_word (c :: s) Hstop).
      destruct (is_word_opt prev); cbn [snd];
        by rewrite (runs_skip is_word (c :: s) Hstop).
Qed.

Lemma findall_whole_words (text : string) : findall_words text = whole_words text.
Proof. unfold findall_words, whole_words. by rewrite scan_spec by lia. Qed.

(** ** Deduplication *)

Lemma filter_twice {A : Type} (p q : A -> bool) (l : list A) :
  List.filter p (List.filter q l) = List.filter (fun x => q x && p x) l.
Proof.
  induction l as [|x l IH]; [done|]. simpl.
  destruct (q x); simpl; [|done]. destruct (p x); by rewrite IH.
Qed.

Lemma dedupe_loop_spec (words : list string) :
  forall (kws : list string) (seen : gset string),
    (forall x, x ∈ seen <-> x ∈ kws) ->
    dedupe_loop words kws seen
    = kws ++ List.filter (unseen kws) (first_occurrences (List.filter not_stopword words)).
Proof.
  induction words as [|w words IH]; intros kws seen Hseen; simpl.
  - by rewrite app_nil_r.
  - fold (not_stopword w). destruct (not_stopword w) eqn:Hstop; simpl.
    + destruct (bool_decide (w ∉ seen)) eqn:Hnew.
      * apply bool_decide_eq_true in Hnew.
        rewrite (IH (kws ++ [w]) ({[w]} ∪ seen)).
        2:{ intros x. rewrite elem_of_union, elem_of_singleton, elem_of_app,
              list_elem_of_singleton, Hseen. tauto. }
        assert (Hw : unseen kws w = true).
        { apply bool_decide_eq_true. by rewrite <- Hseen. }
        rewrite Hw, <- app_assoc. simpl. do 2 f_equal.
        rewrite filter_twice. apply filter_ext. intros x.
        unfold unseen.
        destruct (String.eqb_spec x w) as [->|Hne]; simpl.
        -- apply bool_decide_eq_false. intros Hn. apply Hn, elem_of_app.
           right. by left.
        -- apply bool_decide_ext. rewrite elem_of_app, list_elem_of_singleton. tauto.
      * apply bool_decide_eq_false in Hnew.
        assert (Hin : w ∈ kws) by (apply Hseen; by apply dec_stable).
        rewrite (IH kws seen Hseen).
        assert (Hw : unseen kws w = false) by (apply bool_decide_eq_false; tauto).
        rewrite Hw. f_equal.
        rewrite filter_twice. apply filter_ext. intros x.
        destruct (String.eqb_spec x w) as [->|Hne]; simpl; [by rewrite Hw | done].
    + by apply IH.
Qed.

Lemma unseen_nil (l : list string) : List.filter (unseen []) l = l.
Proof.
  induction l as [|x l IH]; [done|]. simpl.
  replace (unseen [] x) with true; [by rewrite IH|].
  symmetry. apply bool_decide_eq_true. apply not_elem_of_nil.
Qed.

Lemma extract_refines (subject body : string) :
  _extract_keywords subject body = extract_whole_words subject body.
Proof.
  unfold _extract_keywords, extract_whole_words.
  rewrite findall_whole_words, (dedupe_loop_spec _ [] ∅).
  - simpl. by rewrite unseen_nil.
  - intros x. rewrite elem_of_empty. split; [done|]. apply not_elem_of_nil.
Qed.

Lemma first_occurrences_subset (l : list string) (x : string) :
  x ∈ first_occurrences l -> x ∈ l.
Proof.
  induction l as [|y l IH]; [done|]. simpl.
  rewrite !elem_of_cons. intros [->|Hx]; [by left|].
  right. apply IH. apply list_elem_of_In in Hx. apply filter_In in Hx as [Hx _].
  by apply list_elem_of_In.
Qed.

Lemma first_occurrences_NoDup (l : list string) : NoDup (first_occurrences l).
Proof.
  induction l as [|y l IH]; simpl; [constructor|].
  constructor.
  - intros Hy. apply list_elem_of_In, filter_In in Hy as [_ Hy].
    by rewrite String.eqb_refl in Hy.
  - apply NoDup_ListNoDup. apply List.NoDup_filter. by apply NoDup_ListNoDup.
Qed.

Lemma length_string_of_list (w : list ascii) :
  String.length (string_of_list_ascii w) = length w.
Proof. induction w as [|c w IH]; simpl; congruence. Qed.

Lemma lower_char_az (c : ascii) : is_az c = true -> lower_char c = c.
Proof.
  unfold is_az, lower_char, in_range. intros [H1 H2]%andb_true_iff.
  apply N.leb_le in H1, H2.
  replace ((65 <=? code c)%N && (code c <=? 90)%N) with false
    by (symmetry; apply andb_false_iff; right; apply N.leb_gt; lia).
  replace ((192 <=? code c)%N && (code c <=? 222)%N) with false
    by (symmetry; apply andb_false_iff; left; apply N.leb_gt; lia).
  reflexivity.
Qed.

Lemma lower_plain (w : list ascii) :
  forallb is_az w = true -> lower (string_of_list_ascii w) = string_of_list_ascii w.
Proof.
  induction w as [|c w IH]; [done|]. simpl.
  intros [Hc Hw]%andb_true_iff. by rewrite (lower_char_az c Hc), IH.
Qed.

Lemma whole_words_plain (text kw : string) :
  kw ∈ whole_words text ->
  exists w, kw = string_of_list_ascii w /\ plain_word w = true.
Proof.
  unfold whole_words. intros (w & -> & Hw)%list_elem_of_fmap.
  exists w. split; [done|].
  apply list_elem_of_In, filter_In in Hw. tauto.
Qed.

(** ** The claims about the keyword extractor *)

(** C7, as worded, fails: in "Migrate build_server" the letters of "build"
    and of "server" are runs of alphabetic characters, and the expression
    [\b[a-z]{3,}\b] finds neither, the underscore being a word character. *)
Lemma C7_counterexample : ~ keywords_as_stated.
Proof.
  intros Hstated. specialize (Hstated "Migrate build_server" "").
  vm_compute in Hstated. discriminate Hstated.
Qed.

(** C7, amended. For every subject and body, [_extract_keywords] returns at
    most 10 distinct lowercase terms, computed by: lowercasing subject, a
    space and body; taking the whole words of that text, a word being a
    maximal run of word characters (letters, digits, underscore), that
    consist of 3 or more letters a-z; dropping the stopwords; deduplicating
    while keeping the order of first occurrence; truncating to 10. Equal
    inputs give equal outputs. *)
Theorem C7_extract_keywords (subject body : string) :
  _extract_keywords subject body = extract_whole_words subject body /\
  length (_extract_keywords subject body) <= 10 /\
  NoDup (_extract_keywords subject body) /\
  (forall kw : string,
      kw ∈ _extract_keywords subject body ->
      3 <= String.length kw /\
      forallb is_az (list_ascii_of_string kw) = true /\
      lower kw = kw /\
      kw ∉ stopwords) /\
  (forall subject' body' : string,
      subject' = subject -> body' = body ->
      _extract_keywords subject' body' = _extract_keywords subject body).
Proof.
  split; [apply extract_refines|]. rewrite extract_refines.
  unfold extract_whole_words.
  split; [rewrite length_take; lia|].
  split.
  { eapply sublist_NoDup; [apply first_occurrences_NoDup | apply sublist_take]. }
  split.
  - intros kw Hkw. apply (subseteq_take 10) in Hkw.
    apply first_occurrences_subset, list_elem_of_In, filter_In in Hkw as [Hkw Hstop].
    apply bool_decide_eq_true in Hstop.
    apply list_elem_of_In, whole_words_plain in Hkw as (w & -> & Hplain).
    apply andb_true_iff in Hplain as [Hlen Haz]. apply Nat.leb_le in Hlen.
    rewrite length_string_of_list, list_ascii_of_string_of_list_ascii.
    split; [exact Hlen|]. split; [exact Haz|]. split; [by apply lower_plain | exact Hstop].
  - intros ? ? -> ->. apply extract_refines.
Qed.

Lemma C7_extract_keywords_witness :
  3 <= String.length "pipeline" /\ lower "pipeline" = "pipeline" /\
  "pipeline" ∉ stopwords.
Proof.
  destruct (C7_extract_keywords "Re: Q3 Spark Pipeline Sync"
              "Discuss Spark optimization for the pipeline")
    as (_ & _ & _ & Hterms & _).
  destruct (Hterms "pipeline") as (Hlen & _ & Hlower & Hstop).
  - by_evaluation.
  - repeat split; assumption.
Defined.

(* ===================================================================== *)
(** * Proofs: delegate suggestions                                        *)
(* ===================================================================== *)

(** ** The stable sort *)

Section Sorting.
Context {A : Type} (key : A -> nat).

Lemma insert_reverse_perm (x : A) (l : list A) : insert_reverse key x l ≡ₚ x :: l.
Proof.
  induction l as [|y l IH]; simpl; [done|].
  destruct (key x <? key y)%nat; [|done].
  rewrite IH. apply Permutation_swap.
Qed.

Lemma sorted_reverse_perm (l : list A) : sorted_reverse key l ≡ₚ l.
Proof.
  induction l as [|x l IH]; simpl; [done|].
  by rewrite insert_reverse_perm, IH.
Qed.





End Sorting.

(** ** First occurrences *)

Lemma first_occurrences_elem (l : list string) (x : string) :
  x ∈ first_occurrences l <-> x ∈ l.
Proof.
  split; [apply first_occurrences_subset|].
  induction l as [|y l IH]; [done|]. simpl.
  rewrite !elem_of_cons. intros [->|Hx]; [by left|].
  destruct (String.eqb_spec x y) as [->|Hne]; [by left|]. right.
  apply list_elem_of_In, filter_In. split; [by apply list_elem_of_In, IH|].
  apply negb_true_iff. by apply String.eqb_neq.
Qed.

Lemma first_occurrences_snoc (l : list string) (a : string) :
  first_occurrences (l ++ [a])
  = first_occurrences l ++ (if bool_decide (a ∈ l) then [] else [a]).
Proof.
  induction l as [|y l IH]; simpl.
  - done.
  - rewrite IH, List.filter_app. f_equal. f_equal.
    destruct (String.eqb_spec a y) as [->|Hne].
    + rewrite (bool_decide_eq_true_2 (y ∈ y :: l)) by by left.
      destruct (bool_decide (y ∈ l)); simpl; [done|]. by rewrite String.eqb_refl.
    + rewrite (bool_decide_ext (a ∈ y :: l) (a ∈ l)).
      2:{ rewrite elem_of_cons. tauto. }
      destruct (bool_decide (a ∈ l)); simpl; [done|].
      apply String.eqb_neq in Hne. by rewrite Hne.
Qed.

(** ** The table of scores *)

Lemma credit_table (K : list string) (f g : string -> Contributor.entry)
      (key : string) (addr : value) (n : nat) (kws : list string) :
  NoDup K ->
  (forall k, k ∈ K -> k <> key -> g k = f k) ->
  (key ∈ K ->
   g key = Contributor.Entry (Contributor.e_name (f key)) (Contributor.e_email (f key))
             (Contributor.e_score (f key) + n)
             (Contributor.e_topics (f key) ∪ list_to_set kws)) ->
  (key ∉ K -> g key = Contributor.Entry key addr (0 + n) (∅ ∪ list_to_set kws)) ->
  credit key addr n kws ((fun k => (k, f k)) <$> K)
  = (fun k => (k, g k)) <$> (K ++ if bool_decide (key ∈ K) then [] else [key]).
Proof.
  induction K as [|k K IH]; intros Hnodup Hother Hold Hnew; simpl.
  - rewrite Hnew; [done | apply not_elem_of_nil].
  - apply NoDup_cons in Hnodup as [Hk Hnodup].
    destruct (String.eqb_spec k key) as [->|Hne].
    + rewrite (bool_decide_eq_true_2 (key ∈ key :: K)) by by left.
      rewrite app_nil_r, Hold by by left. f_equal.
      apply list_fmap_ext. intros i k Hik. f_equal. symmetry.
      apply list_elem_of_lookup_2 in Hik.
      apply Hother; [by right | by intros ->].
    + rewrite (bool_decide_ext (key ∈ k :: K) (key ∈ K)).
      2:{ rewrite elem_of_cons. split; [intros [?|?]; [congruence|done] | tauto]. }
      rewrite Hother by (by left || done). f_equal.
      apply IH; [done| | |].
      * intros k' Hk'. apply Hother. by right.
      * intros Hin. apply Hold. by right.
      * intros Hin. apply Hnew. rewrite elem_of_cons. intros [?|?]; [congruence|done].
Qed.

Section Table.
Variables (keywords : list string) (excluded : gset string).

Lemma score_email_spec (scores : list (string * Contributor.entry)) (email : Email.t) :
  score_email keywords excluded scores email
  = if qualifies keywords excluded email
    then credit (sender_name email) (sender_email email) (length (matched keywords email))
                (matched keywords email) scores
    else scores.
Proof.
  unfold score_email, qualifies.
  destruct (length (matched keywords email) =? 0)%nat; simpl; [done|].
  by destruct (negb (String.eqb (sender_name email) "")
               && bool_decide (lower (sender_name email) ∉ excluded)).
Qed.

Lemma by_sender_snoc (emails : list Email.t) (x : Email.t) (name : string) :
  by_sender keywords excluded (emails ++ [x]) name
  = by_sender keywords excluded emails name
    ++ (if qualifies keywords excluded x && sent_by name x then [x] else []).
Proof.
  unfold by_sender. rewrite !List.filter_app. f_equal. simpl.
  destruct (qualifies keywords excluded x); simpl; [|done].
  by destruct (sent_by name x).
Qed.

Lemma senders_elem (emails : list Email.t) (name : string) :
  name ∈ senders keywords excluded emails <->
  exists e, e ∈ emails /\ qualifies keywords excluded e = true /\ sender_name e = name.
Proof.
  unfold senders. rewrite first_occurrences_elem, list_elem_of_fmap.
  split.
  - intros (e & -> & He). apply list_elem_of_In, filter_In in He as [He Hq].
    exists e. by rewrite list_elem_of_In.
  - intros (e & He & Hq & <-). exists e. split; [done|].
    apply list_elem_of_In, filter_In. by rewrite <- list_elem_of_In.
Qed.

Lemma by_sender_nil (emails : list Email.t) (name : string) :
  name ∉ senders keywords excluded emails -> by_sender keywords excluded emails name = [].
Proof.
  intros Hnot. unfold by_sender.
  destruct (List.filter (sent_by name) (List.filter (qualifies keywords excluded) emails)) as [|e l] eqn:Hf; [done|].
  exfalso. apply Hnot, senders_elem.
  assert (He : In e (List.filter (sent_by name) (List.filter (qualifies keywords excluded) emails))) by (rewrite Hf; by left).
  apply filter_In in He as [He Hs]. apply filter_In in He as [He Hq].
  exists e. rewrite list_elem_of_In. repeat split; try done.
  by apply String.eqb_eq.
Qed.

Lemma by_sender_cons (emails : list Email.t) (name : string) :
  name ∈ senders keywords excluded emails -> by_sender keywords excluded emails name <> [].
Proof.
  intros (e & He & Hq & Hn)%senders_elem Hnil.
  assert (Hin : In e (by_sender keywords excluded emails name)).
  { apply filter_In. split; [apply filter_In; by rewrite <- list_elem_of_In|].
    by apply String.eqb_eq. }
  by rewrite Hnil in Hin.
Qed.

Lemma senders_snoc (emails : list Email.t) (x : Email.t) :
  senders keywords excluded (emails ++ [x])
  = senders keywords excluded emails
    ++ (if qualifies keywords excluded x
        then if bool_decide (sender_name x ∈ senders keywords excluded emails)
             then [] else [sender_name x]
        else []).
Proof.
  unfold senders. rewrite List.filter_app. simpl.
  destruct (qualifies keywords excluded x).
  - rewrite fmap_app. simpl. rewrite first_occurrences_snoc.
    f_equal. apply (f_equal (fun b : bool => if b then [] else [sender_name x])).
    apply bool_decide_ext. by rewrite first_occurrences_elem.
  - by rewrite !app_nil_r.
Qed.

Lemma senders_NoDup (emails : list Email.t) : NoDup (senders keywords excluded emails).
Proof. apply first_occurrences_NoDup. Qed.

Lemma entry_of_snoc_other (emails : list Email.t) (x : Email.t) (name : string) :
  qualifies keywords excluded x && sent_by name x = false ->
  entry_of keywords excluded (emails ++ [x]) name
  = entry_of keywords excluded emails name.
Proof.
  intros Hx. unfold entry_of, address_of, score_of, topics_of.
  fold (by_sender keywords excluded (emails ++ [x]) name). fold (by_sender keywords excluded emails name).
  by rewrite by_sender_snoc, Hx, app_nil_r.
Qed.

Lemma entry_of_snoc_old (emails : list Email.t) (x : Email.t) :
  qualifies keywords excluded x = true ->
  sender_name x ∈ senders keywords excluded emails ->
  entry_of keywords excluded (emails ++ [x]) (sender_name x)
  = let e := entry_of keywords excluded emails (sender_name x) in
    Contributor.Entry (Contributor.e_name e) (Contributor.e_email e)
                      (Contributor.e_score e + length (matched keywords x))
                      (Contributor.e_topics e ∪ list_to_set (matched keywords x)).
Proof.
  intros Hq Hin. unfold entry_of, address_of, score_of, topics_of. simpl.
  fold (by_sender keywords excluded (emails ++ [x]) (sender_name x)). fold (by_sender keywords excluded emails (sender_name x)).
  assert (Hs : sent_by (sender_name x) x = true) by apply String.eqb_refl.
  rewrite by_sender_snoc, Hq, Hs. simpl.
  pose proof (by_sender_cons emails _ Hin) as Hne.
  f_equal.
  - by destruct (by_sender keywords excluded emails (sender_name x)).
  - rewrite sum_list_with_app. simpl. lia.
  - rewrite bind_app, list_to_set_app_L. simpl. by rewrite app_nil_r.
Qed.

Lemma entry_of_snoc_new (emails : list Email.t) (x : Email.t) :
  qualifies keywords excluded x = true ->
  sender_name x ∉ senders keywords excluded emails ->
  entry_of keywords excluded (emails ++ [x]) (sender_name x)
  = Contributor.Entry (sender_name x) (sender_email x) (0 + length (matched keywords x))
                      (∅ ∪ list_to_set (matched keywords x)).
Proof.
  intros Hq Hnot. unfold entry_of, address_of, score_of, topics_of.
  fold (by_sender keywords excluded (emails ++ [x]) (sender_name x)).
  assert (Hs : sent_by (sender_name x) x = true) by apply String.eqb_refl.
  rewrite by_sender_snoc, Hq, Hs, (by_sender_nil emails _ Hnot). simpl.
  rewrite Nat.add_0_r, app_nil_r, union_empty_l_L. reflexivity.
Qed.

(** The loop over the emails builds the table of the senders. *)
Lemma table_spec (emails : list Email.t) :
  foldl (score_email keywords excluded) [] emails = table_of keywords excluded emails.
Proof.
  induction emails as [|x emails IH] using rev_ind; [done|].
  rewrite foldl_app. simpl. rewrite IH, score_email_spec.
  unfold table_of. rewrite senders_snoc.
  destruct (qualifies keywords excluded x) eqn:Hq.
  - apply credit_table.
    + apply senders_NoDup.
    + intros k Hk Hne. apply entry_of_snoc_other.
      apply andb_false_iff. right. unfold sent_by. apply String.eqb_neq. congruence.
    + intros Hin. by rewrite entry_of_snoc_old.
    + intros Hnot. by apply entry_of_snoc_new.
  - rewrite app_nil_r. apply list_fmap_ext. intros i k Hik. f_equal.
    symmetry. apply entry_of_snoc_other. by rewrite Hq.
Qed.

End Table.

(** ** The ranking *)

Lemma insert_reverse_fmap {A B : Type} (f : A -> B) (key : B -> nat) (x : A) (l : list A) :
  insert_reverse key (f x) (f <$> l) = f <$> insert_reverse (fun a => key (f a)) x l.
Proof.
  induction l as [|y l IH]; [done|]. simpl in *.
  destruct (key (f x) <? key (f y))%nat; simpl; [|done]. by f_equal.
Qed.

Lemma sorted_reverse_fmap {A B : Type} (f : A -> B) (key : B -> nat) (l : list A) :
  sorted_reverse key (f <$> l) = f <$> sorted_reverse (fun a => key (f a)) l.
Proof.
  induction l as [|x l IH]; [done|].
  change (sorted_reverse key (f <$> x :: l))
    with (insert_reverse key (f x) (sorted_reverse key (f <$> l))).
  rewrite IH. apply insert_reverse_fmap.
Qed.


Lemma qualifies_spec (keywords : list string) (excluded : gset string) (e : Email.t) :
  qualifies keywords excluded e = true <->
  matched keywords e <> [] /\ sender_name e <> "" /\ lower (sender_name e) ∉ excluded.
Proof.
  unfold qualifies. rewrite !andb_true_iff, !negb_true_iff, bool_decide_eq_true.
  rewrite Nat.eqb_neq, String.eqb_neq, length_zero_iff_nil. tauto.
Qed.


Lemma rank_contributors_spec (so : SetOrder) (keywords : list string)
      (excluded : gset string) (emails : list Email.t) :
  rank_contributors so keywords excluded emails
  = (fun name => report so (entry_of keywords excluded emails name))
      <$> take 3 (sorted_reverse (score_of keywords excluded emails)
                    (senders keywords excluded emails)).
Proof.
  unfold rank_contributors. rewrite table_spec. unfold table_of.
  change (List.map snd) with (fmap (M:=list) (@snd string Contributor.entry)).
  change (List.map (report so)) with (fmap (M:=list) (report so)).
  rewrite <- list_fmap_compose.
  rewrite (sorted_reverse_fmap (entry_of keywords excluded emails) Contributor.e_score).
  rewrite <- fmap_take, <- list_fmap_compose. reflexivity.
Qed.

(** ** The finder on dictionaries *)

Ltac outcome_steps :=
  unfold mbind, outcome_mbind, mret, outcome_mret; cbn [outcome_bind].

(** [if name and name.lower() not in excluded], for any [name]. *)
Lemma credit_when {T : Type} (name : value) (excluded : gset string)
      (credited : string -> T) (skipped : T) :
  (if truthy name
   then outcome_bind (fun lowered => if bool_decide (lowered ∉ excluded)
                                     then Returned (credited (str name))
                                     else Returned skipped)
                     (method_lower name)
   else Returned skipped)
  = match name with
    | VStr x => Returned (if negb (String.eqb x "") && bool_decide (lower x ∉ excluded)
                          then credited x else skipped)
    | _ => if truthy name then Raised (AttributeError name "lower") else Returned skipped
    end.
Proof.
  destruct name as [|b|n|x|l|d]; cbn [truthy method_lower outcome_bind str]; try reflexivity.
  - destruct (String.eqb x ""); cbn [negb andb]; [done|].
    by destruct (bool_decide (lower x ∉ excluded)).
Qed.

(** One turn of the loop depends on the email through what it reads of it. *)
Lemma score_email_read (keywords : list string) (excluded : gset string)
      (scores : list (string * Contributor.entry)) (email : value) :
  Dicts.score_email keywords excluded scores email
  = outcome_bind (fun read => Returned (score_email keywords excluded scores read))
                 (read_email keywords email).
Proof.
  unfold Dicts.score_email, read_email. outcome_steps.
  destruct email as [| | | | |d]; try reflexivity.
  cbn [get outcome_bind].
  destruct (from_option id (VStr "") (lookup_key "subject" d)) as [| | |s| |];
    try reflexivity.
  cbn [method_lower text_of outcome_bind].
  destruct (from_option id (from_option id (VStr "") (lookup_key "body" d))
                        (lookup_key "bodyPreview" d)) as [| | |b| |];
    try reflexivity.
  cbn [method_lower text_of outcome_bind]. cbv zeta.
  unfold score_email, matched, email_text, sender_name, sender_email.
  cbn [Email.subject Email.bodyPreview Email.body Email.from default from_option id].
  set (matches := List.filter (fun kw => contains kw (lower s ++ " " ++ lower b)%string)
                              keywords).
  destruct (length matches =? 0)%nat eqn:Hm.
  - cbn [outcome_bind Email.subject Email.bodyPreview Email.body default from_option id].
    fold matches. by rewrite Hm.
  - assert (Hstep : forall (name addr : value),
               (if truthy name
                then outcome_bind
                       (fun lowered => if bool_decide (lowered ∉ excluded)
                                       then Returned (credit (str name) addr (length matches)
                                                             matches scores)
                                       else Returned scores)
                       (method_lower name)
                else Returned scores)
               = match name with
                 | VStr x =>
                     Returned (if negb (String.eqb x "") && bool_decide (lower x ∉ excluded)
                               then credit x addr (length matches) matches scores
                               else scores)
                 | _ => if truthy name then Raised (AttributeError name "lower")
                        else Returned scores
                 end).
    { intros name addr.
      apply (credit_when name excluded
               (fun key => credit key addr (length matches) matches scores) scores). }
    destruct (from_option id (VDict []) (lookup_key "from" d)) as [| | | | |sd] eqn:Hs;
      rewrite Hstep;
      cbn [read_sender outcome_bind Email.subject Email.bodyPreview Email.body Email.from
           default from_option id str];
      fold matches; rewrite ?Hm; try reflexivity.
    destruct (lookup_key "name" sd) as [[|b0|n|n|l|d0]|] eqn:Hn;
      cbn [from_option id truthy outcome_bind Email.subject Email.bodyPreview Email.body
           Email.from default];
      fold matches; rewrite ?Hm; try reflexivity.
    + destruct b0;
        cbn [outcome_bind Email.subject Email.bodyPreview Email.body Email.from default
             from_option id];
        fold matches; rewrite ?Hm; reflexivity.
    + destruct (negb (n =? 0)%Z);
        cbn [outcome_bind Email.subject Email.bodyPreview Email.body Email.from default
             from_option id];
        fold matches; rewrite ?Hm; reflexivity.
    + destruct l;
        cbn [outcome_bind Email.subject Email.bodyPreview Email.body Email.from default
             from_option id];
        fold matches; rewrite ?Hm; reflexivity.
    + destruct d0;
        cbn [outcome_bind Email.subject Email.bodyPreview Email.body Email.from default
             from_option id];
        fold matches; rewrite ?Hm; reflexivity.
Qed.

Lemma for_each_read (keywords : list string) (excluded : gset string)
      (corpus : list value) :
  forall scores : list (string * Contributor.entry),
    for_each (Dicts.score_email keywords excluded) scores corpus
    = outcome_bind (fun read => Returned (foldl (score_email keywords excluded) scores read))
                   (comprehension (read_email keywords) corpus).
Proof.
  induction corpus as [|email corpus IH]; intros scores; [done|].
  cbn [for_each comprehension]. rewrite score_email_read.
  destruct (read_email keywords email) as [read|e]; cbn [outcome_bind]; [|done].
  rewrite IH. by destruct (comprehension (read_email keywords) corpus).
Qed.

(** The finder, stage by stage. *)
Lemma find_alternatives_read (so : SetOrder) (meeting : dict) (emails exclude : value) :
  Dicts._find_alternative_contributors so (VDict meeting) emails exclude
  = outcome_bind
      (fun excluded =>
         outcome_bind
           (fun read => Returned (rank_contributors so (keywords_of meeting) excluded read))
           (read_emails (keywords_of meeting) emails))
      (Dicts.exclude_names exclude).
Proof.
  unfold Dicts._find_alternative_contributors, read_emails. outcome_steps.
  cbn [get outcome_bind]. fold (keywords_of meeting).
  destruct (Dicts.exclude_names exclude) as [excluded|e]; cbn [outcome_bind]; [|done].
  destruct (iter emails) as [corpus|e]; cbn [outcome_bind]; [|done].
  rewrite for_each_read.
  by destruct (comprehension (read_email (keywords_of meeting)) corpus).
Qed.




(** ** The records and the dictionaries they stand for *)














(* ===================================================================== *)
(** * Proofs: the tool invoker, the trace and serialisation           *)
(* ===================================================================== *)

Import Further.

Section More.
Variable h : Host.

Lemma call_tool_returns (n : string) (kw : dict) (m : Machine) (f : tool) (result : value) :
  find_tool n (_tools (self m)) = Some f ->
  f kw = Returns result ->
  decode_error h result = None ->
  call_tool h n kw m
  = (Returned (decoded h result),
     append_tool_call
       (ToolCall.Build n kw result None
          ((perf_counter h (S (perf_reads m)) - perf_counter h (perf_reads m)) * 1000)
          (utcnow_isoformat h (utcnow_reads m)))
       {| self := self m; context := context m; perf_reads := S (S (perf_reads m));
          utcnow_reads := S (utcnow_reads m); uuid_reads := uuid_reads m |}).
Proof.
  intros Hf Hr Hd. unfold call_tool. rewrite Hf. simpl. rewrite Hr.
  destruct result as [| | |s| |]; try reflexivity.
  simpl in *. destruct (json_loads h s) as [e|v]; [|reflexivity].
  by destruct (is_JSONDecodeError e).
Qed.

Lemma call_tool_undecoded (n : string) (kw : dict) (m : Machine) (f : tool)
      (result : value) (e : exn) :
  find_tool n (_tools (self m)) = Some f ->
  f kw = Returns result ->
  decode_error h result = Some e ->
  call_tool h n kw m
  = (Raised e,
     append_tool_call
       (ToolCall.Build n kw result (caught_str e)
          ((perf_counter h (S (perf_reads m)) - perf_counter h (perf_reads m)) * 1000)
          (utcnow_isoformat h (utcnow_reads m)))
       {| self := self m; context := context m; perf_reads := S (S (perf_reads m));
          utcnow_reads := S (utcnow_reads m); uuid_reads := uuid_reads m |}).
Proof.
  intros Hf Hr Hd. unfold call_tool. rewrite Hf. simpl. rewrite Hr.
  destruct result as [| | |s| |]; try discriminate Hd.
  simpl in *. destruct (json_loads h s) as [e0|v]; [|discriminate Hd].
  destruct (is_JSONDecodeError e0); [discriminate Hd|]. by injection Hd as ->.
Qed.

Lemma decoded_dict (result : value) (d : dict) :
  decoded h result = VDict d -> decode_error h result = None.
Proof.
  destruct result as [| | |s| |]; try done. simpl.
  by destruct (json_loads h s).
Qed.

Lemma call_tool_raises (n : string) (kw : dict) (m : Machine) (f : tool) (e : exn) :
  find_tool n (_tools (self m)) = Some f ->
  f kw = Raises e ->
  call_tool h n kw m
  = (Raised e,
     append_tool_call
       (ToolCall.Build n kw VNone (caught_str e)
          ((perf_counter h (S (perf_reads m)) - perf_counter h (perf_reads m)) * 1000)
          (utcnow_isoformat h (utcnow_reads m)))
       {| self := self m; context := context m; perf_reads := S (S (perf_reads m));
          utcnow_reads := S (utcnow_reads m); uuid_reads := uuid_reads m |}).
Proof.
  intros Hf Hr. unfold call_tool. rewrite Hf. simpl. by rewrite Hr.
Qed.

(** Sequencing two pieces of a body. *)
Lemma exec_bind {A B : Type} (p : prog A) (f : A -> prog B) :
  forall m : Machine,
    exec h (bind p f) m
    = match exec h p m with
      | (Returned a, m1) => exec h (f a) m1
      | (Raised e, m1) => (Raised e, m1)
      end.
Proof.
  induction p as [A a|A e|A n kw k IH|A key d k IH|A key v k IH|A o s k IH|A e k IH
                 |A C body IHb c hd IHh k IHk]; intros m; simpl.
  - done.
  - done.
  - destruct (call_tool h n kw m) as [[v|e] m']; [apply IH | done].
  - apply IH.
  - apply IH.
  - apply (IH _ _ (complete h o s m).2).
  - apply (IH _ _ (fail h e m).2).
  - destruct (exec h body m) as [[b|e] m1]; [apply IHk|].
    destruct (c e); [|done].
    destruct (exec h (hd e) m1) as [[b|e'] m2]; [apply IHk | done].
Qed.

Lemma events_bind {A B : Type} (p : prog A) (f : A -> prog B) :
  forall m : Machine,
    events h (bind p f) m
    = events h p m
      ++ match exec h p m with
         | (Returned a, m1) => events h (f a) m1
         | (Raised e, m1) => []
         end.
Proof.
  induction p as [A a|A e|A n kw k IH|A key d k IH|A key v k IH|A o s k IH|A e k IH
                 |A C body IHb c hd IHh k IHk]; intros m; simpl.
  - done.
  - done.
  - destruct (call_tool h n kw m) as [[v|e] m']; simpl.
    + by rewrite IH.
    + destruct (find_tool n (_tools (self m))) as [g|]; [destruct (g kw)|];
        by rewrite app_nil_r.
  - apply IH.
  - apply IH.
  - apply (IH _ _ (complete h o s m).2).
  - apply (IH _ _ (fail h e m).2).
  - rewrite <- app_assoc. f_equal.
    destruct (exec h body m) as [[b|e] m1]; [apply IHk|].
    destruct (c e); [|done].
    rewrite <- app_assoc. f_equal.
    destruct (exec h (hd e) m1) as [[b|e'] m2]; [apply IHk | done].
Qed.

End More.

Section Frame.
Variable h : Host.

Lemma extends_refl (m : Machine) : extends h m m [].
Proof.
  unfold extends. rewrite app_nil_r. repeat split; try done.
  intros _. constructor.
Qed.

Lemma extends_trans (m1 m2 m3 : Machine) (new1 new2 : list ToolCall.t) :
  extends h m1 m2 new1 -> extends h m2 m3 new2 -> extends h m1 m3 (new1 ++ new2).
Proof.
  intros (Ht1 & Hs1 & Hn1 & Hst1 & Hc1 & Hp1 & Hd1) (Ht2 & Hs2 & Hn2 & Hst2 & Hc2 & Hp2 & Hd2).
  unfold extends. rewrite Ht2, Ht1, app_assoc.
  split; [done|]. split; [congruence|]. split; [congruence|]. split; [congruence|].
  split; [congruence|]. split; [lia|].
  intros Hm. apply Forall_app. split; [exact (Hd1 Hm) | exact (Hd2 Hm)].
Qed.

Lemma call_tool_extends (n : string) (kw : dict) (m : Machine) :
  exists new, extends h m (call_tool h n kw m).2 new /\ length new <= 1.
Proof.
  destruct (find_tool n (_tools (self m))) as [f|] eqn:Hf.
  - assert (Hd : monotone h ->
                 (0 <= (perf_counter h (S (perf_reads m)) - perf_counter h (perf_reads m))
                       * 1000)%Z).
    { intros Hm. specialize (Hm (perf_reads m) (S (perf_reads m)) ltac:(lia)). lia. }
    destruct (f kw) as [result|e] eqn:Hr; [destruct (decode_error h result) as [e|] eqn:He|].
    + rewrite (call_tool_undecoded h n kw m f result e Hf Hr He). simpl.
      eexists [_]. split; [|simpl; lia].
      unfold extends. simpl. repeat split; try done; try lia.
      intros Hm. constructor; [by apply Hd | constructor].
    + rewrite (call_tool_returns h n kw m f result Hf Hr He). simpl.
      eexists [_]. split; [|simpl; lia].
      unfold extends. simpl. repeat split; try done; try lia.
      intros Hm. constructor; [by apply Hd | constructor].
    + rewrite (call_tool_raises h n kw m f e Hf Hr). simpl.
      eexists [_]. split; [|simpl; lia].
      unfold extends. simpl. repeat split; try done; try lia.
      intros Hm. constructor; [by apply Hd | constructor].
  - unfold call_tool. rewrite Hf. simpl. exists []. split; [apply extends_refl | simpl; lia].
Qed.

Lemma complete_extends (o : value) (s : ActionStatus) (m : Machine) :
  extends h m (complete h o s m).2 [].
Proof.
  unfold extends. simpl. rewrite app_nil_r. repeat split; try done; try lia.
  intros _. constructor.
Qed.

Lemma fail_extends (e : string) (m : Machine) : extends h m (fail h e m).2 [].
Proof.
  unfold extends. simpl. rewrite app_nil_r. repeat split; try done; try lia.
  intros _. constructor.
Qed.

Lemma exec_extends {A : Type} (p : prog A) :
  forall m : Machine, exists new, extends h m (exec h p m).2 new.
Proof.
  induction p as [A a|A e|A n kw k IH|A key d k IH|A key v k IH|A o s k IH|A e k IH
                 |A C body IHb c hd IHh k IHk]; intros m; simpl.
  - exists []. apply extends_refl.
  - exists []. apply extends_refl.
  - destruct (call_tool_extends n kw m) as (new & Hnew & _).
    destruct (call_tool h n kw m) as [[v|e] m'] eqn:Hc; simpl in *.
    + destruct (IH v m') as (new' & Hnew'). eexists. eapply extends_trans; eassumption.
    + by exists new.
  - apply IH.
  - destruct (IH (with_context (ActionContext.set key v) m)) as (new & Hnew).
    exists new. exact Hnew.
  - destruct (IH (complete h o s m).1 (complete h o s m).2) as (new & Hnew).
    exists ([] ++ new). eapply extends_trans; [apply complete_extends | exact Hnew].
  - destruct (IH (fail h e m).1 (fail h e m).2) as (new & Hnew).
    exists ([] ++ new). eapply extends_trans; [apply fail_extends | exact Hnew].
  - destruct (IHb m) as (new & Hnew).
    destruct (exec h body m) as [[b|e] m1]; simpl in *.
    + destruct (IHk b m1) as (new' & Hnew'). eexists. eapply extends_trans; eassumption.
    + destruct (c e); [|by exists new].
      destruct (IHh e m1) as (new1 & Hnew1).
      pose proof (extends_trans _ _ _ _ _ Hnew Hnew1) as Hnew2.
      destruct (exec h (hd e) m1) as [[b|e'] m2]; simpl in *.
      * destruct (IHk b m2) as (new' & Hnew'). eexists. eapply extends_trans; eassumption.
      * by eexists.
Qed.

End Frame.


(** ** A call and its record *)

Lemma to_dict_plain (h : Host) (tc : ToolCall.t) :
  brace_text (ToolCall.result tc) = false ->
  ToolCall.to_dict h tc
  = Returned (VDict [("tool_name", VStr (ToolCall.tool_name tc));
                     ("arguments", VDict (ToolCall.arguments tc));
                     ("result", ToolCall.result tc);
                     ("error", ToolCall.opt_str (ToolCall.error tc));
                     ("duration_ms", VInt (ToolCall.duration_ms tc));
                     ("timestamp", VStr (ToolCall.timestamp tc))]).
Proof.
  unfold ToolCall.to_dict, brace_text.
  destruct (ToolCall.result tc) as [| | |s| |]; try reflexivity. by intros ->.
Qed.

Lemma to_dict_returns (h : Host) (tc : ToolCall.t) :
  (exists d, ToolCall.to_dict h tc = Returned d) <->
  ~ exists s msg, ToolCall.result tc = VStr s /\ String.prefix "{" s = true /\
                  json_loads h s = inl msg.
Proof.
  destruct (brace_text (ToolCall.result tc)) eqn:Hb.
  - unfold brace_text in Hb. destruct (ToolCall.result tc) as [| | |s| |] eqn:Hres;
      try discriminate Hb.
    unfold ToolCall.to_dict. rewrite Hres, Hb.
    destruct (json_loads h s) as [msg|v] eqn:Hj.
    + split.
      * intros [d Hd]. discriminate Hd.
      * intros Hno. exfalso. apply Hno. exists s, msg. done.
    + split; [|intros _; eexists; reflexivity].
      intros _ (s' & msg & Hs' & _ & Hj'). injection Hs' as <-. congruence.
  - rewrite (to_dict_plain h tc Hb).
    split; [|intros _; eexists; reflexivity].
    intros _ (s & msg & Hs & Hp & _). unfold brace_text in Hb. rewrite Hs in Hb. congruence.
Qed.

Lemma to_dict_entries (h : Host) (tc : ToolCall.t) (d : value) :
  ToolCall.to_dict h tc = Returned d ->
  get d "result" VNone
  = Returned (if brace_text (ToolCall.result tc)
              then decoded h (ToolCall.result tc)
              else ToolCall.result tc) /\
  get d "tool_name" VNone = Returned (VStr (ToolCall.tool_name tc)) /\
  get d "error" VNone = Returned (ToolCall.opt_str (ToolCall.error tc)).
Proof.
  destruct (brace_text (ToolCall.result tc)) eqn:Hb.
  - unfold brace_text in Hb. destruct (ToolCall.result tc) as [| | |s| |] eqn:Hres;
      try discriminate Hb.
    unfold ToolCall.to_dict, decoded. rewrite Hres, Hb.
    destruct (json_loads h s) as [msg|v]; [discriminate|].
    intros [= <-]. done.
  - rewrite (to_dict_plain h tc Hb). intros [= <-]. done.
Qed.

(** X1. A tool of the capability map that returns [result]. [call_tool]
    appends one record holding the name, the arguments and the undecoded
    result, and leaves the context alone. When the result is not a [str], or
    [json.loads] accepts it or rejects it with [JSONDecodeError], the call
    hands back the decoded document (the result itself in the first and the
    last case) and the record has no error. When [json.loads] raises another
    error on the result, [call_tool] raises that error, and the record
    carries the result together with the text of the error (no text for an
    error that is not an [Exception]). Serialising the record gives back,
    under ["result"], the decoded document when the result is not a [str] or
    begins with an opening brace; for any other result it gives the result
    itself, so for a JSON text that does not begin with a brace the text
    and not its decoding. *)
Theorem X1_call_tool_when_tool_returns (h : Host) (tool_name : string) (kwargs : dict)
        (m : Machine) (f : tool) (result : value) :
  find_tool tool_name (_tools (self m)) = Some f ->
  f kwargs = Returns result ->
  exists (tc : ToolCall.t) (m' : Machine),
    call_tool h tool_name kwargs m
    = (match decode_error h result with
       | None => Returned (decoded h result)
       | Some e => Raised e
       end, m') /\
    _tool_calls (self m') = _tool_calls (self m) ++ [tc] /\
    ToolCall.tool_name tc = tool_name /\
    ToolCall.arguments tc = kwargs /\
    ToolCall.result tc = result /\
    ToolCall.error tc
    = match decode_error h result with
      | None => None
      | Some e => if is_exception e then Some (exn_str e) else None
      end /\
    context m' = context m /\
    (is_str result = false -> decode_error h result = None /\ decoded h result = result) /\
    (forall s v, result = VStr s -> json_loads h s = inr v ->
                 decode_error h result = None /\ decoded h result = v) /\
    (forall s e, result = VStr s -> json_loads h s = inl e ->
                 decode_error h result
                 = (if String.eqb (exn_class e) "JSONDecodeError" then None else Some e) /\
                 decoded h result = result) /\
    (forall d, ToolCall.to_dict h tc = Returned d ->
               brace_text result = true \/ is_str result = false ->
               get d "result" VNone = Returned (decoded h result)) /\
    (forall d, ToolCall.to_dict h tc = Returned d ->
               brace_text result = false ->
               get d "result" VNone = Returned result).
Proof.
  intros Hf Hr.
  assert (Hrest : forall tc : ToolCall.t,
    ToolCall.result tc = result ->
    (is_str result = false -> decode_error h result = None /\ decoded h result = result) /\
    (forall s v, result = VStr s -> json_loads h s = inr v ->
                 decode_error h result = None /\ decoded h result = v) /\
    (forall s e, result = VStr s -> json_loads h s = inl e ->
                 decode_error h result
                 = (if String.eqb (exn_class e) "JSONDecodeError" then None else Some e) /\
                 decoded h result = result) /\
    (forall d, ToolCall.to_dict h tc = Returned d ->
               brace_text result = true \/ is_str result = false ->
               get d "result" VNone = Returned (decoded h result)) /\
    (forall d, ToolCall.to_dict h tc = Returned d ->
               brace_text result = false ->
               get d "result" VNone = Returned result)).
  { intros tc Htc. split; [by destruct result|]. split; [|split; [|split]].
    - intros s v -> Hj. simpl. by rewrite Hj.
    - intros s e -> Hj. simpl. by rewrite Hj.
    - intros d Hd Hcase. destruct (to_dict_entries h _ d Hd) as (Hres & _).
      rewrite Htc in Hres. rewrite Hres.
      destruct Hcase as [->|Hs]; [done|].
      destruct (brace_text result); [done|]. by destruct result.
    - intros d Hd Hb. destruct (to_dict_entries h _ d Hd) as (Hres & _).
      rewrite Htc in Hres. by rewrite Hres, Hb. }
  destruct (decode_error h result) as [e|] eqn:He.
  - rewrite (call_tool_undecoded h tool_name kwargs m f result e Hf Hr He).
    eexists _, _. split; [reflexivity|].
    cbn [self _tool_calls append_tool_call with_self
         ToolCall.tool_name ToolCall.arguments ToolCall.result ToolCall.error context].
    do 6 (split; [reflexivity|]). by apply Hrest.
  - rewrite (call_tool_returns h tool_name kwargs m f result Hf Hr He).
    eexists _, _. split; [reflexivity|].
    cbn [self _tool_calls append_tool_call with_self
         ToolCall.tool_name ToolCall.arguments ToolCall.result ToolCall.error context].
    do 6 (split; [reflexivity|]). by apply Hrest.
Qed.

Lemma X1_call_tool_when_tool_returns_witness :
  (exists (tc : ToolCall.t) (m' : Machine),
      call_tool scenario_host "find_colleague" [("name", VStr "Ana")]
                (meeting_prep mixed_tools)
      = (Returned (VStr "{oops"), m') /\
      ToolCall.result tc = VStr "{oops" /\ ToolCall.error tc = None) /\
  (exists (tc : ToolCall.t) (m' : Machine),
      call_tool huge_answer_host "get_todays_meetings" [] (meeting_prep huge_answer_tools)
      = (Raised (Exn "ValueError" digits_limit), m') /\
      ToolCall.result tc = VStr "huge" /\
      ToolCall.error tc = Some digits_limit).
Proof.
  split.
  - destruct (X1_call_tool_when_tool_returns scenario_host "find_colleague"
                [("name", VStr "Ana")] (meeting_prep mixed_tools)
                (fun _ => Returns (VStr "{oops")) (VStr "{oops") eq_refl eq_refl)
      as (tc & m' & Hcall & _ & _ & _ & Hres & Herr & _).
    exists tc, m'. split; [exact Hcall|]. split; assumption.
  - destruct (X1_call_tool_when_tool_returns huge_answer_host "get_todays_meetings"
                [] (meeting_prep huge_answer_tools)
                (fun _ => Returns (VStr "huge")) (VStr "huge") eq_refl eq_refl)
      as (tc & m' & Hcall & _ & _ & _ & Hres & Herr & _).
    exists tc, m'. split; [exact Hcall|]. split; assumption.
Defined.

(** X2. A tool of the capability map that raises [e]: [call_tool] raises
    the same [e], after appending one record that holds the name, the
    arguments and no result; its error is [str(e)] when [e] is an
    [Exception], and stays empty when it is not ([KeyboardInterrupt],
    [SystemExit]). That record serialises, and the context is left alone. *)
Theorem X2_call_tool_records_failure (h : Host) (tool_name : string) (kwargs : dict)
        (m : Machine) (f : tool) (e : exn) :
  find_tool tool_name (_tools (self m)) = Some f ->
  f kwargs = Raises e ->
  exists (tc : ToolCall.t) (m' : Machine),
    call_tool h tool_name kwargs m = (Raised e, m') /\
    _tool_calls (self m') = _tool_calls (self m) ++ [tc] /\
    ToolCall.tool_name tc = tool_name /\
    ToolCall.arguments tc = kwargs /\
    ToolCall.result tc = VNone /\
    ToolCall.error tc = (if is_exception e then Some (exn_str e) else None) /\
    (exists d, ToolCall.to_dict h tc = Returned d) /\
    context m' = context m.
Proof.
  intros Hf Hr. rewrite (call_tool_raises h tool_name kwargs m f e Hf Hr).
  eexists _, _. split; [reflexivity|]. simpl. repeat split.
  eexists. reflexivity.
Qed.

Lemma X2_call_tool_records_failure_witness :
  (exists (tc : ToolCall.t) (m' : Machine),
      call_tool scenario_host "search_emails" [("query", VStr "Roadmap")]
                (meeting_prep mixed_tools)
      = (Raised (Exn "ConnectionError" "mail server unreachable"), m') /\
      ToolCall.error tc = Some "mail server unreachable") /\
  (exists (tc : ToolCall.t) (m' : Machine),
      call_tool scenario_host "get_todays_meetings" [] (meeting_prep interrupted_tools)
      = (Raised (BaseExn "KeyboardInterrupt" "" false), m') /\
      ToolCall.error tc = None).
Proof.
  split.
  - destruct (X2_call_tool_records_failure scenario_host "search_emails"
                [("query", VStr "Roadmap")] (meeting_prep mixed_tools)
                (fun _ => Raises (Exn "ConnectionError" "mail server unreachable"))
                (Exn "ConnectionError" "mail server unreachable") eq_refl eq_refl)
      as (tc & m' & Hcall & _ & _ & _ & _ & Herr & _).
    exists tc, m'. split; assumption.
  - destruct (X2_call_tool_records_failure scenario_host "get_todays_meetings"
                [] (meeting_prep interrupted_tools)
                (fun _ => Raises (BaseExn "KeyboardInterrupt" "" false))
                (BaseExn "KeyboardInterrupt" "" false) eq_refl eq_refl)
      as (tc & m' & Hcall & _ & _ & _ & _ & Herr & _).
    exists tc, m'. split; assumption.
Defined.

(** X3. With a clock that does not run backwards, every record of the
    trace a run leaves has a duration that is not negative; and when
    [execute] raises, the Failed result [run] builds has a duration that is
    not negative and a trace of such records ([run] builds it for every
    [Exception]; any other exception leaves [run] as it is). *)
Theorem X3_durations_not_negative (h : Host) (execute : prog ActionResult.t) (m : Machine) :
  monotone h ->
  durations_ok (_tool_calls (self (run h execute m).2)) /\
  forall (e : exn) (m1 : Machine),
    exec h execute (enter h m) = (Raised e, m1) ->
    if is_exception e
    then exists (r : ActionResult.t) (m' : Machine),
           run h execute m = (Returned r, m') /\
           (0 <= ActionResult.duration_ms r)%Z /\
           durations_ok (ActionResult.tool_calls r)
    else run h execute m = (Raised e, m1).
Proof.
  intros Hmono.
  destruct (exec_extends h execute (enter h m)) as (new & Ht & _ & _ & Hstart & _ & Hreads & Hd).
  rewrite enter_trace in Ht. simpl in Ht.
  destruct (exec h execute (enter h m)) as [[r|e] m1] eqn:He; simpl in *.
  - rewrite (run_returned h _ _ _ _ He). simpl. rewrite Ht. split; [by apply Hd|].
    intros e m2 [=].
  - destruct (is_exception e) eqn:Hc.
    + rewrite (run_raised h _ _ _ _ He Hc). simpl. rewrite Ht. split; [by apply Hd|].
      intros e' m2 [= <- <-]. rewrite Hc. eexists _, _. split; [reflexivity|]. simpl.
      rewrite Hstart. split; [|by apply Hd].
      specialize (Hmono (perf_reads m) (perf_reads m1) ltac:(lia)). lia.
    + rewrite (run_passes h _ _ _ _ He Hc). simpl. rewrite Ht. split; [by apply Hd|].
      intros e' m2 [= <- <-]. by rewrite Hc.
Qed.

Lemma X3_durations_not_negative_witness :
  durations_ok
    (_tool_calls (self (run scenario_host MeetingPrepAction.execute
                            (meeting_prep failing_calendar_tools)).2)).
Proof.
  apply (X3_durations_not_negative scenario_host MeetingPrepAction.execute
           (meeting_prep failing_calendar_tools)).
  intros i j Hij. simpl. lia.
Defined.

(** X4. Running any piece of a body only appends to the trace: the records
    that were there stay in place, the new ones are those of the tools
    invoked, in order; the capability map and the name of the instance stay
    as they were. *)
Theorem X4_exec_only_appends (h : Host) (A : Type) (p : prog A) (m : Machine) :
  exists new : list ToolCall.t,
    _tool_calls (self (exec h p m).2) = _tool_calls (self m) ++ new /\
    ToolCall.tool_name <$> new = invoked (events h p m) /\
    _tools (self (exec h p m).2) = _tools (self m) /\
    Base.name (self (exec h p m).2) = Base.name (self m).
Proof.
  destruct (exec_extends h p m) as (new & Ht & Htools & Hname & _).
  exists new. repeat split; try done.
  pose proof (exec_trace h p m) as Hn. rewrite Ht, fmap_app in Hn.
  by apply app_inv_head in Hn.
Qed.

(** X5. A body that ends with [return self.complete(output, status)] after
    a piece [p] that returns: [run] returns a result with that status and
    output, no error, the name of the instance, and under [tools_used] the
    tools [p] invoked, in order. *)
Theorem X5_complete_snapshots_trace (h : Host) (A : Type) (p : prog A)
        (output : A -> value) (status : ActionStatus) (m m1 : Machine) (a : A) :
  exec h p (enter h m) = (Returned a, m1) ->
  exists (r : ActionResult.t) (m' : Machine),
    run h (bind p (fun x => self_complete (output x) status)) m = (Returned r, m') /\
    ActionResult.status r = status /\
    ActionResult.output r = output a /\
    ActionResult.error r = None /\
    ActionResult.action_name r = Base.name (self m) /\
    ActionResult.tools_used r = invoked (events h p (enter h m)).
Proof.
  intros He.
  assert (Hx : exec h (bind p (fun x => self_complete (output x) status)) (enter h m)
               = (Returned (complete h (output a) status m1).1,
                  (complete h (output a) status m1).2)).
  { rewrite exec_bind, He. reflexivity. }
  rewrite (run_returned h _ _ _ _ Hx). eexists _, _. split; [reflexivity|].
  destruct (exec_extends h p (enter h m)) as (new & Ht & _ & Hname & _).
  pose proof (exec_trace h p (enter h m)) as Hn.
  rewrite He in Ht, Hname, Hn. simpl in Ht, Hname, Hn.
  repeat split; try done; unfold ActionResult.tools_used; simpl; exact Hn.
Qed.

Lemma X5_complete_snapshots_trace_witness :
  exists (r : ActionResult.t) (m' : Machine),
    run scenario_host
        (bind (self_call_tool "find_colleague" [("name", VStr "Ana")])
              (fun x => self_complete x SUCCESS))
        (meeting_prep mixed_tools) = (Returned r, m') /\
    ActionResult.status r = SUCCESS /\
    ActionResult.tools_used r = ["find_colleague"].
Proof.
  destruct (X5_complete_snapshots_trace scenario_host value
              (self_call_tool "find_colleague" [("name", VStr "Ana")])
              (fun x => x) SUCCESS (meeting_prep mixed_tools)
              (exec scenario_host (self_call_tool "find_colleague" [("name", VStr "Ana")])
                 (enter scenario_host (meeting_prep mixed_tools))).2
              (VStr "{oops") eq_refl)
    as (r & m' & Hrun & Hs & _ & _ & _ & Hused).
  exists r, m'. repeat split; assumption.
Defined.

(** X6. [ToolCall.to_dict] returns exactly when the result of the record is
    not a [str] that begins with an opening brace and that [json.loads]
    rejects. When it returns, the entry ["result"] is the decoded document
    for a [str] that begins with a brace and the result itself otherwise,
    and the entries ["tool_name"] and ["error"] are those of the record. *)
Theorem X6_tool_call_to_dict_returns (h : Host) (tc : ToolCall.t) :
  ((exists d, ToolCall.to_dict h tc = Returned d) <->
   ~ exists s msg, ToolCall.result tc = VStr s /\ String.prefix "{" s = true /\
                   json_loads h s = inl msg) /\
  (forall d, ToolCall.to_dict h tc = Returned d ->
             get d "result" VNone
             = Returned (if brace_text (ToolCall.result tc)
                         then decoded h (ToolCall.result tc)
                         else ToolCall.result tc) /\
             get d "tool_name" VNone = Returned (VStr (ToolCall.tool_name tc)) /\
             get d "error" VNone = Returned (ToolCall.opt_str (ToolCall.error tc))).
Proof. split; [apply to_dict_returns | apply to_dict_entries]. Qed.

Lemma X6_tool_call_to_dict_returns_witness :
  exists d, ToolCall.to_dict scenario_host
              (ToolCall.Build "get_inbox" [] (VStr "[1]") None 1000 "2024-01-01T09:00:00")
            = Returned d /\ get d "result" VNone = Returned (VStr "[1]").
Proof.
  destruct (X6_tool_call_to_dict_returns scenario_host
              (ToolCall.Build "get_inbox" [] (VStr "[1]") None 1000 "2024-01-01T09:00:00"))
    as (_ & Hentries).
  eexists. split; [reflexivity|].
  destruct (Hentries _ eq_refl) as (Hresult & _). exact Hresult.
Defined.

Lemma comprehension_returns {A B : Type} (f : A -> outcome B) (xs : list A) :
  (exists ys, comprehension f xs = Returned ys) <->
  Forall (fun x => exists y, f x = Returned y) xs.
Proof.
  induction xs as [|x xs IH]; simpl.
  - split; [constructor | by eexists].
  - split.
    + intros [ys Hys]. destruct (f x) as [y|e] eqn:Hx; [|done].
      constructor; [by eexists|]. apply IH.
      destruct (comprehension f xs); [by eexists | done].
    + intros [[y Hy] Hrest]%Forall_cons. apply IH in Hrest as [ys Hys].
      rewrite Hy, Hys. by eexists.
Qed.

Lemma comprehension_length {A B : Type} (f : A -> outcome B) (xs : list A) (ys : list B) :
  comprehension f xs = Returned ys -> length ys = length xs.
Proof.
  revert ys. induction xs as [|x xs IH]; simpl; intros ys.
  - by intros [= <-].
  - destruct (f x); [|done]. destruct (comprehension f xs) as [zs|]; [|done].
    intros [= <-]. simpl. f_equal. by apply IH.
Qed.

(** X7. [ActionResult.to_dict] returns exactly when [to_dict] returns on
    every record of the trace. When it returns, ["status"] is the value of
    the status, ["tools_used"] lists the names of the records in order, and
    ["tool_calls"] has one entry per record. *)
Theorem X7_result_to_dict_returns (h : Host) (r : ActionResult.t) :
  ((exists d, ActionResult.to_dict h r = Returned d) <->
   Forall (fun tc => exists d, ToolCall.to_dict h tc = Returned d)
          (ActionResult.tool_calls r)) /\
  (forall d, ActionResult.to_dict h r = Returned d ->
             get d "status" VNone = Returned (VStr (status_value (ActionResult.status r))) /\
             get d "tools_used" VNone
             = Returned (VList (VStr <$> ActionResult.tools_used r)) /\
             exists tcs, get d "tool_calls" VNone = Returned (VList tcs) /\
                         length tcs = length (ActionResult.tool_calls r)).
Proof.
  unfold ActionResult.to_dict. split.
  - rewrite <- comprehension_returns.
    destruct (comprehension (ToolCall.to_dict h) (ActionResult.tool_calls r)) as [tcs|e].
    + split; intros _; eexists; reflexivity.
    + split; intros [d Hd]; discriminate Hd.
  - intros d.
    destruct (comprehension (ToolCall.to_dict h) (ActionResult.tool_calls r)) as [tcs|e] eqn:Hc;
      [|done].
    intros [= <-]. repeat split. exists tcs. split; [done|].
    by apply comprehension_length in Hc.
Qed.

Lemma X7_result_to_dict_returns_witness :
  exists d, ActionResult.to_dict scenario_host
              (fail scenario_host "No upcoming meetings found"
                    (meeting_prep empty_calendar_tools)).1 = Returned d /\
            get d "status" VNone = Returned (VStr "failed").
Proof.
  destruct (X7_result_to_dict_returns scenario_host
              (fail scenario_host "No upcoming meetings found"
                    (meeting_prep empty_calendar_tools)).1) as (_ & Hentries).
  eexists. split; [reflexivity|].
  destruct (Hentries _ eq_refl) as (Hstatus & _). exact Hstatus.
Defined.

(** X8. [ActionContext]: [get] after [set] of the same key gives the value
    that was set, whatever the default; a [set] leaves the other keys as
    they were; a key that was never set gives the default; of two [set] of
    one key the last one counts. *)
Theorem X8_context_set_get (c : ActionContext.t) (key : string) (v default : value) :
  ActionContext.get key default (ActionContext.set key v c) = v /\
  (forall key', key' <> key ->
                ActionContext.get key' default (ActionContext.set key v c)
                = ActionContext.get key' default c) /\
  (ActionContext.variables c !! key = None -> ActionContext.get key default c = default) /\
  (forall v', ActionContext.set key v' (ActionContext.set key v c)
              = ActionContext.set key v' c).
Proof.
  unfold ActionContext.get, ActionContext.set. simpl. repeat split.
  - by rewrite lookup_insert_eq.
  - intros key' Hne. by rewrite lookup_insert_ne.
  - by intros ->.
  - intros v'. by rewrite insert_insert_eq.
Qed.

Lemma X8_context_set_get_witness :
  ActionContext.get "email_id" VNone
    (ActionContext.set "meeting_id" (VStr "m-1") scenario_context) = VNone.
Proof.
  destruct (X8_context_set_get scenario_context "meeting_id" (VStr "m-1") VNone)
    as (_ & Hother & Hmissing & _).
  rewrite (Hother "email_id"); [|discriminate].
  apply (proj1 (proj2 (proj2 (X8_context_set_get scenario_context "email_id" VNone VNone)))).
  reflexivity.
Defined.

(* ===================================================================== *)
(** * Proofs: the registry                                            *)
(* ===================================================================== *)

(** ** The registry *)

Section Dict.
Context {V : Type}.

Lemma lookup_assign (key : string) (v : V) (d : list (string * V)) :
  dict_lookup key (assign key v d) = Some v.
Proof.
  induction d as [|[k x] d IH]; simpl.
  - by rewrite String.eqb_refl.
  - destruct (String.eqb_spec k key) as [->|Hne]; simpl.
    + by rewrite String.eqb_refl.
    + apply String.eqb_neq in Hne. by rewrite Hne.
Qed.

Lemma lookup_assign_ne (key key' : string) (v : V) (d : list (string * V)) :
  key' <> key -> dict_lookup key' (assign key v d) = dict_lookup key' d.
Proof.
  intros Hne. induction d as [|[k x] d IH]; simpl.
  - apply not_eq_sym, String.eqb_neq in Hne. by rewrite Hne.
  - destruct (String.eqb_spec k key) as [->|Hk]; simpl; [|by rewrite IH].
    apply not_eq_sym, String.eqb_neq in Hne. by rewrite Hne.
Qed.

Lemma keys_assign (key : string) (v : V) (d : list (string * V)) :
  (assign key v d).*1 = d.*1 ++ (if bool_decide (key ∈ d.*1) then [] else [key]).
Proof.
  induction d as [|[k x] d IH]; [done|]. cbn [assign].
  destruct (String.eqb_spec k key) as [->|Hne]; rewrite !fmap_cons; cbn [fst].
  - rewrite bool_decide_eq_true_2 by by left. by rewrite app_nil_r.
  - rewrite IH. cbn [app]. f_equal. f_equal.
    apply (f_equal (fun b : bool => if b then [] else [key])).
    apply bool_decide_ext. rewrite elem_of_cons. split; [tauto|].
    intros [?|?]; [congruence|done].
Qed.

Lemma lookup_elem (key : string) (v : V) (d : list (string * V)) :
  NoDup d.*1 -> ((key, v) ∈ d <-> dict_lookup key d = Some v).
Proof.
  induction d as [|[k x] d IH]; simpl; intros Hnd.
  - split; [intros H; by apply not_elem_of_nil in H | done].
  - apply NoDup_cons in Hnd as [Hk Hnd]. rewrite elem_of_cons, (IH Hnd).
    destruct (String.eqb_spec k key) as [->|Hne].
    + split.
      * intros [[= ->]|Hl]; [done|]. exfalso. apply Hk.
        apply (IH Hnd) in Hl. apply list_elem_of_fmap. by exists (key, v).
      * intros [= ->]. by left.
    + split; [intros [[= ? ?]|?]; [congruence|done] | by right].
Qed.

End Dict.

Lemma registered_snoc (acs : list ActionClass) (ac : ActionClass) :
  registered (acs ++ [ac]) = ActionRegistry.register ac (registered acs).
Proof. unfold registered. by rewrite foldl_app. Qed.

Lemma registered_keys (acs : list ActionClass) :
  (ActionRegistry._actions (registered acs)).*1 = first_occurrences (cls_name <$> acs).
Proof.
  induction acs as [|ac acs IH] using rev_ind; [done|].
  rewrite registered_snoc, fmap_app. simpl.
  rewrite keys_assign, first_occurrences_snoc, IH. f_equal.
  apply (f_equal (fun b : bool => if b then [] else [cls_name ac])).
  apply bool_decide_ext. apply first_occurrences_elem.
Qed.

Lemma registered_lookup (acs : list ActionClass) (name : string) :
  ActionRegistry.get name (registered acs) = last_named name acs.
Proof.
  unfold ActionRegistry.get, last_named.
  induction acs as [|ac acs IH] using rev_ind; [done|].
  rewrite registered_snoc, List.filter_app. simpl.
  destruct (String.eqb_spec (cls_name ac) name) as [<-|Hne].
  - rewrite lookup_assign. by rewrite last_snoc.
  - rewrite lookup_assign_ne by congruence. by rewrite app_nil_r.
Qed.

Lemma registered_names (acs : list ActionClass) (k : string) (ac : ActionClass) :
  (k, ac) ∈ ActionRegistry._actions (registered acs) -> cls_name ac = k.
Proof.
  pose proof (first_occurrences_NoDup (cls_name <$> acs)) as Hnd.
  rewrite <- registered_keys in Hnd.
  intros Hin. apply (lookup_elem k ac _ Hnd) in Hin.
  change (ActionRegistry.get k (registered acs) = Some ac) in Hin.
  rewrite registered_lookup in Hin. unfold last_named in Hin.
  apply last_Some_elem_of, list_elem_of_In, filter_In in Hin as [_ Hn].
  by apply String.eqb_eq.
Qed.

(** X9. [ActionRegistry.register] then [get]: the class is found under its
    name; the classes under other names stay as they were; the tools of the
    registry are untouched; and registering a second class under the same
    name replaces the first. *)
Theorem X9_register_get (reg : ActionRegistry.t) (ac : ActionClass) :
  ActionRegistry.get (cls_name ac) (ActionRegistry.register ac reg) = Some ac /\
  (forall name, name <> cls_name ac ->
                ActionRegistry.get name (ActionRegistry.register ac reg)
                = ActionRegistry.get name reg) /\
  ActionRegistry._tools (ActionRegistry.register ac reg) = ActionRegistry._tools reg /\
  (forall ac', cls_name ac' = cls_name ac ->
               ActionRegistry.get (cls_name ac)
                 (ActionRegistry.register ac' (ActionRegistry.register ac reg))
               = Some ac').
Proof.
  unfold ActionRegistry.get, ActionRegistry.register. simpl.
  split; [apply lookup_assign|]. split; [intros n Hn; by apply lookup_assign_ne|].
  split; [done|]. intros ac' <-. apply lookup_assign.
Qed.

Lemma X9_register_get_witness :
  ActionRegistry.get "meeting_prep"
    (ActionRegistry.register DailySummary
       (ActionRegistry.register MeetingPrep ActionRegistry.init))
  = Some MeetingPrep.
Proof.
  destruct (X9_register_get (ActionRegistry.register MeetingPrep ActionRegistry.init)
              DailySummary) as (_ & Hother & _).
  rewrite (Hother "meeting_prep"); [|discriminate].
  apply (proj1 (X9_register_get ActionRegistry.init MeetingPrep)).
Defined.

(** X10. After the classes [acs] were registered in this order, the names
    of the registry are the distinct names of [acs] in the order of their
    first registration, [get] finds under a name the class registered last
    under it, and [list_actions] shows, in that order of names, the metadata
    of these last classes. *)
Theorem X10_registration_order (acs : list ActionClass) :
  let reg := registered acs in
  (ActionRegistry._actions reg).*1 = first_occurrences (cls_name <$> acs) /\
  NoDup (ActionRegistry._actions reg).*1 /\
  (forall name, ActionRegistry.get name reg = last_named name acs) /\
  ActionRegistry.list_actions reg
  = (fun name => from_option metadata VNone (last_named name acs))
      <$> first_occurrences (cls_name <$> acs).
Proof.
  intros reg. split; [apply registered_keys|].
  split; [unfold reg; rewrite registered_keys; apply first_occurrences_NoDup|].
  split; [apply registered_lookup|].
  pose proof (registered_keys acs) as Hkeys.
  pose proof (first_occurrences_NoDup (cls_name <$> acs)) as Hnd.
  rewrite <- Hkeys in Hnd. rewrite <- Hkeys.
  unfold ActionRegistry.list_actions.
  change (List.map ?f ?l) with (f <$> l) at 1.
  rewrite <- list_fmap_compose. apply list_fmap_ext.
  intros i [k ac] Hi. simpl.
  apply list_elem_of_lookup_2 in Hi.
  apply (lookup_elem k ac _ Hnd) in Hi.
  change (ActionRegistry.get k (registered acs) = Some ac) in Hi.
  rewrite registered_lookup in Hi. by rewrite Hi.
Qed.

(** X12. After the classes [acs] were registered, [find_by_tag] returns a
    class exactly when the class carries the tag and is the one [get] finds
    under its name: a class replaced by a later registration under the same
    name is not returned. *)
Theorem X12_find_by_tag (acs : list ActionClass) (tag : string) (ac : ActionClass) :
  ac ∈ ActionRegistry.find_by_tag tag (registered acs) <->
  tag ∈ cls_tags ac /\ ActionRegistry.get (cls_name ac) (registered acs) = Some ac.
Proof.
  pose proof (first_occurrences_NoDup (cls_name <$> acs)) as Hnd.
  rewrite <- registered_keys in Hnd.
  unfold ActionRegistry.find_by_tag.
  rewrite list_elem_of_In, filter_In, bool_decide_eq_true, <- list_elem_of_In.
  change (List.map snd ?l) with (snd <$> l).
  rewrite list_elem_of_fmap. unfold ActionRegistry.get. split.
  - intros [([k ac'] & -> & Hin) Htag]. simpl in *. split; [done|].
    rewrite (registered_names acs k ac' Hin). by apply lookup_elem.
  - intros [Htag Hget]. split; [|done].
    exists (cls_name ac, ac). split; [done|]. by apply lookup_elem.
Qed.

Lemma X12_find_by_tag_witness :
  DailySummary ∈ ActionRegistry.find_by_tag "calendar" (registered [summary_v1; DailySummary])
  /\ ~ summary_v1 ∈ ActionRegistry.find_by_tag "email" (registered [summary_v1; DailySummary]).
Proof.
  split.
  - apply (X12_find_by_tag [summary_v1; DailySummary] "calendar" DailySummary).
    split; [|reflexivity]. by_evaluation.
  - intros Hin.
    apply (X12_find_by_tag [summary_v1; DailySummary] "email" summary_v1) in Hin
      as [_ Hget].
    vm_compute in Hget. discriminate Hget.
Defined.

(* ===================================================================== *)
(** * Proofs: the calls of the action classes                         *)
(* ===================================================================== *)

(** ** The calls of a body, by its shape *)

Section Holds.
Context {A : Type}.
Implicit Types (Pre : Machine -> Prop) (Q : list string -> option A -> Machine -> Prop).

Lemma holds_ret (a : A) Pre Q :
  (forall m, Pre m -> Q [] (Some a) m) -> holds (Ret a) Pre Q.
Proof. intros HQ h m Hm. by apply HQ. Qed.

Lemma holds_raise (e : exn) Pre Q :
  (forall m, Q [] None m) -> holds (Raise e) Pre Q.
Proof. intros HQ h m _. apply HQ. Qed.

Lemma holds_call (n : string) (kw : dict) (k : value -> prog A) Pre Q :
  (forall m, Q [] None m) -> (forall m, Q [n] None m) ->
  (forall v, holds (k v) anywhere (fun l => Q (n :: l))) ->
  holds (CallTool n kw k) Pre Q.
Proof.
  intros Hunknown Hraised Hk h m _. cbn -[call_tool].
  destruct (call_tool h n kw m) as [[v|e] m1]; cbn.
  - by apply Hk.
  - destruct (find_tool n (_tools (self m))) as [g|];
      [destruct (g kw); apply Hraised | apply Hunknown].
Qed.

Lemma holds_context_get (key : string) (d : value) (k : value -> prog A) Pre Q :
  (forall v, holds (k v) Pre Q) -> holds (ContextGet key d k) Pre Q.
Proof. intros Hk h m Hm. by apply Hk. Qed.

Lemma holds_context_set (key : string) (v : value) (k : prog A) Pre Q :
  holds k anywhere Q -> holds (ContextSet key v k) Pre Q.
Proof. intros Hk h m _. by apply Hk. Qed.

Lemma holds_complete (o : value) (s : ActionStatus) (k : ActionResult.t -> prog A) Pre Q :
  (forall r, holds (k r) (built r s) Q) -> holds (Complete o s k) Pre Q.
Proof. intros Hk h m _. by apply (Hk (complete h o s m).1). Qed.

Lemma holds_fail (e : string) (k : ActionResult.t -> prog A) Pre Q :
  (forall r, holds (k r) (built r FAILED) Q) -> holds (Fail e k) Pre Q.
Proof. intros Hk h m _. by apply (Hk (fail h e m).1). Qed.

Lemma holds_if (b : bool) (p q : prog A) Pre Q :
  holds p Pre Q -> holds q Pre Q -> holds (if b then p else q) Pre Q.
Proof. by destruct b. Qed.

Lemma holds_eval_bind {B : Type} (o : outcome B) (k : B -> prog A) Pre Q :
  (forall m, Q [] None m) -> (forall b, holds (k b) Pre Q) -> holds (bind (eval o) k) Pre Q.
Proof. intros Hraise Hk. destruct o as [b|e]; [apply Hk | by apply holds_raise]. Qed.

Lemma holds_if_bind {B : Type} (b : bool) (p q : prog B) (k : B -> prog A) Pre Q :
  holds (bind p k) Pre Q -> holds (bind q k) Pre Q ->
  holds (bind (if b then p else q) k) Pre Q.
Proof. by destruct b. Qed.

Lemma holds_assoc {B C : Type} (p : prog B) (f : B -> prog C) (k : C -> prog A) Pre Q :
  holds (bind p (fun b => bind (f b) k)) Pre Q -> holds (bind (bind p f) k) Pre Q.
Proof.
  intros Hp h m Hm. specialize (Hp h m Hm).
  rewrite !exec_bind, !events_bind in *. rewrite exec_bind, <- app_assoc.
  destruct (exec h p m) as [[b|e] m1]; [|exact Hp].
  rewrite exec_bind, events_bind in Hp. exact Hp.
Qed.

End Holds.

(** The calls of a run are those of the body. *)
Lemma run_workflow (h : Host) (execute : prog ActionResult.t)
      (paths successes : list (list string)) (m m' : Machine) (r : ActionResult.t) :
  holds execute anywhere (workflow paths successes) ->
  run h execute m = (Returned r, m') ->
  ActionResult.tools_used r = invoked (events h execute (enter h m)) /\
  Exists (fun path => ActionResult.tools_used r `prefix_of` path) paths /\
  (ActionResult.status r = SUCCESS -> ActionResult.tools_used r ∈ successes).
Proof.
  intros Hw Hrun. destruct (Hw h (enter h m) I) as [Hpath Hres].
  pose proof (exec_trace h execute (enter h m)) as Ht.
  destruct (exec h execute (enter h m)) as [[r0|e] m1] eqn:He; simpl in Ht, Hres.
  - rewrite (run_returned h _ _ _ _ He) in Hrun. injection Hrun as <- <-.
    destruct (Hres r0 eq_refl) as [[Htc _] Hs].
    assert (Hused : ActionResult.tools_used r0 = invoked (events h execute (enter h m)))
      by (unfold ActionResult.tools_used; by rewrite Htc).
    rewrite Hused. done.
  - destruct (run_caught h _ _ _ _ _ _ He Hrun) as (_ & -> & ->).
    assert (Hused : forall r' : ActionResult.t,
               ActionResult.tool_calls r' = _tool_calls (self m1) ->
               ActionResult.tools_used r' = invoked (events h execute (enter h m))).
    { intros r' Hr. unfold ActionResult.tools_used. rewrite Hr. exact Ht. }
    split; [by apply Hused|]. split; [by erewrite Hused by reflexivity|]. discriminate.
Qed.

(** A workflow that is one sequence of calls. *)
Lemma run_sequence (h : Host) (execute : prog ActionResult.t) (names : list string)
      (m m' : Machine) (r : ActionResult.t) :
  holds execute anywhere (workflow [names] [names]) ->
  run h execute m = (Returned r, m') ->
  ActionResult.tools_used r `prefix_of` names /\
  ActionResult.tools_used r = invoked (events h execute (enter h m)) /\
  (ActionResult.status r = SUCCESS -> ActionResult.tools_used r = names).
Proof.
  intros Hw Hrun.
  destruct (run_workflow h execute _ _ m m' r Hw Hrun) as (Hused & Hpath & Hs).
  split; [|split; [done|]].
  - apply Exists_cons in Hpath as [Hp|Hp]; [done | by apply Exists_nil in Hp].
  - intros Hok. by apply Hs, list_elem_of_singleton in Hok.
Qed.

(** The leaves of a workflow: the calls made so far are decided by
    evaluation, the result in hand is the one just built. *)
Ltac workflow_leaf :=
  intros; unfold workflow; split;
  [ by_evaluation
  | let r := fresh "r" in
    let Hr := fresh "Hr" in
    intros r Hr;
    first [ discriminate Hr
          | injection Hr as <-;
            match goal with
            | Hb : built _ _ _ |- _ =>
                destruct Hb as [? ?]; split; [assumption|];
                intros ?; first [ congruence | by_evaluation ]
            end ] ].

(** One step along a body: the rule of its first statement. *)
Ltac workflow_step :=
  cbv beta delta [mbind mret prog_bind prog_ret self_call_tool context_get context_set
                  self_complete self_fail];
  cbn [bind];
  lazymatch goal with
  | |- holds (CallTool _ _ _) _ _ => apply holds_call; [ | | intros ?]
  | |- holds (ContextGet _ _ _) _ _ => apply holds_context_get; intros ?
  | |- holds (ContextSet _ _ _) _ _ => apply holds_context_set
  | |- holds (Complete _ _ _) _ _ => apply holds_complete; intros ?
  | |- holds (Fail _ _) _ _ => apply holds_fail; intros ?
  | |- holds (Ret _) _ _ => apply holds_ret
  | |- holds (Raise _) _ _ => apply holds_raise
  | |- holds (if _ then _ else _) _ _ => apply holds_if
  | |- holds (bind (eval _) _) _ _ => apply holds_eval_bind; [ | intros ?]
  | |- holds (bind (if _ then _ else _) _) _ _ => apply holds_if_bind
  | |- holds (bind (bind _ _) _) _ _ => apply holds_assoc
  | |- holds (let '(_, _) := ?x in _) _ _ => destruct x
  end.

Ltac solve_workflow := repeat workflow_step; workflow_leaf.

(** X13. [DailySummaryAction]: the tools a run has called are, in order,
    the first ones of [whoami], [get_todays_meetings], [get_inbox], as many
    as were invoked; a Success has called all three, once each. *)
Theorem X13_daily_summary_calls (h : Host) (m m' : Machine) (r : ActionResult.t) :
  run h DailySummaryAction.execute m = (Returned r, m') ->
  ActionResult.tools_used r `prefix_of` ["whoami"; "get_todays_meetings"; "get_inbox"] /\
  ActionResult.tools_used r = invoked (events h DailySummaryAction.execute (enter h m)) /\
  (ActionResult.status r = SUCCESS ->
   ActionResult.tools_used r = ["whoami"; "get_todays_meetings"; "get_inbox"]).
Proof.
  apply run_sequence. unfold DailySummaryAction.execute. solve_workflow.
Qed.

Lemma X13_daily_summary_calls_witness :
  exists (r : ActionResult.t) (m' : Machine),
    run scenario_host DailySummaryAction.execute (office DailySummaryAction.name scenario_context) = (Returned r, m') /\
    ActionResult.tools_used r = ["whoami"; "get_todays_meetings"; "get_inbox"].
Proof.
  destruct (run scenario_host DailySummaryAction.execute (office DailySummaryAction.name scenario_context))
    as [[r|e] m'] eqn:Hrun.
  - assert (Hs : ActionResult.status r = SUCCESS).
    { vm_compute in Hrun. injection Hrun as <- _. reflexivity. }
    destruct (X13_daily_summary_calls scenario_host _ _ _ Hrun) as (_ & _ & Hall).
    exists r, m'. split; [reflexivity|]. by apply Hall.
  - vm_compute in Hrun. discriminate Hrun.
Defined.

(** X14. [InboxTriageAction]: the tools a run has called are, in order,
    the first ones of [whoami], [get_inbox], as many as were invoked; a
    Success has called both, once each. *)
Theorem X14_inbox_triage_calls (h : Host) (m m' : Machine) (r : ActionResult.t) :
  run h InboxTriageAction.execute m = (Returned r, m') ->
  ActionResult.tools_used r `prefix_of` ["whoami"; "get_inbox"] /\
  ActionResult.tools_used r = invoked (events h InboxTriageAction.execute (enter h m)) /\
  (ActionResult.status r = SUCCESS -> ActionResult.tools_used r = ["whoami"; "get_inbox"]).
Proof.
  apply run_sequence. unfold InboxTriageAction.execute. solve_workflow.
Qed.

Lemma X14_inbox_triage_calls_witness :
  exists (r : ActionResult.t) (m' : Machine),
    run scenario_host InboxTriageAction.execute (office InboxTriageAction.name scenario_context) = (Returned r, m') /\
    ActionResult.tools_used r = ["whoami"; "get_inbox"].
Proof.
  destruct (run scenario_host InboxTriageAction.execute (office InboxTriageAction.name scenario_context))
    as [[r|e] m'] eqn:Hrun.
  - assert (Hs : ActionResult.status r = SUCCESS).
    { vm_compute in Hrun. injection Hrun as <- _. reflexivity. }
    destruct (X14_inbox_triage_calls scenario_host _ _ _ Hrun) as (_ & _ & Hall).
    exists r, m'. split; [reflexivity|]. by apply Hall.
  - vm_compute in Hrun. discriminate Hrun.
Defined.

(** X15. [EmailThreadAction]: without a truthy ["email_id"] in the context
    a run is Failed with "email_id required in context", calls no tool and
    leaves the context alone. In every run the tools called are, in order,
    the first ones of [read_email], [search_emails]; a Success has called
    both, once each. *)
Theorem X15_email_thread_calls (h : Host) (m m' : Machine) (r : ActionResult.t) :
  run h EmailThreadAction.execute m = (Returned r, m') ->
  (truthy (ActionContext.get "email_id" VNone (context m)) = false ->
   ActionResult.status r = FAILED /\
   ActionResult.error r = Some "email_id required in context" /\
   ActionResult.tool_calls r = [] /\
   context m' = context m) /\
  ActionResult.tools_used r `prefix_of` ["read_email"; "search_emails"] /\
  ActionResult.tools_used r = invoked (events h EmailThreadAction.execute (enter h m)) /\
  (ActionResult.status r = SUCCESS ->
   ActionResult.tools_used r = ["read_email"; "search_emails"]).
Proof.
  intros Hrun. split.
  - intros Hid. revert Hrun. unfold run, EmailThreadAction.execute.
    cbn -[fail complete call_tool enter].
    change (context (enter h m)) with (context m). rewrite Hid.
    cbn -[enter]. intros [= <- <-]. done.
  - revert Hrun. apply run_sequence. unfold EmailThreadAction.execute. solve_workflow.
Qed.

Lemma X15_email_thread_calls_witness :
  exists (r : ActionResult.t) (m' : Machine),
    run scenario_host EmailThreadAction.execute (office EmailThreadAction.name scenario_context) = (Returned r, m') /\
    ActionResult.error r = Some "email_id required in context".
Proof.
  destruct (run scenario_host EmailThreadAction.execute (office EmailThreadAction.name scenario_context))
    as [[r|e] m'] eqn:Hrun.
  - destruct (X15_email_thread_calls scenario_host _ _ _ Hrun) as (Hguard & _).
    destruct (Hguard eq_refl) as (_ & Herror & _).
    exists r, m'. split; [reflexivity | exact Herror].
  - vm_compute in Hrun. discriminate Hrun.
Defined.

(** X16. [ColleagueLookupAction]: without a truthy ["colleague_name"] in
    the context a run is Failed with "colleague_name required in context",
    calls no tool and leaves the context alone. In every run the tools
    called are, in order, the first ones of [find_colleague],
    [search_emails], [search_meetings]; a Success has called the three, once
    each. *)
Theorem X16_colleague_lookup_calls (h : Host) (m m' : Machine) (r : ActionResult.t) :
  run h ColleagueLookupAction.execute m = (Returned r, m') ->
  (truthy (ActionContext.get "colleague_name" VNone (context m)) = false ->
   ActionResult.status r = FAILED /\
   ActionResult.error r = Some "colleague_name required in context" /\
   ActionResult.tool_calls r = [] /\
   context m' = context m) /\
  ActionResult.tools_used r
  `prefix_of` ["find_colleague"; "search_emails"; "search_meetings"] /\
  ActionResult.tools_used r = invoked (events h ColleagueLookupAction.execute (enter h m)) /\
  (ActionResult.status r = SUCCESS ->
   ActionResult.tools_used r = ["find_colleague"; "search_emails"; "search_meetings"]).
Proof.
  intros Hrun. split.
  - intros Hid. revert Hrun. unfold run, ColleagueLookupAction.execute.
    cbn -[fail complete call_tool enter].
    change (context (enter h m)) with (context m). rewrite Hid.
    cbn -[enter]. intros [= <- <-]. done.
  - revert Hrun. apply run_sequence. unfold ColleagueLookupAction.execute. solve_workflow.
Qed.

Lemma X16_colleague_lookup_calls_witness :
  exists (r : ActionResult.t) (m' : Machine),
    run scenario_host ColleagueLookupAction.execute (office ColleagueLookupAction.name scenario_context) = (Returned r, m') /\
    ActionResult.error r = Some "colleague_name required in context".
Proof.
  destruct (run scenario_host ColleagueLookupAction.execute (office ColleagueLookupAction.name scenario_context))
    as [[r|e] m'] eqn:Hrun.
  - destruct (X16_colleague_lookup_calls scenario_host _ _ _ Hrun) as (Hguard & _).
    destruct (Hguard eq_refl) as (_ & Herror & _).
    exists r, m'. split; [reflexivity | exact Herror].
  - vm_compute in Hrun. discriminate Hrun.
Defined.

(** X17. [MeetingPrepAction]: the tools a run has called follow, as far as
    they go, one of three sequences: [search_meetings], or
    [get_todays_meetings], or [get_todays_meetings] then [get_calendar],
    each followed by [search_emails] then [find_colleague]. A Success has
    called one of the three lookups, then [search_emails], then
    [find_colleague] or nothing. *)
Theorem X17_meeting_prep_calls (h : Host) (m m' : Machine) (r : ActionResult.t) :
  run h MeetingPrepAction.execute m = (Returned r, m') ->
  ActionResult.tools_used r = invoked (events h MeetingPrepAction.execute (enter h m)) /\
  (ActionResult.tools_used r
   `prefix_of` ["search_meetings"; "search_emails"; "find_colleague"] \/
   ActionResult.tools_used r
   `prefix_of` ["get_todays_meetings"; "search_emails"; "find_colleague"] \/
   ActionResult.tools_used r
   `prefix_of` ["get_todays_meetings"; "get_calendar"; "search_emails"; "find_colleague"]) /\
  (ActionResult.status r = SUCCESS ->
   exists lookup tail,
     ActionResult.tools_used r = lookup ++ "search_emails" :: tail /\
     lookup ∈ [["search_meetings"]; ["get_todays_meetings"];
               ["get_todays_meetings"; "get_calendar"]] /\
     tail ∈ [[]; ["find_colleague"]]).
Proof.
  intros Hrun.
  destruct (run_workflow h MeetingPrepAction.execute
              [["search_meetings"; "search_emails"; "find_colleague"];
               ["get_todays_meetings"; "search_emails"; "find_colleague"];
               ["get_todays_meetings"; "get_calendar"; "search_emails"; "find_colleague"]]
              ((fun '(lookup, tail) => lookup ++ "search_emails" :: tail)
                 <$> [(["search_meetings"], []);
                      (["search_meetings"], ["find_colleague"]);
                      (["get_todays_meetings"], []);
                      (["get_todays_meetings"], ["find_colleague"]);
                      (["get_todays_meetings"; "get_calendar"], []);
                      (["get_todays_meetings"; "get_calendar"], ["find_colleague"])])
              m m' r) as (Hused & Hpath & Hs); [|exact Hrun|].
  { unfold MeetingPrepAction.execute, MeetingPrepAction.find_meeting. solve_workflow. }
  split; [exact Hused|]. split.
  - rewrite !Exists_cons, Exists_nil in Hpath. tauto.
  - intros Hok. apply Hs in Hok. apply list_elem_of_fmap in Hok as ([lookup tail] & -> & Hin).
    exists lookup, tail. split; [done|].
    rewrite !elem_of_cons in Hin. rewrite !elem_of_cons.
    destruct Hin as [Hin|[Hin|[Hin|[Hin|[Hin|[Hin|Hin]]]]]];
      [injection Hin as -> ->; tauto.. | by apply not_elem_of_nil in Hin].
Qed.

Lemma X17_meeting_prep_calls_witness :
  exists (r : ActionResult.t) (m' : Machine),
    run scenario_host MeetingPrepAction.execute (office MeetingPrepAction.name scenario_context)
    = (Returned r, m') /\
    ActionResult.tools_used r = ["get_todays_meetings"; "get_calendar"; "search_emails"].
Proof.
  destruct (run scenario_host MeetingPrepAction.execute
              (office MeetingPrepAction.name scenario_context)) as [[r|e] m'] eqn:Hrun.
  - destruct (X17_meeting_prep_calls scenario_host _ _ _ Hrun) as (Hused & _ & _).
    exists r, m'. split; [reflexivity|]. rewrite Hused. vm_compute. reflexivity.
  - vm_compute in Hrun. discriminate Hrun.
Defined.

(* ===================================================================== *)
(** * Proofs: the inbox, the subject of a thread, and reported failures *)
(* ===================================================================== *)

(** ** Sorting the inbox *)

Lemma categorize_acc (emails : list value) :
  forall high other : list value,
    InboxTriageAction.categorize emails high other
    = match InboxTriageAction.categorize emails [] [] with
      | Returned (h, o) => Returned (high ++ h, other ++ o)
      | Raised x => Raised x
      end.
Proof.
  induction emails as [|e emails IH]; intros high other; simpl.
  - by rewrite !app_nil_r.
  - destruct (get e "importance" VNone) as [importance|x]; [|done].
    destruct (eq_str importance "High").
    + rewrite (IH (high ++ [e])), (IH [e]).
      destruct (InboxTriageAction.categorize emails [] []) as [[h o]|x]; [|done].
      by rewrite <- app_assoc.
    + rewrite (IH high (other ++ [e])), (IH [] [e]).
      destruct (InboxTriageAction.categorize emails [] []) as [[h o]|x]; [|done].
      by rewrite <- app_assoc.
Qed.

Lemma categorize_cons (e : value) (emails : list value) :
  InboxTriageAction.categorize (e :: emails) [] []
  = match get e "importance" VNone with
    | Raised x => Raised x
    | Returned importance =>
        match InboxTriageAction.categorize emails [] [] with
        | Returned (h, o) =>
            Returned (if eq_str importance "High" then (e :: h, o) else (h, e :: o))
        | Raised x => Raised x
        end
    end.
Proof.
  simpl. destruct (get e "importance" VNone) as [importance|x]; [|done].
  destruct (eq_str importance "High").
  - rewrite categorize_acc.
    by destruct (InboxTriageAction.categorize emails [] []) as [[h o]|x].
  - rewrite categorize_acc.
    by destruct (InboxTriageAction.categorize emails [] []) as [[h o]|x].
Qed.

(** X18. The loop of [InboxTriageAction] and the comprehension of
    [DailySummaryAction] agree: what the comprehension gives is the
    high-priority list of the loop, and both raise the same exception. The
    loop returns exactly when every email is a dictionary; it then splits
    the emails, keeping their order, into those whose ["importance"] is
    ["High"] and the others, and loses none. *)
Theorem X18_triage_partition (emails : list value) :
  DailySummaryAction.high_priority emails
  = match InboxTriageAction.categorize emails [] [] with
    | Returned (high, _) => Returned high
    | Raised x => Raised x
    end /\
  ((exists high other, InboxTriageAction.categorize emails [] [] = Returned (high, other))
   <-> Forall (fun e => is_dict e = true) emails) /\
  (forall high other,
      InboxTriageAction.categorize emails [] [] = Returned (high, other) ->
      high = List.filter is_high emails /\
      other = List.filter (fun e => negb (is_high e)) emails /\
      length high + length other = length emails).
Proof.
  induction emails as [|e emails (IHagree & IHdict & IHsplit)].
  - split; [done|]. split.
    + split; [constructor | by eexists _, _].
    + by intros high other [= <- <-].
  - rewrite categorize_cons. cbn [DailySummaryAction.high_priority List.filter length].
    assert (Hhigh : forall importance,
               get e "importance" VNone = Returned importance ->
               is_high e = eq_str importance "High").
    { intros importance He. unfold is_high. by rewrite He. }
    destruct (get e "importance" VNone) as [importance|x] eqn:He.
    + assert (Hd : is_dict e = true) by (by destruct e).
      rewrite (Hhigh importance eq_refl), IHagree.
      destruct (InboxTriageAction.categorize emails [] []) as [[h o]|x].
      * destruct (IHsplit h o eq_refl) as (Hh & Ho & Hlen).
        split; [by destruct (eq_str importance "High")|]. split.
        -- split; [|destruct (eq_str importance "High"); by eexists _, _].
           intros _. constructor; [done|]. apply IHdict. by eexists _, _.
        -- intros high other.
           destruct (eq_str importance "High"); intros [= <- <-]; cbn [negb];
             rewrite <- Hh, <- Ho; simpl; repeat split; lia.
      * split; [done|]. split; [|intros ? ? [=]]. split.
        -- intros (? & ? & [=]).
        -- intros [_ Hd']%Forall_cons. apply IHdict in Hd' as (? & ? & [=]).
    + assert (Hd : is_dict e = false) by (by destruct e).
      split; [done|]. split; [|intros ? ? [=]]. split.
      * intros (? & ? & [=]).
      * intros [Hd' _]%Forall_cons. congruence.
Qed.

Lemma X18_triage_partition_witness :
  DailySummaryAction.high_priority
    [VDict [("importance", VStr "High")]; VDict [("importance", VStr "Normal")]]
  = Returned [VDict [("importance", VStr "High")]] /\
  Forall (fun e => is_dict e = true)
         [VDict [("importance", VStr "High")]; VDict [("importance", VStr "Normal")]].
Proof.
  destruct (X18_triage_partition
              [VDict [("importance", VStr "High")]; VDict [("importance", VStr "Normal")]])
    as (Hagree & Hdict & Hsplit).
  split.
  - rewrite Hagree. reflexivity.
  - apply Hdict. eexists _, _. reflexivity.
Defined.

(** ** The subject of a thread *)

Lemma replace_from_skip (old new t s : string) :
  replace_from (String.length t) old new (t ++ s)%string = replace_from 0 old new s.
Proof.
  induction t as [|c t IH]; simpl; [by destruct s | exact IH].
Qed.

Lemma length_replace_from (old s : string) :
  forall skip : nat, String.length (replace_from skip old "" s) <= String.length s.
Proof.
  induction s as [|c s IH]; intros skip; cbn [replace_from String.length]; [lia|].
  destruct skip as [|k]; [|specialize (IH k); lia].
  destruct (String.prefix old (String c s)).
  - specialize (IH (String.length old - 1)).
    change (String.append "" ?x) with x. lia.
  - specialize (IH 0). cbn [String.length]. lia.
Qed.

Lemma replace_absent (old new s : string) :
  contains old s = false -> replace_from 0 old new s = s.
Proof.
  induction s as [|c s IH]; [done|].
  cbn [contains replace_from]. intros [Hp Hc]%orb_false_iff.
  rewrite Hp. f_equal. by apply IH.
Qed.

Lemma prefix_self_app (p s : string) : String.prefix p (p ++ s)%string = true.
Proof.
  induction p as [|c p IH]; simpl; [by destruct s|].
  destruct (Ascii.ascii_dec c c); [exact IH | done].
Qed.

Lemma replace_leading (old new s : string) :
  old <> "" -> replace old new (old ++ s)%string = (new ++ replace old new s)%string.
Proof.
  intros Hne. unfold replace. apply String.eqb_neq in Hne. rewrite Hne.
  destruct old as [|c old]; [done|].
  change (String c old ++ s)%string with (String c (old ++ s)%string).
  cbn [replace_from].
  change (String c (old ++ s)%string) with (String c old ++ s)%string.
  rewrite prefix_self_app. f_equal.
  replace (String.length (String c old) - 1) with (String.length old)
    by (cbn [String.length]; lia).
  apply replace_from_skip.
Qed.

Lemma strip_prefixes_str (ps : list string) (s : string) :
  Forall (fun p => p <> "") ps ->
  exists s', EmailThreadAction.strip_prefixes ps (VStr s) = Returned (VStr s') /\
             String.length s' <= String.length s /\
             (forallb (fun p => negb (contains p s)) ps = true -> s' = s).
Proof.
  intros Hps. revert s. induction Hps as [|p ps Hp Hps IH]; intros s.
  - exists s. by repeat split.
  - cbn [EmailThreadAction.strip_prefixes method_replace forallb].
    destruct (IH (replace p "" s)) as (s' & Hs' & Hlen & Hsame).
    exists s'. split; [exact Hs'|]. split.
    + etrans; [exact Hlen|]. unfold replace. apply String.eqb_neq in Hp. rewrite Hp.
      apply length_replace_from.
    + intros [Hc Hrest]%andb_true_iff. apply negb_true_iff in Hc.
      assert (Hr : replace p "" s = s).
      { unfold replace. apply String.eqb_neq in Hp. rewrite Hp. by apply replace_absent. }
      rewrite Hr in Hsame. by apply Hsame.
Qed.

Lemma prefix_agree (q p s : string) :
  agree q p = false -> String.prefix q (p ++ s)%string = false.
Proof.
  revert p. induction q as [|a q IH]; intros [|b p]; simpl; try done.
  destruct (Ascii.eqb_spec a b) as [->|Hne]; simpl.
  - intros Hq. destruct (Ascii.ascii_dec b b); [by apply IH | done].
  - intros _. by destruct (Ascii.ascii_dec a b).
Qed.

Lemma replace_past (q new p s : string) :
  q <> "" -> apart q p = true ->
  replace q new (p ++ s)%string = (p ++ replace q new s)%string.
Proof.
  intros Hne. unfold replace. apply String.eqb_neq in Hne. rewrite Hne.
  induction p as [|c p IH]; [done|].
  cbn [apart]. intros [Ha Hp]%andb_true_iff. apply negb_true_iff in Ha.
  change (String c p ++ ?x)%string with (String c (p ++ x)%string).
  cbn [replace_from].
  change (String c (p ++ s)%string) with (String c p ++ s)%string.
  rewrite (prefix_agree _ _ _ Ha). f_equal. by apply IH.
Qed.

Lemma strip_prefixes_leading (p s : string) :
  p ∈ EmailThreadAction.prefixes ->
  EmailThreadAction.strip_prefixes EmailThreadAction.prefixes (VStr (p ++ s)%string)
  = EmailThreadAction.strip_prefixes EmailThreadAction.prefixes (VStr s).
Proof.
  unfold EmailThreadAction.prefixes. rewrite !elem_of_cons.
  intros [->|[->|[->|[->|[->|Hin]]]]]; [| | | | |by apply not_elem_of_nil in Hin];
    cbn [EmailThreadAction.strip_prefixes method_replace].
  all: repeat first
         [ rewrite (replace_past _ "" _ _) by (first [discriminate | reflexivity])
         | rewrite (replace_leading _ "" _) by discriminate;
           change (String.append "" ?x) with x ].
  all: reflexivity.
Qed.

Lemma strip_prefixes_raises (subject : value) :
  is_str subject = false ->
  EmailThreadAction.strip_prefixes EmailThreadAction.prefixes subject
  = Raised (AttributeError subject "replace").
Proof. by destruct subject. Qed.

(** X19. The loop that cleans the subject of [EmailThreadAction]: on a
    subject that is not a [str] it raises [AttributeError] for [replace]; on
    a [str] it returns a [str] that is not longer, the subject itself when
    none of the five markers occurs in it, and the same text as for the
    subject with one more marker in front. *)
Theorem X19_strip_prefixes (subject : value) :
  (is_str subject = false ->
   EmailThreadAction.strip_prefixes EmailThreadAction.prefixes subject
   = Raised (AttributeError subject "replace")) /\
  (forall s : string,
      subject = VStr s ->
      exists s' : string,
        EmailThreadAction.strip_prefixes EmailThreadAction.prefixes subject
        = Returned (VStr s') /\
        String.length s' <= String.length s /\
        (forallb (fun p => negb (contains p s)) EmailThreadAction.prefixes = true ->
         s' = s) /\
        (forall p : string,
            p ∈ EmailThreadAction.prefixes ->
            EmailThreadAction.strip_prefixes EmailThreadAction.prefixes
              (VStr (p ++ s)%string) = Returned (VStr s'))).
Proof.
  split; [apply strip_prefixes_raises|].
  - intros s ->.
    destruct (strip_prefixes_str EmailThreadAction.prefixes s) as (s' & Hs' & Hlen & Hsame).
    { repeat constructor; discriminate. }
    exists s'. split; [exact Hs'|]. split; [exact Hlen|]. split; [exact Hsame|].
    intros p Hp. by rewrite strip_prefixes_leading.
Qed.

Lemma X19_strip_prefixes_witness :
  EmailThreadAction.strip_prefixes EmailThreadAction.prefixes VNone
  = Raised (Exn "AttributeError" "'NoneType' object has no attribute 'replace'") /\
  EmailThreadAction.strip_prefixes EmailThreadAction.prefixes (VStr "Fwd: Roadmap")
  = Returned (VStr "Roadmap").
Proof.
  split.
  - apply (proj1 (X19_strip_prefixes VNone)). reflexivity.
  - destruct (proj2 (X19_strip_prefixes (VStr "Roadmap")) "Roadmap" eq_refl)
      as (s' & Hs' & _ & Hsame & Hlead).
    assert (Hin : "Fwd: " ∈ EmailThreadAction.prefixes) by by_evaluation.
    pose proof (Hlead "Fwd: " Hin) as Hstripped.
    rewrite (Hsame eq_refl) in Hstripped. exact Hstripped.
Defined.

(** ** The failures the actions report themselves *)

(** A call that returns, with what it leaves. *)
Lemma call_tool_decoded (h : Host) (n : string) (kw : dict) (m : Machine) (f : tool)
      (result : value) :
  find_tool n (_tools (self m)) = Some f ->
  f kw = Returns result ->
  decode_error h result = None ->
  exists m1,
    call_tool h n kw m = (Returned (decoded h result), m1) /\
    ToolCall.tool_name <$> _tool_calls (self m1)
    = (ToolCall.tool_name <$> _tool_calls (self m)) ++ [n] /\
    _tools (self m1) = _tools (self m) /\
    Base.name (self m1) = Base.name (self m) /\
    context m1 = context m.
Proof.
  intros Hf Hr He. rewrite (call_tool_returns h n kw m f result Hf Hr He).
  eexists. split; [reflexivity|]. cbn. by rewrite fmap_app.
Qed.

(** The result of [fail], and of a run whose body ends there. *)
Lemma fail_result (h : Host) (e : string) (m : Machine) :
  ActionResult.status (fail h e m).1 = FAILED /\
  ActionResult.error (fail h e m).1 = Some e /\
  ActionResult.tools_used (fail h e m).1 = ToolCall.tool_name <$> _tool_calls (self m) /\
  context (fail h e m).2 = context m.
Proof. done. Qed.

(** X20. [EmailThreadAction] on an email, found without error, whose
    ["subject"] is present and not a [str] (a null, for one): the run is
    Failed with the message of the [AttributeError] for [replace];
    [read_email] was called and [search_emails] was not; the email was
    stored in the context. *)
Theorem X20_email_thread_subject (h : Host) (m : Machine) (f : tool) (result : value)
        (d : dict) (email_id subject : value) :
  ActionContext.get "email_id" VNone (context m) = email_id ->
  truthy email_id = true ->
  find_tool "read_email" (_tools (self m)) = Some f ->
  f [("email_id", email_id)] = Returns result ->
  decoded h result = VDict d ->
  truthy (entry "error" d) = false ->
  lookup_key "subject" d = Some subject ->
  is_str subject = false ->
  exists (r : ActionResult.t) (m' : Machine),
    run h EmailThreadAction.execute m = (Returned r, m') /\
    ActionResult.status r = FAILED /\
    ActionResult.error r
    = Some ("'" ++ type_name subject ++ "' object has no attribute 'replace'")%string /\
    ActionResult.tools_used r = ["read_email"] /\
    ActionContext.get "original_email" VNone (context m') = VDict d.
Proof.
  intros Hid Htruthy Hf Hr Hd Herror Hsubject Hstr.
  destruct (call_tool_decoded h "read_email" [("email_id", email_id)] (enter h m)
              f result Hf Hr (decoded_dict h _ _ Hd))
    as (m1 & Hcall & Htrace & _ & _ & Hctx).
  unfold run, EmailThreadAction.execute.
  cbn -[call_tool enter fail EmailThreadAction.strip_prefixes].
  change (context (enter h m)) with (context m). rewrite Hid, Htruthy.
  cbn -[call_tool enter fail EmailThreadAction.strip_prefixes]. rewrite Hcall, Hd.
  cbn -[enter fail EmailThreadAction.strip_prefixes].
  unfold entry in Herror. rewrite Herror.
  cbn -[enter fail EmailThreadAction.strip_prefixes]. rewrite Hsubject.
  cbn -[enter fail EmailThreadAction.strip_prefixes].
  rewrite (strip_prefixes_raises subject Hstr).
  cbn -[enter fail].
  set (m2 := with_context (ActionContext.set "original_email" (VDict d)) m1).
  destruct (fail_result h (exn_str (AttributeError subject "replace")) m2)
    as (Hs & He & Hused & Hc).
  exists (fail h (exn_str (AttributeError subject "replace")) m2).1,
         (fail h (exn_str (AttributeError subject "replace")) m2).2.
  split; [reflexivity|]. split; [done|]. split; [done|]. split.
  - rewrite Hused. unfold m2. cbn [with_context self]. rewrite Htrace. done.
  - rewrite Hc. unfold m2, ActionContext.get, ActionContext.set. cbn.
    by rewrite lookup_insert_eq.
Qed.

Lemma X20_email_thread_subject_witness :
  exists (r : ActionResult.t) (m' : Machine),
    run scenario_host EmailThreadAction.execute thread_request = (Returned r, m') /\
    ActionResult.error r = Some "'NoneType' object has no attribute 'replace'" /\
    ActionResult.tools_used r = ["read_email"].
Proof.
  destruct (X20_email_thread_subject scenario_host thread_request
              (fun _ => Returns (VDict [("id", VStr "e-1"); ("subject", VNone)]))
              (VDict [("id", VStr "e-1"); ("subject", VNone)])
              [("id", VStr "e-1"); ("subject", VNone)] (VStr "e-1") VNone)
    as (r & m' & Hrun & _ & Herror & Hused & _); try reflexivity.
  exists r, m'. repeat split; assumption.
Defined.

(** X21. [EmailThreadAction] when [read_email] answers with a dictionary
    that holds a truthy ["error"]: the run is Failed with
    "Email not found: <email_id>", [read_email] is the one tool called, and
    the context is left as it was. *)
Theorem X21_email_not_found (h : Host) (m : Machine) (f : tool) (result : value)
        (d : dict) (email_id : value) :
  ActionContext.get "email_id" VNone (context m) = email_id ->
  truthy email_id = true ->
  find_tool "read_email" (_tools (self m)) = Some f ->
  f [("email_id", email_id)] = Returns result ->
  decoded h result = VDict d ->
  truthy (entry "error" d) = true ->
  exists (r : ActionResult.t) (m' : Machine),
    run h EmailThreadAction.execute m = (Returned r, m') /\
    ActionResult.status r = FAILED /\
    ActionResult.error r = Some ("Email not found: " ++ str email_id)%string /\
    ActionResult.tools_used r = ["read_email"] /\
    context m' = context m.
Proof.
  intros Hid Htruthy Hf Hr Hd Herror.
  destruct (call_tool_decoded h "read_email" [("email_id", email_id)] (enter h m)
              f result Hf Hr (decoded_dict h _ _ Hd))
    as (m1 & Hcall & Htrace & _ & _ & Hctx).
  unfold run, EmailThreadAction.execute.
  cbn -[call_tool enter fail].
  change (context (enter h m)) with (context m). rewrite Hid, Htruthy.
  cbn -[call_tool enter fail]. rewrite Hcall, Hd.
  cbn -[enter fail]. fold (entry "error" d). rewrite Herror.
  cbn -[enter fail].
  destruct (fail_result h ("Email not found: " ++ str email_id)%string m1)
    as (Hs & He & Hused & Hc).
  destruct (fail h ("Email not found: " ++ str email_id)%string m1) as [r m'].
  exists r, m'. split; [reflexivity|]. simpl in *.
  split; [done|]. split; [done|]. split; [|congruence].
  rewrite Hused, Htrace. done.
Qed.

Lemma X21_email_not_found_witness :
  exists (r : ActionResult.t) (m' : Machine),
    run scenario_host EmailThreadAction.execute
        (request EmailThreadAction.name "email_id" (VStr "e-1")) = (Returned r, m') /\
    ActionResult.error r = Some "Email not found: e-1" /\
    ActionResult.tools_used r = ["read_email"].
Proof.
  destruct (X21_email_not_found scenario_host
              (request EmailThreadAction.name "email_id" (VStr "e-1"))
              (fun _ => Returns (VDict [("error", VStr "Email not found")]))
              (VDict [("error", VStr "Email not found")])
              [("error", VStr "Email not found")] (VStr "e-1"))
    as (r & m' & Hrun & _ & Herror & Hused & _); try reflexivity.
  exists r, m'. repeat split; assumption.
Defined.

(** X22. [ColleagueLookupAction] when [find_colleague] answers with a
    dictionary that holds a truthy ["error"] or no truthy ["name"]: the run
    is Failed with "Colleague not found: <colleague_name>", [find_colleague]
    is the one tool called, and the context is left as it was. *)
Theorem X22_colleague_not_found (h : Host) (m : Machine) (f : tool) (result : value)
        (d : dict) (colleague_name : value) :
  ActionContext.get "colleague_name" VNone (context m) = colleague_name ->
  truthy colleague_name = true ->
  find_tool "find_colleague" (_tools (self m)) = Some f ->
  f [("name", colleague_name)] = Returns result ->
  decoded h result = VDict d ->
  truthy (entry "error" d) = true \/ truthy (entry "name" d) = false ->
  exists (r : ActionResult.t) (m' : Machine),
    run h ColleagueLookupAction.execute m = (Returned r, m') /\
    ActionResult.status r = FAILED /\
    ActionResult.error r = Some ("Colleague not found: " ++ str colleague_name)%string /\
    ActionResult.tools_used r = ["find_colleague"] /\
    context m' = context m.
Proof.
  intros Hid Htruthy Hf Hr Hd Hmissing.
  destruct (call_tool_decoded h "find_colleague" [("name", colleague_name)] (enter h m)
              f result Hf Hr (decoded_dict h _ _ Hd))
    as (m1 & Hcall & Htrace & _ & _ & Hctx).
  unfold run, ColleagueLookupAction.execute.
  cbn -[call_tool enter fail].
  change (context (enter h m)) with (context m). rewrite Hid, Htruthy.
  cbn -[call_tool enter fail]. rewrite Hcall, Hd.
  cbn -[enter fail]. unfold entry in Hmissing.
  destruct (fail_result h ("Colleague not found: " ++ str colleague_name)%string m1)
    as (Hs & He & Hused & Hc).
  exists (fail h ("Colleague not found: " ++ str colleague_name)%string m1).1,
         (fail h ("Colleague not found: " ++ str colleague_name)%string m1).2.
  split.
  - destruct (truthy (from_option id VNone (lookup_key "error" d))) eqn:Herror.
    + reflexivity.
    + destruct Hmissing as [Hm|Hm]; [discriminate Hm|].
      cbn -[enter fail]. rewrite Hm. reflexivity.
  - split; [done|]. split; [done|]. split; [|by rewrite Hc, Hctx].
    rewrite Hused, Htrace. done.
Qed.

Lemma X22_colleague_not_found_witness :
  exists (r : ActionResult.t) (m' : Machine),
    run scenario_host ColleagueLookupAction.execute
        (request ColleagueLookupAction.name "colleague_name" (VStr "Zed"))
    = (Returned r, m') /\
    ActionResult.error r = Some "Colleague not found: Zed" /\
    ActionResult.tools_used r = ["find_colleague"].
Proof.
  destruct (X22_colleague_not_found scenario_host
              (request ColleagueLookupAction.name "colleague_name" (VStr "Zed"))
              (fun _ => Returns (VDict [("name", VStr "")]))
              (VDict [("name", VStr "")]) [("name", VStr "")] (VStr "Zed"))
    as (r & m' & Hrun & _ & Herror & Hused & _); try reflexivity.
  { right. reflexivity. }
  exists r, m'. repeat split; assumption.
Defined.

(** X23. [MeetingPrepAction] without a meeting. With no truthy
    ["meeting_id"], today's list and the calendar of the week both holding no
    truthy ["meetings"]: the run is Failed with "No upcoming meetings found"
    after [get_todays_meetings] and [get_calendar]. With a truthy
    ["meeting_id"] and a search that holds no truthy ["results"]: the run is
    Failed with "Meeting not found: <meeting_id>" after [search_meetings]
    alone. The context is left as it was. *)
Theorem X23_meeting_not_found (h : Host) (m : Machine) :
  (forall (f1 f2 : tool) (r1 r2 : value) (d1 d2 : dict),
      truthy (ActionContext.get "meeting_id" VNone (context m)) = false ->
      find_tool "get_todays_meetings" (_tools (self m)) = Some f1 ->
      f1 [] = Returns r1 ->
      decoded h r1 = VDict d1 ->
      truthy (entry "meetings" d1) = false ->
      find_tool "get_calendar" (_tools (self m)) = Some f2 ->
      f2 [("days", VInt 7)] = Returns r2 ->
      decoded h r2 = VDict d2 ->
      truthy (entry "meetings" d2) = false ->
      exists (r : ActionResult.t) (m' : Machine),
        run h MeetingPrepAction.execute m = (Returned r, m') /\
        ActionResult.status r = FAILED /\
        ActionResult.error r = Some "No upcoming meetings found" /\
        ActionResult.tools_used r = ["get_todays_meetings"; "get_calendar"] /\
        context m' = context m) /\
  (forall (f : tool) (result : value) (d : dict) (meeting_id : value),
      ActionContext.get "meeting_id" VNone (context m) = meeting_id ->
      truthy meeting_id = true ->
      find_tool "search_meetings" (_tools (self m)) = Some f ->
      f [("query", meeting_id); ("limit", VInt 1)] = Returns result ->
      decoded h result = VDict d ->
      truthy (entry "results" d) = false ->
      exists (r : ActionResult.t) (m' : Machine),
        run h MeetingPrepAction.execute m = (Returned r, m') /\
        ActionResult.status r = FAILED /\
        ActionResult.error r = Some ("Meeting not found: " ++ str meeting_id)%string /\
        ActionResult.tools_used r = ["search_meetings"] /\
        context m' = context m).
Proof.
  split.
  - intros f1 f2 r1 r2 d1 d2 Hid Hf1 Hr1 Hd1 Hm1 Hf2 Hr2 Hd2 Hm2.
    destruct (call_tool_decoded h "get_todays_meetings" [] (enter h m) f1 r1 Hf1 Hr1
                (decoded_dict h _ _ Hd1))
      as (m1 & Hcall1 & Htrace1 & Htools1 & _ & Hctx1).
    change (_tools (self m)) with (_tools (self (enter h m))) in Hf2.
    rewrite <- Htools1 in Hf2.
    destruct (call_tool_decoded h "get_calendar" [("days", VInt 7)] m1 f2 r2 Hf2 Hr2
                (decoded_dict h _ _ Hd2))
      as (m2 & Hcall2 & Htrace2 & _ & _ & Hctx2).
    unfold run, MeetingPrepAction.execute, MeetingPrepAction.find_meeting.
    cbn -[call_tool enter fail].
    change (context (enter h m)) with (context m). rewrite Hid.
    cbn -[call_tool enter fail]. rewrite Hcall1, Hd1.
    cbn -[call_tool enter fail]. unfold entry in Hm1, Hm2. rewrite Hm1.
    cbn -[call_tool enter fail]. rewrite Hcall2, Hd2.
    cbn -[call_tool enter fail]. rewrite Hm2.
    cbn -[enter fail].
    destruct (fail_result h "No upcoming meetings found" m2) as (Hs & He & Hused & Hc).
    exists (fail h "No upcoming meetings found" m2).1,
           (fail h "No upcoming meetings found" m2).2.
    split; [reflexivity|]. split; [done|]. split; [done|].
    split; [|by rewrite Hc, Hctx2, Hctx1].
    rewrite Hused, Htrace2, Htrace1. done.
  - intros f result d meeting_id Hid Htruthy Hf Hr Hd Hres.
    destruct (call_tool_decoded h "search_meetings"
                [("query", meeting_id); ("limit", VInt 1)] (enter h m) f result Hf Hr
                (decoded_dict h _ _ Hd))
      as (m1 & Hcall & Htrace & _ & _ & Hctx).
    unfold run, MeetingPrepAction.execute, MeetingPrepAction.find_meeting.
    cbn -[call_tool enter fail].
    change (context (enter h m)) with (context m). rewrite Hid, Htruthy.
    cbn -[call_tool enter fail]. rewrite Hcall, Hd.
    cbn -[call_tool enter fail]. unfold entry in Hres. rewrite Hres.
    cbn -[enter fail].
    destruct (fail_result h ("Meeting not found: " ++ str meeting_id)%string m1)
      as (Hs & He & Hused & Hc).
    exists (fail h ("Meeting not found: " ++ str meeting_id)%string m1).1,
           (fail h ("Meeting not found: " ++ str meeting_id)%string m1).2.
    split; [reflexivity|]. split; [done|]. split; [done|].
    split; [|by rewrite Hc, Hctx].
    rewrite Hused, Htrace. done.
Qed.

Lemma X23_meeting_not_found_witness :
  exists (r : ActionResult.t) (m' : Machine),
    run scenario_host MeetingPrepAction.execute
        (request MeetingPrepAction.name "meeting_id" (VStr "m-404")) = (Returned r, m') /\
    ActionResult.error r = Some "Meeting not found: m-404" /\
    ActionResult.tools_used r = ["search_meetings"].
Proof.
  destruct (proj2 (X23_meeting_not_found scenario_host
                     (request MeetingPrepAction.name "meeting_id" (VStr "m-404")))
              (fun _ => Returns (VDict [("results", VList [])]))
              (VDict [("results", VList [])]) [("results", VList [])] (VStr "m-404"))
    as (r & m' & Hrun & _ & Herror & Hused & _); try reflexivity.
  exists r, m'. repeat split; assumption.
Defined.

(** X24. When [whoami] answers with something that does not decode to a
    dictionary (the decoder raising nothing that [call_tool] lets through),
    both summaries fail with the [AttributeError] for [get], at different
    times: [InboxTriageAction] right after [whoami], before it asks for the
    inbox; [DailySummaryAction] only after it has called the three tools
    (the calendar and the mailbox answering, and their answers decoding),
    the answer of [whoami] being stored in the context under ["user"]. *)
Theorem X24_whoami_not_a_dict (h : Host) (m : Machine) (f1 : tool) (r1 : value) :
  find_tool "whoami" (_tools (self m)) = Some f1 ->
  f1 [] = Returns r1 ->
  decode_error h r1 = None ->
  is_dict (decoded h r1) = false ->
  (exists (r : ActionResult.t) (m' : Machine),
      run h InboxTriageAction.execute m = (Returned r, m') /\
      ActionResult.status r = FAILED /\
      ActionResult.error r
      = Some ("'" ++ type_name (decoded h r1) ++ "' object has no attribute 'get'")%string /\
      ActionResult.tools_used r = ["whoami"]) /\
  (forall (f2 f3 : tool) (r2 r3 : value),
      find_tool "get_todays_meetings" (_tools (self m)) = Some f2 ->
      f2 [] = Returns r2 ->
      find_tool "get_inbox" (_tools (self m)) = Some f3 ->
      f3 [("limit", VInt 20); ("unread_only", VBool true)] = Returns r3 ->
      decode_error h r2 = None ->
      decode_error h r3 = None ->
      exists (r : ActionResult.t) (m' : Machine),
        run h DailySummaryAction.execute m = (Returned r, m') /\
        ActionResult.status r = FAILED /\
        ActionResult.error r
        = Some ("'" ++ type_name (decoded h r1) ++ "' object has no attribute 'get'")%string /\
        ActionResult.tools_used r = ["whoami"; "get_todays_meetings"; "get_inbox"] /\
        ActionContext.get "user" VNone (context m') = decoded h r1).
Proof.
  intros Hf1 Hr1 He1 Hd.
  assert (Hget : forall key default,
             get (decoded h r1) key default = Raised (AttributeError (decoded h r1) "get")).
  { intros key default. by destruct (decoded h r1). }
  destruct (call_tool_decoded h "whoami" [] (enter h m) f1 r1 Hf1 Hr1 He1)
    as (m1 & Hcall1 & Htrace1 & Htools1 & _ & Hctx1).
  split.
  - unfold run, InboxTriageAction.execute.
    cbn -[call_tool enter fail get]. rewrite Hcall1.
    cbn -[call_tool enter fail get]. rewrite Hget.
    cbn -[enter fail].
    destruct (fail_result h (exn_str (AttributeError (decoded h r1) "get")) m1)
      as (Hs & He & Hused & Hc).
    exists (fail h (exn_str (AttributeError (decoded h r1) "get")) m1).1,
           (fail h (exn_str (AttributeError (decoded h r1) "get")) m1).2.
    split; [reflexivity|]. split; [done|]. split; [done|].
    rewrite Hused, Htrace1. done.
  - intros f2 f3 r2 r3 Hf2 Hr2 Hf3 Hr3 He2 He3.
    set (m1' := with_context (ActionContext.set "user" (decoded h r1)) m1).
    change (_tools (self m)) with (_tools (self (enter h m))) in Hf2, Hf3.
    rewrite <- Htools1 in Hf2, Hf3.
    destruct (call_tool_decoded h "get_todays_meetings" [] m1' f2 r2 Hf2 Hr2 He2)
      as (m2 & Hcall2 & Htrace2 & Htools2 & _ & Hctx2).
    set (m2' := with_context (ActionContext.set "meetings" (decoded h r2)) m2).
    change (_tools (self m1)) with (_tools (self m1')) in Hf3.
    rewrite <- Htools2 in Hf3.
    destruct (call_tool_decoded h "get_inbox"
                [("limit", VInt 20); ("unread_only", VBool true)] m2' f3 r3 Hf3 Hr3 He3)
      as (m3 & Hcall3 & Htrace3 & _ & _ & Hctx3).
    set (m3' := with_context (ActionContext.set "inbox" (decoded h r3)) m3).
    unfold run, DailySummaryAction.execute.
    cbn -[call_tool enter fail get]. rewrite Hcall1.
    cbn -[call_tool enter fail get]. fold m1'. rewrite Hcall2.
    cbn -[call_tool enter fail get]. fold m2'. rewrite Hcall3.
    cbn -[call_tool enter fail get]. fold m3'. rewrite Hget.
    cbn -[enter fail].
    destruct (fail_result h (exn_str (AttributeError (decoded h r1) "get")) m3')
      as (Hs & He & Hused & Hc).
    exists (fail h (exn_str (AttributeError (decoded h r1) "get")) m3').1,
           (fail h (exn_str (AttributeError (decoded h r1) "get")) m3').2.
    split; [reflexivity|]. split; [done|]. split; [done|]. split.
    + rewrite Hused. unfold m3'. cbn [with_context self].
      rewrite Htrace3. unfold m2'. cbn [with_context self].
      rewrite Htrace2. unfold m1'. cbn [with_context self].
      rewrite Htrace1. done.
    + rewrite Hc. unfold m3'. cbn [with_context context].
      rewrite Hctx3. unfold m2'. cbn [with_context context].
      rewrite Hctx2. unfold m1'. cbn [with_context context].
      unfold ActionContext.get, ActionContext.set. cbn.
      rewrite lookup_insert_ne by done. rewrite lookup_insert_ne by done.
      by rewrite lookup_insert_eq.
Qed.

Lemma X24_whoami_not_a_dict_witness :
  exists (r : ActionResult.t) (m' : Machine),
    run scenario_host DailySummaryAction.execute
        (boot (new_action DailySummaryAction.name plain_text_tools) scenario_context)
    = (Returned r, m') /\
    ActionResult.error r = Some "'str' object has no attribute 'get'" /\
    ActionResult.tools_used r = ["whoami"; "get_todays_meetings"; "get_inbox"].
Proof.
  destruct (X24_whoami_not_a_dict scenario_host
              (boot (new_action DailySummaryAction.name plain_text_tools) scenario_context)
              (fun _ => Returns (VStr "service unavailable")) (VStr "service unavailable")
              eq_refl eq_refl eq_refl eq_refl) as (_ & Hsummary).
  destruct (Hsummary (fun _ => Returns (VDict [("meetings", VList [])]))
                     (fun _ => Returns (VDict [("emails", VList [])]))
                     (VDict [("meetings", VList [])]) (VDict [("emails", VList [])])
                     eq_refl eq_refl eq_refl eq_refl eq_refl eq_refl)
    as (r & m' & Hrun & _ & Herror & Hused & _).
  exists r, m'. repeat split; assumption.
Defined.

(* ===================================================================== *)
(** * Proofs: conflicts in a list of meetings                         *)
(* ===================================================================== *)

(** ** Conflicts in a list of meetings *)










(* ===================================================================== *)
(** * Proofs: keywords and delegates, further                         *)
(* ===================================================================== *)

(** ** Subject and body *)

Lemma lower_app (a b : string) : lower (a ++ b)%string = (lower a ++ lower b)%string.
Proof.
  induction a as [|c a IH]; [done|].
  change (String c a ++ b)%string with (String c (a ++ b)%string).
  cbn [lower]. by rewrite IH.
Qed.

Lemma list_ascii_of_string_app (a b : string) :
  list_ascii_of_string (a ++ b)%string = list_ascii_of_string a ++ list_ascii_of_string b.
Proof.
  induction a as [|c a IH]; [done|].
  change (String c a ++ b)%string with (String c (a ++ b)%string).
  cbn [list_ascii_of_string]. by rewrite IH.
Qed.

Lemma runs_split (P : ascii -> bool) (c : ascii) (a b : list ascii) :
  P c = false ->
  forall cur, runs P cur (a ++ c :: b) = runs P cur a ++ runs P [] b.
Proof.
  intros Hc. induction a as [|x a IH]; intros cur; simpl.
  - by rewrite Hc.
  - destruct (P x); [apply IH|]. by rewrite IH, app_assoc.
Qed.

Lemma whole_words_space (a b : string) :
  whole_words (a ++ " " ++ b)%string = whole_words a ++ whole_words b.
Proof.
  unfold whole_words.
  rewrite list_ascii_of_string_app.
  change (list_ascii_of_string (" " ++ b)%string)
    with (" "%char :: list_ascii_of_string b).
  rewrite (runs_split is_word " "%char) by reflexivity.
  by rewrite List.filter_app, fmap_app.
Qed.

Lemma first_occurrences_prefix (l k : list string) :
  first_occurrences l `prefix_of` first_occurrences (l ++ k).
Proof.
  induction k as [|x k IH] using rev_ind.
  - by rewrite app_nil_r.
  - rewrite app_assoc, first_occurrences_snoc. by apply prefix_app_r.
Qed.

Lemma take_prefix {A : Type} (n : nat) (l k : list A) :
  l `prefix_of` k -> take n l `prefix_of` take n k.
Proof.
  intros [rest ->]. rewrite take_app. by apply prefix_app_r.
Qed.

Lemma keywords_text (subject body : string) :
  _extract_keywords subject body
  = take 10 (first_occurrences
               (List.filter not_stopword (findall_words (lower subject))
                ++ List.filter not_stopword (findall_words (lower body)))).
Proof.
  rewrite extract_refines. unfold extract_whole_words.
  rewrite !lower_app. change (lower " ") with " ".
  by rewrite whole_words_space, List.filter_app, !findall_whole_words.
Qed.

(** X27. [_extract_keywords]: the keywords of the subject alone are the
    first keywords of subject and body; every keyword is a word the
    expression finds in the lowercased subject or in the lowercased body,
    none straddles the two; and two inputs that differ by letter case only
    give the same keywords. *)
Theorem X27_keywords_subject_first (subject body : string) :
  _extract_keywords subject "" `prefix_of` _extract_keywords subject body /\
  (forall kw, kw ∈ _extract_keywords subject body ->
              kw ∈ findall_words (lower subject) \/ kw ∈ findall_words (lower body)) /\
  (forall subject' body',
      lower subject' = lower subject -> lower body' = lower body ->
      _extract_keywords subject' body' = _extract_keywords subject body).
Proof.
  split; [|split].
  - rewrite !keywords_text. apply take_prefix.
    change (findall_words (lower "")) with (@nil string). simpl List.filter at 2.
    rewrite app_nil_r. apply first_occurrences_prefix.
  - intros kw. rewrite keywords_text. intros Hkw%(subseteq_take 10).
    apply first_occurrences_subset, elem_of_app in Hkw as [Hkw|Hkw];
      apply list_elem_of_In, filter_In in Hkw as [Hkw _]; apply list_elem_of_In in Hkw;
      tauto.
  - intros subject' body' Hs Hb. by rewrite !keywords_text, Hs, Hb.
Qed.

Lemma X27_keywords_subject_first_witness :
  _extract_keywords "SPARK Pipeline" "" `prefix_of` _extract_keywords "Spark pipeline" "Agenda".
Proof.
  destruct (X27_keywords_subject_first "Spark pipeline" "") as (_ & _ & Hcase).
  rewrite (Hcase "SPARK Pipeline" "" eq_refl eq_refl).
  apply (X27_keywords_subject_first "Spark pipeline" "Agenda").
Defined.

(** ** Delegates *)

(** X28. When [_find_alternative_contributors] can read the exclusion list
    and the emails, it returns, and it returns no one exactly when no email
    counts (matches a keyword, from a named sender who is not excluded); so
    a meeting without keywords gets no alternative; and no one returned
    has, letter case apart, a name of the exclusion set. *)
Theorem X28_no_alternatives (so : SetOrder) (md : dict) (emails exclude : value)
        (excluded : gset string) (read : list Email.t) :
  Dicts.exclude_names exclude = Returned excluded ->
  read_emails (keywords_of md) emails = Returned read ->
  exists result : list Contributor.t,
    Dicts._find_alternative_contributors so (VDict md) emails exclude = Returned result /\
    (result = [] <->
     Forall (fun e => qualifies (keywords_of md) excluded e = false) read) /\
    (keywords_of md = [] -> result = []) /\
    (forall c x, c ∈ result -> x ∈ excluded -> lower (Contributor.name c) <> x).
Proof.
  intros Hex Hread. rewrite find_alternatives_read, Hex, Hread. cbn [outcome_bind].
  eexists. split; [reflexivity|]. rewrite rank_contributors_spec.
  set (keywords := keywords_of md).
  set (ranked := sorted_reverse (score_of keywords excluded read)
                                (senders keywords excluded read)).
  assert (Hperm : ranked ≡ₚ senders keywords excluded read)
    by apply sorted_reverse_perm.
  assert (Hempty : (fun name => report so (entry_of keywords excluded read name))
                     <$> take 3 ranked = [] <->
                   Forall (fun e => qualifies keywords excluded e = false) read).
  { rewrite Forall_forall. split.
    - intros Hnil e He. destruct (qualifies keywords excluded e) eqn:Hq; [|done].
      assert (Hin : sender_name e ∈ ranked).
      { rewrite Hperm. apply senders_elem. by exists e. }
      destruct ranked as [|x ranked']; [by apply not_elem_of_nil in Hin|].
      discriminate Hnil.
    - intros Hnone. destruct ranked as [|x ranked'] eqn:Hr; [done|]. exfalso.
      assert (Hin : x ∈ senders keywords excluded read)
        by (rewrite <- Hperm; by left).
      apply senders_elem in Hin as (e & He & Hq & _).
      rewrite (Hnone e He) in Hq. discriminate Hq. }
  split; [exact Hempty|]. split.
  - intros Hk. apply Hempty, Forall_forall. intros e _.
    unfold qualifies, matched. by rewrite Hk.
  - intros c x Hc Hx Heq.
    apply list_elem_of_fmap in Hc as (name & -> & Hname).
    apply subseteq_take in Hname. rewrite Hperm in Hname.
    apply senders_elem in Hname as (e & _ & Hq & <-).
    apply qualifies_spec in Hq as (_ & _ & Hnot). apply Hnot.
    cbn [report Contributor.name entry_of Contributor.e_name] in Heq. by rewrite Heq.
Qed.

Lemma X28_no_alternatives_witness :
  Dicts._find_alternative_contributors sorted_set_order
    (VDict [("subject", VStr "Weekly team sync"); ("start", VStr "10:00")])
    (VList (email_dict <$> recent_emails)) VNone
  = Returned [].
Proof.
  destruct (X28_no_alternatives sorted_set_order
              [("subject", VStr "Weekly team sync"); ("start", VStr "10:00")]
              (VList (email_dict <$> recent_emails)) VNone ∅
              ((fun e => Email.Build (Email.subject e) (Some "") None None)
                 <$> recent_emails))
    as (result & Hcall & _ & Hnone & _).
  - reflexivity.
  - vm_compute. reflexivity.
  - rewrite Hcall. f_equal. apply Hnone. vm_compute. reflexivity.
Defined.
